(** * weaviate-cli, data group: import validation, upload and bulk delete

    A shallow embedding of [semi/data/commands.py].  The program reads JSON
    (the data file through [json.load], the schema through the client), so
    values are modelled as parsed JSON, and every Python operation the
    source applies to them is written out with the exception it raises on a
    value of the wrong kind.  Strings are byte strings in UTF-8. *)

From Stdlib Require Import ZArith List String Ascii Bool Lia.
From stdpp Require Import base tactics option list.
Import ListNotations.
Local Open Scope string_scope.
Local Open Scope list_scope.
Set Warnings "-register-all".

(** ** Python values as produced by [json.load] *)

(** A float is a finite binary fraction [m * 2^e], an infinity (what an
    out-of-range literal such as 1e400 parses to) or NaN. *)
Inductive pyfloat : Type :=
| FFin (m e : Z)
| FInf (neg : bool)
| FNaN.

Inductive json : Type :=
| JNull
| JBool (b : bool)
| JInt (n : Z)
| JFloat (f : pyfloat)
| JStr (s : string)
| JArr (l : list json)
| JObj (kvs : list (string * json)).

(** ** Outcomes of a call: a value, [sys.exit(code)] or an uncaught exception *)

Inductive exn : Type :=
| KeyError | IndexError | TypeError | AttributeError
| JSONDecodeError | OSError | ClientError.

Inductive outcome (A : Type) : Type :=
| Ok (a : A)
| Exit (code : Z)
| Raise (e : exn).
Arguments Ok {A} a.
Arguments Exit {A} code.
Arguments Raise {A} e.

#[global] Instance outcome_ret : MRet outcome := fun A a => Ok a.
#[global] Instance outcome_bind : MBind outcome := fun A B f m =>
  match m with
  | Ok a => f a
  | Exit c => Exit c
  | Raise e => Raise e
  end.

(** The status the interpreter ends with: 0 after a normal return, the
    argument of [sys.exit], 1 after an uncaught exception. *)
Definition exit_status {A} (o : outcome A) : Z :=
  match o with
  | Ok _ => 0
  | Exit c => c
  | Raise _ => 1
  end%Z.

(** [for x in l: acc = body acc x], stopping at the first exit or raise. *)
Fixpoint for_each {M : Type -> Type} `{!MRet M, !MBind M} {A B}
    (body : B -> A -> M B) (l : list A) (acc : B) : M B :=
  match l with
  | [] => mret acc
  | x :: rest => acc' ← body acc x; for_each body rest acc'
  end.

(** ** Python operations on JSON values *)

Fixpoint dict_get {V} (kvs : list (string * V)) (k : string) : option V :=
  match kvs with
  | [] => None
  | (k', v) :: rest => if String.eqb k k' then Some v else dict_get rest k
  end.

(** [v.get(k, default)]: only a dict has [get]. *)
Definition py_get (v : json) (k : string) (dflt : json) : outcome json :=
  match v with
  | JObj kvs => Ok (default dflt (dict_get kvs k))
  | _ => Raise AttributeError
  end.

(** [v[k]] for a string [k]: a missing key is a [KeyError]; a list or a
    string wants an integer index and every other value is not
    subscriptable, both a [TypeError]. *)
Definition py_getitem (v : json) (k : string) : outcome json :=
  match v with
  | JObj kvs =>
      match dict_get kvs k with
      | Some x => Ok x
      | None => Raise KeyError
      end
  | _ => Raise TypeError
  end.

(** The code points of a UTF-8 string: a continuation byte (10xxxxxx)
    belongs to the character that starts before it. *)
Definition is_continuation (c : ascii) : bool :=
  let n := nat_of_ascii c in (128 <=? n)%nat && (n <? 192)%nat.

Definition opens_with_continuation (s : string) : bool :=
  match s with
  | String c _ => is_continuation c
  | EmptyString => false
  end.

Fixpoint utf8_chars (s : string) : list string :=
  match s with
  | EmptyString => []
  | String c rest =>
      match utf8_chars rest with
      | g :: gs =>
          if opens_with_continuation g then String c g :: gs
          else String c EmptyString :: g :: gs
      | [] => [String c EmptyString]
      end
  end.

(** [v[0]].  The keys of a parsed JSON object are strings, so the integer 0
    is never among them. *)
Definition py_getitem0 (v : json) : outcome json :=
  match v with
  | JArr (x :: _) => Ok x
  | JArr [] => Raise IndexError
  | JStr s =>
      match utf8_chars s with
      | c :: _ => Ok (JStr c)
      | [] => Raise IndexError
      end
  | JObj _ => Raise KeyError
  | _ => Raise TypeError
  end.

(** [for x in v]: a list yields its elements, a string its characters, a
    dict its keys; nothing else is iterable. *)
Definition py_iter (v : json) : outcome (list json) :=
  match v with
  | JArr l => Ok l
  | JStr s => Ok (map JStr (utf8_chars s))
  | JObj kvs => Ok (map (fun kv => JStr (fst kv)) kvs)
  | _ => Raise TypeError
  end.

(** [v.items()]: only a dict has [items]. *)
Definition py_items (v : json) : outcome (list (string * json)) :=
  match v with
  | JObj kvs => Ok kvs
  | _ => Raise AttributeError
  end.

(** [name in l] for a string [name]: a string equals only an equal string. *)
Definition str_in (name : string) (l : list json) : bool :=
  existsb (fun v => match v with JStr s => String.eqb name s | _ => false end) l.

(** ** Dictionaries keyed by JSON values

    Lists and dicts are unhashable.  [None], strings and numbers are keys;
    [True == 1 == 1.0], so booleans, integers and floats are compared by
    value.  [json.load] maps every NaN literal to one shared object, which
    a dict lookup matches by identity. *)
Definition hashable (v : json) : bool :=
  match v with
  | JArr _ | JObj _ => false
  | _ => true
  end.

Definition float_eqb (x y : pyfloat) : bool :=
  match x, y with
  | FFin m1 e1, FFin m2 e2 =>
      let e := Z.min e1 e2 in
      (m1 * 2 ^ (e1 - e) =? m2 * 2 ^ (e2 - e))%Z
  | FInf a, FInf b => Bool.eqb a b
  | FNaN, FNaN => true
  | _, _ => false
  end.

Definition key_num (v : json) : option pyfloat :=
  match v with
  | JBool b => Some (FFin (if b then 1 else 0) 0)
  | JInt n => Some (FFin n 0)
  | JFloat f => Some f
  | _ => None
  end.

Definition key_eqb (a b : json) : bool :=
  match a, b with
  | JNull, JNull => true
  | JStr s, JStr t => String.eqb s t
  | _, _ =>
      match key_num a, key_num b with
      | Some x, Some y => float_eqb x y
      | _, _ => false
      end
  end.

Section PyDict.
Context {V : Type}.

(** A dict in insertion order. *)
Definition pydict := list (json * V).

Fixpoint pydict_lookup (d : pydict) (k : json) : option V :=
  match d with
  | [] => None
  | (k', v) :: rest => if key_eqb k k' then Some v else pydict_lookup rest k
  end.

(** [d[k] = v] on a hashable [k]: an existing key keeps its place. *)
Fixpoint pydict_set (d : pydict) (k : json) (v : V) : pydict :=
  match d with
  | [] => [(k, v)]
  | (k', v') :: rest =>
      if key_eqb k k' then (k', v) :: rest
      else (k', v') :: pydict_set rest k v
  end.

(** [d.get(k)] *)
Definition pydict_get (d : pydict) (k : json) : outcome (option V) :=
  if hashable k then Ok (pydict_lookup d k) else Raise TypeError.

(** [d[k] = v] *)
Definition pydict_setitem (d : pydict) (k : json) (v : V) : outcome pydict :=
  if hashable k then Ok (pydict_set d k v) else Raise TypeError.
End PyDict.
Arguments pydict V : clear implicits.

(** ** Schema index: [dissect_schema] *)

(** The value stored per class: [{'primitive': prim, 'ref': ref}]. *)
Record class_definition : Type := {
  primitive : list json;
  ref : list json
}.

Definition schema_definition := pydict class_definition.

Definition primitive_tags : list string :=
  ["text"; "string"; "int"; "boolean"; "number"; "date"; "geoCoordinates";
   "phoneNumber"].

(** [data_type in ['text', ...]] *)
Definition is_primitive_prop (data_type : json) : bool :=
  match data_type with
  | JStr s => existsb (String.eqb s) primitive_tags
  | _ => false
  end.

Arguments is_primitive_prop : simpl never.

(** The body of the loop of [_get_schema_properties]. *)
Definition _get_schema_properties_step (acc : list json * list json)
    (property_ : json) : outcome (list json * list json) :=
  let '(properties_primitive, properties_reference) := acc in
  data_type ← py_getitem property_ "dataType";
  tag ← py_getitem0 data_type;
  if is_primitive_prop tag then
    name ← py_getitem property_ "name";
    Ok (properties_primitive ++ [name], properties_reference)
  else
    name ← py_getitem property_ "name";
    Ok (properties_primitive, properties_reference ++ [name]).

Definition _get_schema_properties (properties : json)
  : outcome (list json * list json) :=
  props ← py_iter properties;
  for_each _get_schema_properties_step props ([], []).

(** The body of the loop of [dissect_schema]: the right-hand side is
    evaluated before the key. *)
Definition dissect_schema_step (dissected : schema_definition) (class_ : json)
  : outcome schema_definition :=
  properties ← py_getitem class_ "properties";
  '(prim, ref) ← _get_schema_properties properties;
  class_name ← py_getitem class_ "class";
  pydict_setitem dissected class_name {| primitive := prim; ref := ref |}.

Definition dissect_schema (schema : json) : outcome schema_definition :=
  classes ← py_get schema "classes" (JArr []);
  class_list ← py_iter classes;
  for_each dissect_schema_step class_list [].

(** ** The schema document as the remote service describes it

    A typed reading of a schema document: the classes in order, each with
    its name and its properties, each property with its name and the first
    element of its data-type tag list.  [None] when the document has another
    shape. *)
Definition property_view := (string * string)%type.
Definition class_view := (string * list property_view)%type.

Definition view_property (p : json) : option property_view :=
  match p with
  | JObj kvs =>
      match dict_get kvs "name", dict_get kvs "dataType" with
      | Some (JStr n), Some (JArr (JStr t :: _)) => Some (n, t)
      | _, _ => None
      end
  | _ => None
  end.

Definition view_class (c : json) : option class_view :=
  match c with
  | JObj kvs =>
      match dict_get kvs "class", dict_get kvs "properties" with
      | Some (JStr cn), Some (JArr ps) => tps ← mapM view_property ps; Some (cn, tps)
      | _, _ => None
      end
  | _ => None
  end.

Definition view_schema (doc : json) : option (list class_view) :=
  match doc with
  | JObj kvs =>
      match dict_get kvs "classes" with
      | None => Some []
      | Some (JArr cs) => mapM view_class cs
      | Some _ => None
      end
  | _ => None
  end.

Definition primitive_tag (t : string) : bool := is_primitive_prop (JStr t).

Definition primitive_names (tps : list property_view) : list json :=
  map (fun p => JStr (fst p)) (List.filter (fun p => primitive_tag (snd p)) tps).

Definition reference_names (tps : list property_view) : list json :=
  map (fun p => JStr (fst p)) (List.filter (fun p => negb (primitive_tag (snd p))) tps).

Definition class_entry (tps : list property_view) : class_definition :=
  {| primitive := primitive_names tps; ref := reference_names tps |}.

Definition add_class (d : schema_definition) (c : class_view) : schema_definition :=
  pydict_set d (JStr (fst c)) (class_entry (snd c)).


(** ** Reference dissection: [dissect_reference] *)

(** [s.split(sep)] for a one-character separator. *)
Fixpoint split (sep : ascii) (s : string) : list string :=
  match s with
  | EmptyString => [EmptyString]
  | String c rest =>
      if Ascii.eqb c sep then EmptyString :: split sep rest
      else
        match split sep rest with
        | seg :: segs => String c seg :: segs
        | [] => [String c EmptyString]
        end
  end.

(** [v.split('/')]: only a string has [split]. *)
Definition py_split (v : json) : outcome (list string) :=
  match v with
  | JStr s => Ok (split "/"%char s)
  | _ => Raise AttributeError
  end.

(** [l[-1]] *)
Definition py_last (l : list string) : outcome string :=
  match l with
  | [] => Raise IndexError
  | x :: rest => Ok (List.last rest x)
  end.

(** The keyword arguments of [batcher.add_reference]. *)
Record reference_parameters : Type := {
  from_object_uuid : json;
  from_object_class_name : json;
  from_property_name : string;
  to_object_uuid : string
}.

Definition dissect_reference_step (from_class from_id : json) (from_prop : string)
    (result : list reference_parameters) (ref_ : json)
  : outcome (list reference_parameters) :=
  beacon ← py_get ref_ "beacon" (JStr "e");
  beacon_split ← py_split beacon;
  target ← py_last beacon_split;
  Ok (result ++ [{| from_object_uuid := from_id;
                    from_object_class_name := from_class;
                    from_property_name := from_prop;
                    to_object_uuid := target |}]).

Definition dissect_reference (refs from_class from_id : json) (from_prop : string)
  : outcome (list reference_parameters) :=
  ref_list ← py_iter refs;
  for_each (dissect_reference_step from_class from_id from_prop) ref_list [].

(** ** The process: output, calls to the client, and the validator's lists *)

(** The keyword arguments of [batcher.add_data_object]; the ['vector'] key
    is set only for an object with a non-null vector. *)
Record import_object_parameter : Type := {
  class_name : json;
  uuid : json;
  data_object : list (string * json);
  vector : option json
}.

(** A printed argument: literal text and [str(v)] of interpolated values. *)
Inductive fragment : Type :=
| Lit (s : string)
| Str (v : json).

Definition message := list fragment.

Inductive event : Type :=
| EvPrint (args : list message)
| EvBatchConfigure (batch_size : Z)
| EvSchemaGet
| EvSchemaDeleteAll
| EvSchemaCreate (schema : json)
| EvAddDataObject (obj : import_object_parameter)
| EvAddReference (r : reference_parameters)
| EvFlush
| EvPrompt (question : string).

Record world : Type := {
  trace : list event;
  data_objects : list import_object_parameter;
  data_references : list reference_parameters
}.

Definition initial_world : world :=
  {| trace := []; data_objects := []; data_references := [] |}.

Definition M (A : Type) : Type := world -> outcome A * world.

#[global] Instance M_ret : MRet M := fun A a w => (Ok a, w).
#[global] Instance M_bind : MBind M := fun A B f m w =>
  match m w with
  | (Ok a, w') => f a w'
  | (Exit c, w') => (Exit c, w')
  | (Raise e, w') => (Raise e, w')
  end.

Definition lift {A} (o : outcome A) : M A := fun w => (o, w).

(** The world after one more event. *)
Definition log (w : world) (ev : event) : world :=
  {| trace := trace w ++ [ev];
     data_objects := data_objects w;
     data_references := data_references w |}.

Definition emit (ev : event) : M unit := fun w => (Ok tt, log w ev).

Definition print (args : list message) : M unit := emit (EvPrint args).

Definition sys_exit {A} (code : Z) : M A := fun w => (Exit code, w).

(** [d[k] = v] on a dict with string keys. *)
Fixpoint dict_set {V} (kvs : list (string * V)) (k : string) (v : V)
  : list (string * V) :=
  match kvs with
  | [] => [(k, v)]
  | (k', v') :: rest =>
      if String.eqb k k' then (k', v) :: rest else (k', v') :: dict_set rest k v
  end.

(** [_exit_validation_failed] prints and exits; it never returns. *)
Definition _exit_validation_failed {A} (reason : message) : M A :=
  print [[Lit "Error validation failed:"]; reason];; sys_exit 1.

(** The validator's two lists. *)
Definition reset_lists : M unit := fun w =>
  (Ok tt, {| trace := trace w; data_objects := []; data_references := [] |}).

Definition add_references (w : world) (l : list reference_parameters) : world :=
  {| trace := trace w; data_objects := data_objects w;
     data_references := data_references w ++ l |}.

Definition add_object (w : world) (o : import_object_parameter) : world :=
  {| trace := trace w; data_objects := data_objects w ++ [o];
     data_references := data_references w |}.

(** [self.data_references += ref_parameters] *)
Definition extend_data_references (l : list reference_parameters) : M unit :=
  fun w => (Ok tt, add_references w l).

(** [self.data_objects.append(import_object_parameter)] *)
Definition append_data_object (o : import_object_parameter) : M unit :=
  fun w => (Ok tt, add_object w o).

Definition get_world : M world := fun w => (Ok w, w).

(** [import_object_parameter['data_object'][name] = val] *)
Definition set_data_object (param : import_object_parameter) (name : string)
    (val : json) : import_object_parameter :=
  {| class_name := class_name param; uuid := uuid param;
     data_object := dict_set (data_object param) name val;
     vector := vector param |}.

(** [vector = obj.get('vector')], kept only when it is not [None]. *)
Definition not_none (v : json) : option json :=
  match v with
  | JNull => None
  | _ => Some v
  end.

Module ValidateAndSplitData.

(** [__init__]: the schema is dissected, the two lists start empty. *)
Definition __init__ (schema : json) : M schema_definition :=
  sd ← lift (dissect_schema schema);
  reset_lists;;
  mret sd.

(** The body of the loop over the object's properties. *)
Definition _validate_obj_step (schema_definition : class_definition)
    (obj_class_name object_id : json) (param : import_object_parameter)
    (item : string * json) : M import_object_parameter :=
  let '(obj_property_name, obj_property_val) := item in
  if str_in obj_property_name (primitive schema_definition) then
    mret (set_data_object param obj_property_name obj_property_val)
  else if str_in obj_property_name (ref schema_definition) then
    ref_parameters ← lift (dissect_reference obj_property_val obj_class_name
                                             object_id obj_property_name);
    extend_data_references ref_parameters;;
    mret param
  else
    _exit_validation_failed
      [Lit "Property "; Str (JStr obj_property_name); Lit " of class ";
       Str obj_class_name; Lit " not in schema!"].

Definition _validate_obj (schema : schema_definition) (obj : json) : M unit :=
  obj_class_name ← lift (py_get obj "class" JNull);
  schema_definition ← lift (pydict_get schema obj_class_name);
  object_id ← lift (py_get obj "id" JNull);
  match schema_definition with
  | None =>
      _exit_validation_failed
        [Lit "Class "; Str obj_class_name; Lit " not in schema!"]
  | Some cd =>
      vector ← lift (py_get obj "vector" JNull);
      properties ← lift (py_get obj "properties" (JObj []));
      items ← lift (py_items properties);
      param ← for_each (_validate_obj_step cd obj_class_name object_id) items
                {| class_name := obj_class_name; uuid := object_id;
                   data_object := []; vector := not_none vector |};
      append_data_object param
  end.

Definition validate_and_split (data : json) (schema : schema_definition)
  : M unit :=
  classes ← lift (py_get data "classes" (JArr []));
  objs ← lift (py_iter classes);
  for_each (fun _ obj => _validate_obj schema obj) objs tt.

End ValidateAndSplitData.

(** ** The client

    What the remote service answers.  [schema_get] is what
    [client.schema.get()] returns or raises, and likewise for the other
    schema calls.  [batch_callbacks] gives, for the calls made so far
    (the last one being the current [add_data_object], [add_reference] or
    [flush]), the result lists that the batcher passes to the callback during
    that call, in order. *)
Record weaviate_client : Type := {
  schema_get : outcome json;
  schema_delete_all : outcome unit;
  schema_create : json -> outcome unit;
  batch_callbacks : list event -> list json
}.

(** What [open(data_path)] followed by [json.load] finds. *)
Inductive data_file : Type :=
| Unreadable
| NotJson
| Json (doc : json).

Module DataFileImporter.

(** [__init__]: the batcher is configured, then the file is loaded. *)
Definition __init__ (file : data_file) : M json :=
  emit (EvBatchConfigure 512);;
  match file with
  | Unreadable => lift (Raise OSError)
  | NotJson => lift (Raise JSONDecodeError)
  | Json doc => mret doc
  end.

(** The body of the loop of [_exit_on_error]. *)
Definition _exit_on_error_step (fail_on_error : bool) (_ : unit) (entry : json)
  : M unit :=
  result ← lift (py_get entry "result" (JObj []));
  error ← lift (py_get result "errors" JNull);
  match error with
  | JNull => mret tt
  | _ =>
      print [[Str error]];;
      if fail_on_error then sys_exit 1 else mret tt
  end.

Definition _exit_on_error (fail_on_error : bool) (batch_results : json)
  : M unit :=
  entries ← lift (py_iter batch_results);
  for_each (_exit_on_error_step fail_on_error) entries tt.

(** The batcher runs the callback on the results of each batch it
    submitted, one after the other. *)
Definition run_callbacks (fail_on_error : bool) (batches : list json) : M unit :=
  for_each (fun _ batch_results => _exit_on_error fail_on_error batch_results)
    batches tt.

(** A call to the batcher: the call is made, and the callback runs on the
    batches submitted meanwhile. *)
Definition batcher_call (client : weaviate_client) (fail_on_error : bool)
    (call : event) : M unit :=
  emit call;;
  w ← get_world;
  run_callbacks fail_on_error (batch_callbacks client (trace w)).

Definition load (client : weaviate_client) (fail_on_error : bool) (data : json)
  : M unit :=
  emit EvSchemaGet;;
  schema ← lift (schema_get client);
  print [[Lit "Validating data"]];;
  vasd_schema ← ValidateAndSplitData.__init__ schema;
  ValidateAndSplitData.validate_and_split data vasd_schema;;
  print [[Lit "Importing data"]];;
  w ← get_world;
  for_each (fun _ obj => batcher_call client fail_on_error (EvAddDataObject obj))
    (data_objects w) tt;;
  for_each (fun _ r => batcher_call client fail_on_error (EvAddReference r))
    (data_references w) tt;;
  batcher_call client fail_on_error EvFlush.

End DataFileImporter.

Definition import_data_from_file (client : weaviate_client) (file : data_file)
    (fail_on_error : bool) : M unit :=
  data ← DataFileImporter.__init__ file;
  DataFileImporter.load client fail_on_error data.

(** ** Bulk delete *)

Definition _delete_all (client : weaviate_client) : M unit :=
  emit EvSchemaGet;;
  schema ← lift (schema_get client);
  emit EvSchemaDeleteAll;;
  lift (schema_delete_all client);;
  emit (EvSchemaCreate schema);;
  lift (schema_create client schema).

(** Modelled from the spec: [is_question_answer_yes] of [semi.prompt] is not
    among the sources.  It is the interactive confirmation prompt: the
    question is put to the user and [answer] tells whether the reply is yes. *)
Definition is_question_answer_yes (answer : string -> bool) (question : string)
  : M bool :=
  emit (EvPrompt question);;
  mret (answer question).

Definition delete_all_data (client : weaviate_client) (answer : string -> bool)
    (force : bool) : M unit :=
  if force then
    _delete_all client;;
    sys_exit 0
  else
    yes ← is_question_answer_yes answer "Do you really want to delete all data?";
    if negb yes then sys_exit 0
    else _delete_all client.

(** ** Vocabulary of the statements *)

(** Does the character occur in the string? *)
Fixpoint string_mem (c : ascii) (s : string) : bool :=
  match s with
  | EmptyString => false
  | String c' rest => Ascii.eqb c' c || string_mem c rest
  end.

(** [beacon.split('/')[-1]] *)
Definition last_segment (beacon : string) : string :=
  List.last (split "/"%char beacon) EmptyString.

(** The record [dissect_reference] builds for one target. *)
Definition reference_to (from_class from_id : json) (from_prop target : string)
  : reference_parameters :=
  {| from_object_uuid := from_id;
     from_object_class_name := from_class;
     from_property_name := from_prop;
     to_object_uuid := target |}.

(** A reference descriptor: a dict whose ['beacon'], when present, is a
    string. *)
Definition is_descriptor (r : json) : bool :=
  match r with
  | JObj kvs =>
      match dict_get kvs "beacon" with
      | None | Some (JStr _) => true
      | Some _ => false
      end
  | _ => false
  end.

(** [ref.get('beacon', 'e')] on a descriptor. *)
Definition beacon_or_default (r : json) : string :=
  match r with
  | JObj kvs =>
      match dict_get kvs "beacon" with
      | Some (JStr b) => b
      | _ => "e"
      end
  | _ => "e"
  end.

(** The fields of a raw object as [_validate_obj] reads them. *)
Definition obj_field (obj : json) (k : string) : json :=
  match obj with
  | JObj kvs => default JNull (dict_get kvs k)
  | _ => JNull
  end.

Definition obj_class (obj : json) : json := obj_field obj "class".
Definition obj_id (obj : json) : json := obj_field obj "id".
Definition obj_vector (obj : json) : json := obj_field obj "vector".

Definition obj_properties (obj : json) : list (string * json) :=
  match obj with
  | JObj kvs =>
      match dict_get kvs "properties" with
      | Some (JObj props) => props
      | _ => []
      end
  | _ => []
  end.

(** The branch [_validate_obj] takes for a property. *)
Definition known_primitive (cd : class_definition) (kv : string * json) : bool :=
  str_in (fst kv) (primitive cd).

Definition known_reference (cd : class_definition) (kv : string * json) : bool :=
  negb (str_in (fst kv) (primitive cd)) && str_in (fst kv) (ref cd).

Definition in_reference_set (cd : class_definition) (kv : string * json) : bool :=
  str_in (fst kv) (ref cd).

(** The number of descriptors in a property value. *)
Definition descriptor_count (v : json) : nat :=
  match py_iter v with
  | Ok l => length l
  | _ => 0
  end.

Definition unknown_class (sd : schema_definition) (obj : json) : Prop :=
  pydict_lookup sd (obj_class obj) = None.

Definition unknown_property (sd : schema_definition) (obj : json)
    (name : string) : Prop :=
  exists cd v,
    pydict_lookup sd (obj_class obj) = Some cd /\
    In (name, v) (obj_properties obj) /\
    str_in name (primitive cd) = false /\
    str_in name (ref cd) = false.

Definition class_reason (obj_class_name : json) : message :=
  [Lit "Class "; Str obj_class_name; Lit " not in schema!"].

Definition property_reason (name : string) (obj_class_name : json) : message :=
  [Lit "Property "; Str (JStr name); Lit " of class "; Str obj_class_name;
   Lit " not in schema!"].

Definition validation_failed (reason : message) : event :=
  EvPrint [[Lit "Error validation failed:"]; reason].

(** A raw object of the input document, read against a schema definition:
    a dict with a hashable class name, whose properties, if any, form a
    dict in which every reference-valued property holds a list of
    descriptors. *)
Definition reference_value_ok (v : json) : bool :=
  match v with
  | JArr refs => forallb is_descriptor refs
  | _ => false
  end.

Definition property_ok (cd : class_definition) (kv : string * json) : bool :=
  implb (known_reference cd kv) (reference_value_ok (snd kv)).

Definition raw_object_ok (sd : schema_definition) (obj : json) : bool :=
  match obj with
  | JObj kvs =>
      hashable (obj_class obj) &&
      match dict_get kvs "properties" with
      | None | Some (JObj _) => true
      | Some _ => false
      end &&
      match pydict_lookup sd (obj_class obj) with
      | None => true
      | Some cd => forallb (property_ok cd) (obj_properties obj)
      end
  | _ => false
  end.

(** The record [_validate_obj] starts from, before the properties are read. *)
Definition initial_parameter (obj : json) : import_object_parameter :=
  {| class_name := obj_class obj; uuid := obj_id obj; data_object := [];
     vector := not_none (obj_vector obj) |}.

(** The pass of [_validate_obj] over the properties of a known class. *)
Definition validate_properties (cd : class_definition) (obj : json)
  : M import_object_parameter :=
  for_each (ValidateAndSplitData._validate_obj_step cd (obj_class obj) (obj_id obj))
           (obj_properties obj) (initial_parameter obj).

(** ** Vocabulary for the batch results *)

Definition is_null (v : json) : bool :=
  match v with
  | JNull => true
  | _ => false
  end.

(** The errors field of a result entry, [JNull] when the entry has no
    result or the result no errors; [None] when the entry is not a dict or
    its result is not one. *)
Definition entry_error (entry : json) : option json :=
  match entry with
  | JObj kvs =>
      match dict_get kvs "result" with
      | None => Some JNull
      | Some (JObj result) => Some (default JNull (dict_get result "errors"))
      | Some _ => None
      end
  | _ => None
  end.

Definition entry_ok (entry : json) : bool :=
  match entry_error entry with
  | Some _ => true
  | None => false
  end.

(** The non-null errors of a list of entries, in order. *)
Definition reported_errors (entries : list json) : list json :=
  List.filter (fun e => negb (is_null e))
              (map (fun entry => default JNull (entry_error entry)) entries).

(** A batch-result list all of whose entries are dicts with a dict result. *)
Definition batch_ok (batch_results : json) : bool :=
  match batch_results with
  | JArr entries => forallb entry_ok entries
  | _ => false
  end.

Definition batch_errors (batch_results : json) : list json :=
  match batch_results with
  | JArr entries => reported_errors entries
  | _ => []
  end.

(** [print(error)] *)
Definition report (error : json) : event := EvPrint [[Str error]].

(** The world after more events. *)
Definition log_all (w : world) (evs : list event) : world :=
  {| trace := trace w ++ evs;
     data_objects := data_objects w;
     data_references := data_references w |}.

(** ** Vocabulary for the import run *)

(** The calls that send data to the write service. *)
Definition is_write (ev : event) : bool :=
  match ev with
  | EvAddDataObject _ | EvAddReference _ | EvFlush => true
  | _ => false
  end.

(** The run from its start to the return of [vasd.validate_and_split()]. *)
Definition validation_phase (client : weaviate_client) (file : data_file)
  : M unit :=
  data ← DataFileImporter.__init__ file;
  emit EvSchemaGet;;
  schema ← lift (schema_get client);
  print [[Lit "Validating data"]];;
  vasd_schema ← ValidateAndSplitData.__init__ schema;
  ValidateAndSplitData.validate_and_split data vasd_schema.

(** The rest of [load]. *)
Definition upload_phase (client : weaviate_client) (fail_on_error : bool)
  : M unit :=
  print [[Lit "Importing data"]];;
  w ← get_world;
  for_each (fun _ obj =>
              DataFileImporter.batcher_call client fail_on_error (EvAddDataObject obj))
    (data_objects w) tt;;
  for_each (fun _ r =>
              DataFileImporter.batcher_call client fail_on_error (EvAddReference r))
    (data_references w) tt;;
  DataFileImporter.batcher_call client fail_on_error EvFlush.

(** The write calls a complete upload makes, in order. *)
Definition expected_writes (w : world) : list event :=
  map EvAddDataObject (data_objects w) ++
  map EvAddReference (data_references w) ++ [EvFlush].

(** A computation is quiet when it makes no write call. *)
Definition quiet {A} (m : M A) : Prop :=
  forall w o w',
    m w = (o, w') ->
    exists t, trace w' = trace w ++ t /\ Forall (fun ev => is_write ev = false) t.

(** The events before validation starts. *)
Definition validation_start : list event :=
  [EvBatchConfigure 512; EvSchemaGet; EvPrint [[Lit "Validating data"]]].

(** ** Vocabulary for bulk delete *)

Definition is_schema_call (ev : event) : bool :=
  match ev with
  | EvSchemaGet | EvSchemaDeleteAll | EvSchemaCreate _ => true
  | _ => false
  end.

Definition delete_question : string := "Do you really want to delete all data?".
(** ** Concrete documents used in the examples *)

Definition schema_doc_example : json :=
  JObj [("classes", JArr [
    JObj [("class", JStr "Doc");
          ("properties", JArr [
             JObj [("name", JStr "title"); ("dataType", JArr [JStr "text"])];
             JObj [("name", JStr "refs"); ("dataType", JArr [JStr "Doc"])]])]])].

Definition schema_view_example : list class_view :=
  [("Doc", [("title", "text"); ("refs", "Doc")])].


Definition data_doc_example : json :=
  JObj [("classes", JArr [
    JObj [("class", JStr "Doc"); ("id", JStr "x1");
          ("properties", JObj [
             ("title", JStr "hi");
             ("refs", JArr [JObj [("beacon", JStr "scheme://host/Doc/y1")]])])]])].

Definition quiet_client : weaviate_client :=
  {| schema_get := Ok schema_doc_example;
     schema_delete_all := Ok tt;
     schema_create := fun _ => Ok tt;
     batch_callbacks := fun _ => [] |}.

Definition schema_definition_example : schema_definition :=
  [(JStr "Doc", {| primitive := [JStr "title"]; ref := [JStr "refs"] |})].

Definition raw_object_example : json :=
  JObj [("class", JStr "Doc"); ("id", JStr "x1");
        ("properties", JObj [
           ("title", JStr "hi");
           ("refs", JArr [JObj [("beacon", JStr "scheme://host/Doc/y1")]])])].

Definition object_record_example : import_object_parameter :=
  {| class_name := JStr "Doc"; uuid := JStr "x1";
     data_object := [("title", JStr "hi")]; vector := None |}.

Definition reference_record_example : reference_parameters :=
  reference_to (JStr "Doc") (JStr "x1") "refs" "y1".

Definition unknown_class_object_example : json :=
  JObj [("class", JStr "Nope"); ("id", JStr "x2")].

Definition entry_success_example : json :=
  JObj [("result", JObj [("status", JStr "SUCCESS")])].

Definition entry_failure_example : json :=
  JObj [("result", JObj [("errors", JObj [("error", JArr [JStr "boom"])])])].

Definition entry_failure_error : json := JObj [("error", JArr [JStr "boom"])].

Definition duplicate_property_doc : json :=
  JObj [("classes", JArr [
    JObj [("class", JStr "Doc");
          ("properties", JArr [
             JObj [("name", JStr "a"); ("dataType", JArr [JStr "text"])];
             JObj [("name", JStr "a"); ("dataType", JArr [JStr "Doc"])]])]])].

Definition duplicate_class_doc : json :=
  JObj [("classes", JArr [
    JObj [("class", JStr "Doc");
          ("properties", JArr [
             JObj [("name", JStr "title"); ("dataType", JArr [JStr "text"])]])];
    JObj [("class", JStr "Doc");
          ("properties", JArr [
             JObj [("name", JStr "refs"); ("dataType", JArr [JStr "Doc"])]])]])].

(** A client whose batcher reports one failed entry after every call. *)
Definition failing_client : weaviate_client :=
  {| schema_get := Ok schema_doc_example;
     schema_delete_all := Ok tt;
     schema_create := fun _ => Ok tt;
     batch_callbacks := fun _ => [JArr [entry_failure_example]] |}.

(** The definition derived from [duplicate_property_doc], and an object of
    its class. *)
Definition overlap_definition : schema_definition :=
  [(JStr "Doc", {| primitive := [JStr "a"]; ref := [JStr "a"] |})].

Definition overlap_object : json :=
  JObj [("class", JStr "Doc"); ("id", JStr "x1");
        ("properties", JObj [
           ("a", JArr [JObj [("beacon", JStr "scheme://host/Doc/y1")]])])].

(** * Further vocabulary *)

(** The last class of a typed schema reading that carries a given name. *)
Definition last_class (tcs : list class_view) (cn : string)
  : option (list property_view) :=
  dict_get (rev tcs) cn.

(** A property descriptor whose ['dataType'] is a bare string. *)
Definition bare_tag_property (name : json) (tag : string) : json :=
  JObj [("name", name); ("dataType", JStr tag)].

(** All the bytes of a string are continuation bytes. *)
Fixpoint all_continuation (s : string) : bool :=
  match s with
  | EmptyString => true
  | String c rest => is_continuation c && all_continuation rest
  end.

(** The objects of an input document, as [validate_and_split] iterates
    them: [self.data.get("classes", [])]. *)
Definition document_objects (data : json) : list json :=
  match py_get data "classes" (JArr []) ≫= py_iter with
  | Ok l => l
  | _ => []
  end.

(** A document with the given objects. *)
Definition document_of (objs : list json) : json :=
  JObj [("classes", JArr objs)].

Definition is_prompt (ev : event) : bool :=
  match ev with
  | EvPrompt _ => true
  | _ => false
  end.

(** * Export: [export_class] *)

(** [len(v)] *)
Definition py_len (v : json) : outcome nat :=
  match v with
  | JArr l => Ok (length l)
  | JStr s => Ok (length (utf8_chars s))
  | JObj kvs => Ok (length kvs)
  | _ => Raise TypeError
  end.

(** [v[-1]] *)
Definition py_getitem_last (v : json) : outcome json :=
  match v with
  | JArr [] => Raise IndexError
  | JArr (x :: rest) => Ok (List.last rest x)
  | JStr s =>
      match utf8_chars s with
      | [] => Raise IndexError
      | c :: rest => Ok (JStr (List.last rest c))
      end
  | JObj _ => Raise KeyError
  | _ => Raise TypeError
  end.

(** [d[k]] for a dict [d] of a parsed document and any key [k]: the keys of
    [d] are strings, so another hashable key is a [KeyError] and an
    unhashable one a [TypeError].  It is applied to an entity only after
    [entity["_additional"]] has returned, that is to a dict. *)
Definition py_getitem_key (d k : json) : outcome json :=
  match d with
  | JObj kvs =>
      match k with
      | JStr s =>
          match dict_get kvs s with
          | Some x => Ok x
          | None => Raise KeyError
          end
      | JArr _ | JObj _ => Raise TypeError
      | _ => Raise KeyError
      end
  | _ => Raise TypeError
  end.

(** What the query builder is asked: the class and properties of
    [client.query.get], the list given to [with_additional], the limit, and
    the cursor given to [with_after] when there is one. *)
Record query_request : Type := {
  q_class_name : string;
  q_properties : list json;
  q_additional : list string;
  q_limit : Z;
  q_after : option json
}.

(** The service as the export sees it: what [client.schema.get(class_name)]
    returns or raises, and what building and running a query does. *)
Record query_client : Type := {
  class_schema_get : string -> outcome json;
  query_do : query_request -> outcome json
}.

Inductive export_call : Type :=
| CallSchemaGet (class_name : string)
| CallQuery (request : query_request).

(** The dict built per entity; the ['vector'] key exists only when vectors
    are included. *)
Record exported_entity : Type := {
  ex_class : string;
  ex_id : json;
  ex_properties : pydict json;
  ex_vector : option json
}.

(** [[prop.get('name') for prop in class_schema.get('properties')]] *)
Definition class_property_names (class_schema : json) : outcome (list json) :=
  properties ← py_get class_schema "properties" JNull;
  props ← py_iter properties;
  for_each (fun names prop => name ← py_get prop "name" JNull; Ok (names ++ [name]))
           props [].

Definition batch_request (class_name : string) (class_properties : list json)
    (batch_size : Z) (include_vectors : bool) (cursor : json) : query_request :=
  {| q_class_name := class_name;
     q_properties := class_properties;
     q_additional := ["id"; if include_vectors then "vector" else ""];
     q_limit := batch_size;
     q_after := not_none cursor |}.

Definition _get_batch_with_cursor (client : query_client) (class_name : string)
    (class_properties : list json) (batch_size : Z) (include_vectors : bool)
    (cursor : json) : outcome json :=
  query_do client
    (batch_request class_name class_properties batch_size include_vectors cursor).

(** [next_results["data"]["Get"][class_name]] *)
Definition page_of (next_results : json) (class_name : string) : outcome json :=
  data ← py_getitem next_results "data";
  get ← py_getitem data "Get";
  py_getitem get class_name.

(** [{prop: entity[prop] for prop in class_properties}] *)
Definition entity_properties (class_properties : list json) (entity : json)
  : outcome (pydict json) :=
  for_each (fun d prop => value ← py_getitem_key entity prop;
                          pydict_setitem d prop value)
           class_properties [].

(** The dict display of [formatted_entity], then the vector. *)
Definition format_entity (class_name : string) (class_properties : list json)
    (include_vectors : bool) (entity : json) : outcome exported_entity :=
  additional ← py_getitem entity "_additional";
  id ← py_getitem additional "id";
  properties ← entity_properties class_properties entity;
  if include_vectors then
    additional' ← py_getitem entity "_additional";
    vector ← py_getitem additional' "vector";
    Ok {| ex_class := class_name; ex_id := id; ex_properties := properties;
          ex_vector := Some vector |}
  else
    Ok {| ex_class := class_name; ex_id := id; ex_properties := properties;
          ex_vector := None |}.

(** The loop over the entities of a page, appending to [results]. *)
Definition format_page (class_name : string) (class_properties : list json)
    (include_vectors : bool) (entities : list json)
    (results : list exported_entity) : outcome (list exported_entity) :=
  for_each (fun results entity =>
              formatted ← format_entity class_name class_properties
                                        include_vectors entity;
              Ok (results ++ [formatted]))
           entities results.

(** [entities[-1]["_additional"]["id"]] *)
Definition last_id (page : json) : outcome json :=
  last_entity ← py_getitem_last page;
  additional ← py_getitem last_entity "_additional";
  py_getitem additional "id".

(** One turn of the [while True] loop: [inl] when it breaks, [inr] with the
    next cursor otherwise. *)
Definition export_turn (client : query_client) (class_name : string)
    (class_properties : list json) (batch_size : Z) (include_vectors : bool)
    (cursor : json) (results : list exported_entity)
  : outcome (list exported_entity + json * list exported_entity) :=
  next_results ← _get_batch_with_cursor client class_name class_properties
                   batch_size include_vectors cursor;
  page ← page_of next_results class_name;
  n ← py_len page;
  if Nat.eqb n 0 then Ok (inl results)
  else
    entities ← page_of next_results class_name;
    entity_list ← py_iter entities;
    results' ← format_page class_name class_properties include_vectors
                 entity_list results;
    page' ← page_of next_results class_name;
    cursor' ← last_id page';
    Ok (inr (cursor', results')).

(** The loop, with a bound on the number of turns: [None] when the bound is
    reached before the loop ends. *)
Fixpoint export_loop (client : query_client) (class_name : string)
    (class_properties : list json) (batch_size : Z) (include_vectors : bool)
    (fuel : nat) (cursor : json) (results : list exported_entity)
    (calls : list export_call)
  : option (outcome (list exported_entity) * list export_call) :=
  match fuel with
  | O => None
  | S fuel' =>
      let calls' :=
        calls ++ [CallQuery (batch_request class_name class_properties batch_size
                                           include_vectors cursor)] in
      match export_turn client class_name class_properties batch_size
                        include_vectors cursor results with
      | Ok (inl results') => Some (Ok results', calls')
      | Ok (inr (cursor', results')) =>
          export_loop client class_name class_properties batch_size
                      include_vectors fuel' cursor' results' calls'
      | Exit c => Some (Exit c, calls')
      | Raise e => Some (Raise e, calls')
      end
  end.

Definition export_class (client : query_client) (class_name : string)
    (batch_size : Z) (include_vectors fail_on_error : bool) (fuel : nat)
  : option (outcome (list exported_entity) * list export_call) :=
  match class_schema ← class_schema_get client class_name;
        class_property_names class_schema with
  | Ok class_properties =>
      export_loop client class_name class_properties batch_size include_vectors
                  fuel JNull [] [CallSchemaGet class_name]
  | Exit c => Some (Exit c, [CallSchemaGet class_name])
  | Raise e => Some (Raise e, [CallSchemaGet class_name])
  end.

(** A service that answers the request after [cursor] with the first of
    [pages], the one after the last id of that page with the second, and so
    on, and with an empty page at the end. *)
Fixpoint paged (client : query_client) (request_for : json -> query_request)
    (class_name : string) (cursor : json) (pages : list (list json)) : Prop :=
  match pages with
  | [] =>
      exists response,
        query_do client (request_for cursor) = Ok response /\
        page_of response class_name = Ok (JArr [])
  | entities :: rest =>
      entities <> [] /\
      exists response next,
        query_do client (request_for cursor) = Ok response /\
        page_of response class_name = Ok (JArr entities) /\
        last_id (JArr entities) = Ok next /\
        paged client request_for class_name next rest
  end.

(** The cursors of the requests for such pages. *)
Fixpoint page_cursors (cursor : json) (pages : list (list json)) : list json :=
  match pages with
  | [] => [cursor]
  | entities :: rest =>
      cursor :: page_cursors (match last_id (JArr entities) with
                              | Ok next => next
                              | _ => JNull
                              end) rest
  end.

(** * The defects of a schema document

    What makes [dissect_schema] raise, read off a document: the exception
    of the first defect in document order, a class's properties coming
    before its name. *)

(** The elements a [for] loop visits in an iterable value. *)
Definition elements (v : json) : list json :=
  match py_iter v with
  | Ok l => l
  | _ => []
  end.

Fixpoint first_defect {A} (defect : A -> option exn) (l : list A) : option exn :=
  match l with
  | [] => None
  | x :: rest =>
      match defect x with
      | Some e => Some e
      | None => first_defect defect rest
      end
  end.

(** A ['dataType'] without a first element. *)
Definition tag_defect (data_type : json) : option exn :=
  match data_type with
  | JArr [] | JStr EmptyString => Some IndexError
  | JArr (_ :: _) | JStr (String _ _) => None
  | JObj _ => Some KeyError
  | _ => Some TypeError
  end.

Definition property_defect (p : json) : option exn :=
  match p with
  | JObj kvs =>
      match dict_get kvs "dataType" with
      | None => Some KeyError
      | Some data_type =>
          match tag_defect data_type with
          | Some e => Some e
          | None =>
              match dict_get kvs "name" with
              | None => Some KeyError
              | Some _ => None
              end
          end
      end
  | _ => Some TypeError
  end.

Definition class_defect (c : json) : option exn :=
  match c with
  | JObj kvs =>
      match dict_get kvs "properties" with
      | None => Some KeyError
      | Some properties =>
          match properties with
          | JArr _ | JStr _ | JObj _ =>
              match first_defect property_defect (elements properties) with
              | Some e => Some e
              | None =>
                  match dict_get kvs "class" with
                  | None => Some KeyError
                  | Some name => if hashable name then None else Some TypeError
                  end
              end
          | _ => Some TypeError
          end
      end
  | _ => Some TypeError
  end.

Definition schema_defect (doc : json) : option exn :=
  match doc with
  | JObj kvs =>
      match default (JArr []) (dict_get kvs "classes") with
      | (JArr _ | JStr _ | JObj _) as classes =>
          first_defect class_defect (elements classes)
      | _ => Some TypeError
      end
  | _ => Some AttributeError
  end.

(** * Vocabulary for the end of a run *)

(** A computation that never ends in [sys.exit]. *)
Definition never_exits {A} (m : M A) : Prop :=
  forall w o w', m w = (o, w') -> forall c, o <> Exit c.

(** ** Concrete services used in the export examples *)

Definition web_page_schema : json :=
  JObj [("class", JStr "WebPage");
        ("properties", JArr [JObj [("name", JStr "url")];
                             JObj [("name", JStr "title")]])].

Definition web_page_entity (id url title : string) : json :=
  JObj [("_additional", JObj [("id", JStr id); ("vector", JArr [JInt 1; JInt 2])]);
        ("url", JStr url); ("title", JStr title)].

Definition web_page_response (entities : list json) : json :=
  JObj [("data", JObj [("Get", JObj [("WebPage", JArr entities)])])].

(** A service with two pages: one entity after no cursor, one after the
    first id, nothing after the second. *)
Definition two_page_client : query_client :=
  {| class_schema_get := fun _ => Ok web_page_schema;
     query_do := fun request =>
       match q_after request with
       | None => Ok (web_page_response [web_page_entity "id1" "u1" "t1"])
       | Some (JStr "id1") => Ok (web_page_response [web_page_entity "id2" "u2" "t2"])
       | Some _ => Ok (web_page_response [])
       end |}.

(** A service that answers every request with the same page. *)
Definition repeating_client : query_client :=
  {| class_schema_get := fun _ => Ok web_page_schema;
     query_do := fun _ => Ok (web_page_response [web_page_entity "id1" "u1" "t1"]) |}.

(** An input document with one known object followed by one of an unknown
    class. *)
Definition doomed_doc_example : json :=
  JObj [("classes", JArr [raw_object_example; unknown_class_object_example])].
(** * Proofs *)

(** ** Generic facts *)

Lemma bind_Ok {A B} (m : outcome A) (f : A -> outcome B) b :
  m ≫= f = Ok b <-> exists a, m = Ok a /\ f a = Ok b.
Proof.
  destruct m; simpl; split; intros H; try discriminate; eauto.
  - destruct H as (a' & [= ->] & H). exact H.
  - destruct H as (a' & H & _). discriminate.
  - destruct H as (a' & H & _). discriminate.
Qed.

Lemma for_each_app {A B} (body : B -> A -> outcome B) l1 l2 acc :
  for_each body (l1 ++ l2) acc = for_each body l1 acc ≫= for_each body l2.
Proof.
  revert acc. induction l1 as [|x l1 IH]; intros acc; simpl; [reflexivity|].
  destruct (body acc x); simpl; auto.
Qed.

Lemma key_eqb_str_l s k : key_eqb (JStr s) k = true <-> k = JStr s.
Proof.
  destruct k; simpl; split; intros H; try discriminate; try congruence.
  - apply String.eqb_eq in H. congruence.
  - injection H as ->. apply String.eqb_refl.
Qed.

Lemma str_in_map_JStr {A} (f : A -> string) n (l : list A) :
  str_in n (map (fun p => JStr (f p)) l) = true <-> In n (map f l).
Proof.
  unfold str_in. rewrite existsb_exists. split.
  - intros (v & Hv & E). apply in_map_iff in Hv as (p & <- & Hp).
    apply String.eqb_eq in E as ->. apply in_map. exact Hp.
  - intros Hn. apply in_map_iff in Hn as (p & <- & Hp).
    exists (JStr (f p)). split; [|apply String.eqb_refl].
    apply in_map_iff. eauto.
Qed.

Lemma NoDup_fst_functional {A B} (l : list (A * B)) a b b' :
  List.NoDup (map fst l) -> In (a, b) l -> In (a, b') l -> b = b'.
Proof.
  induction l as [|[x y] l IH]; simpl; [tauto|].
  intros Hnd. apply NoDup_cons_iff in Hnd as [Hx Hnd].
  intros [E1|H1] [E2|H2]; try congruence; auto.
  - injection E1 as -> ->. exfalso. apply Hx.
    change a with (fst (a, b')). apply in_map. exact H2.
  - injection E2 as -> ->. exfalso. apply Hx.
    change a with (fst (a, b)). apply in_map. exact H1.
Qed.

(** ** The schema index on documents of the expected shape *)

Lemma view_property_step p tp acc :
  view_property p = Some tp ->
  _get_schema_properties_step acc p =
    Ok (if primitive_tag (snd tp)
        then (fst acc ++ [JStr (fst tp)], snd acc)
        else (fst acc, snd acc ++ [JStr (fst tp)])).
Proof.
  destruct acc as [a b]. unfold view_property, _get_schema_properties_step.
  destruct p as [| | | | |?|kvs]; try discriminate.
  unfold py_getitem.
  destruct (dict_get kvs "name") as [[| | | |n| |]|]; try discriminate.
  destruct (dict_get kvs "dataType") as [[| | | | |[|[| | | |t| |] ?]|]|];
    try discriminate.
  intros [= <-]. simpl. unfold primitive_tag.
  destruct (is_primitive_prop (JStr t)); reflexivity.
Qed.

Lemma get_schema_properties_view ps tps a b :
  mapM view_property ps = Some tps ->
  for_each _get_schema_properties_step ps (a, b) =
    Ok (a ++ primitive_names tps, b ++ reference_names tps).
Proof.
  rewrite mapM_Some. intros H. revert a b.
  induction H as [|p tp ps tps Hp _ IH]; intros a b.
  - unfold primitive_names, reference_names. simpl. now rewrite !app_nil_r.
  - cbn [for_each]. rewrite (view_property_step _ _ _ Hp).
    unfold primitive_names, reference_names in *.
    cbn [List.filter map fst snd mbind outcome_bind].
    destruct (primitive_tag (snd tp)); cbn [negb map fst snd]; rewrite IH;
      now rewrite <- ?app_assoc.
Qed.

Lemma view_class_step c tc d :
  view_class c = Some tc -> dissect_schema_step d c = Ok (add_class d tc).
Proof.
  unfold view_class, dissect_schema_step, add_class.
  destruct c as [| | | | |?|kvs]; try discriminate.
  unfold py_getitem.
  destruct (dict_get kvs "class") as [[| | | |cn| |]|]; try discriminate.
  destruct (dict_get kvs "properties") as [[| | | | |ps|]|]; try discriminate.
  destruct (mapM view_property ps) as [tps|] eqn:Hps; try discriminate.
  intros [= <-]. simpl. unfold _get_schema_properties. simpl.
  rewrite (get_schema_properties_view _ _ _ _ Hps). reflexivity.
Qed.

Lemma dissect_classes_view cs tcs d :
  mapM view_class cs = Some tcs ->
  for_each dissect_schema_step cs d = Ok (fold_left add_class tcs d).
Proof.
  rewrite mapM_Some. intros H. revert d.
  induction H as [|c tc cs tcs Hc _ IH]; intros d; cbn [for_each fold_left];
    [reflexivity|].
  rewrite (view_class_step _ _ _ Hc). apply IH.
Qed.

Lemma dissect_schema_view doc tcs :
  view_schema doc = Some tcs ->
  dissect_schema doc = Ok (fold_left add_class tcs []).
Proof.
  unfold view_schema, dissect_schema.
  destruct doc as [| | | | |?|kvs]; try discriminate. simpl.
  destruct (dict_get kvs "classes") as [[| | | | |cs|]|]; try discriminate; simpl.
  - apply dissect_classes_view.
  - intros [= <-]. reflexivity.
Qed.

Lemma pydict_lookup_set_str {V} (d : pydict V) a b v :
  pydict_lookup (pydict_set d (JStr a) v) (JStr b) =
    if String.eqb b a then Some v else pydict_lookup d (JStr b).
Proof.
  induction d as [|[k w] d IH]; cbn [pydict_set pydict_lookup].
  - cbn [key_eqb]. reflexivity.
  - destruct (key_eqb (JStr a) k) eqn:Ea; cbn [pydict_lookup].
    + apply key_eqb_str_l in Ea as ->. cbn [key_eqb].
      destruct (String.eqb b a); reflexivity.
    + rewrite IH. destruct (key_eqb (JStr b) k) eqn:Eb; [|reflexivity].
      apply key_eqb_str_l in Eb as ->.
      destruct (String.eqb b a) eqn:E; [|reflexivity].
      apply String.eqb_eq in E as ->.
      cbn [key_eqb] in Ea. rewrite String.eqb_refl in Ea. discriminate.
Qed.

Lemma lookup_fold_add_class_other tcs d cn :
  ~ In cn (map fst tcs) ->
  pydict_lookup (fold_left add_class tcs d) (JStr cn) = pydict_lookup d (JStr cn).
Proof.
  revert d. induction tcs as [|[c tps] tcs IH]; intros d Hn; [reflexivity|].
  cbn [fold_left]. rewrite IH by (intros H; apply Hn; right; exact H).
  unfold add_class. cbn [fst snd]. rewrite pydict_lookup_set_str.
  destruct (String.eqb cn c) eqn:E; [|reflexivity].
  apply String.eqb_eq in E as ->. exfalso. apply Hn. left. reflexivity.
Qed.

Lemma lookup_fold_add_class tcs d cn tps :
  List.NoDup (map fst tcs) -> In (cn, tps) tcs ->
  pydict_lookup (fold_left add_class tcs d) (JStr cn) = Some (class_entry tps).
Proof.
  revert d. induction tcs as [|c tcs IH]; intros d Hnd Hin; [destruct Hin|].
  cbn [map] in Hnd. apply NoDup_cons_iff in Hnd as [Hc Hnd].
  cbn [fold_left]. destruct Hin as [->|Hin].
  - rewrite lookup_fold_add_class_other by exact Hc.
    unfold add_class. cbn [fst snd]. rewrite pydict_lookup_set_str.
    now rewrite String.eqb_refl.
  - now apply IH.
Qed.

Lemma class_entry_member tps n t :
  In (n, t) tps ->
  str_in n (if primitive_tag t then primitive (class_entry tps)
            else ref (class_entry tps)) = true.
Proof.
  intros Hin. destruct (primitive_tag t) eqn:Ht;
    cbn [class_entry primitive ref]; unfold primitive_names, reference_names;
    apply str_in_map_JStr; change n with (fst (n, t)); apply in_map;
    apply filter_In; cbn [snd]; rewrite Ht; auto.
Qed.

Lemma class_entry_exclusive tps n :
  List.NoDup (map fst tps) ->
  str_in n (primitive (class_entry tps)) = true ->
  str_in n (ref (class_entry tps)) = true -> False.
Proof.
  intros Hnd. cbn [class_entry primitive ref].
  unfold primitive_names, reference_names. rewrite !str_in_map_JStr.
  intros Hp Hr.
  apply in_map_iff in Hp as ([n1 t1] & E1 & H1). cbn [fst] in E1. subst n1.
  apply in_map_iff in Hr as ([n2 t2] & E2 & H2). cbn [fst] in E2. subst n2.
  apply filter_In in H1 as [H1 Ht1]. apply filter_In in H2 as [H2 Ht2].
  cbn [snd] in Ht1, Ht2.
  rewrite (NoDup_fst_functional _ _ _ _ Hnd H1 H2) in Ht1.
  rewrite Ht1 in Ht2. discriminate.
Qed.

(** C1. For a schema document [doc] that reads as the classes [tcs] with
    distinct class names, the derived definition has an entry for every
    class.  Every property name of the class passes the membership test of
    the primitive list when the first element of its data-type list is one
    of the eight primitive tags, and that of the reference list otherwise;
    and when the property names of the class are distinct, every one of them
    is in exactly one of the two lists. *)
Theorem dissect_schema_partitions (doc : json) (tcs : list class_view) :
  view_schema doc = Some tcs ->
  List.NoDup (map fst tcs) ->
  exists sd,
    dissect_schema doc = Ok sd /\
    forall cn tps, In (cn, tps) tcs ->
      exists cd,
        pydict_lookup sd (JStr cn) = Some cd /\
        (forall n t, In (n, t) tps ->
           str_in n (if existsb (String.eqb t) primitive_tags
                     then primitive cd else ref cd) = true) /\
        (List.NoDup (map fst tps) ->
         forall n, In n (map fst tps) ->
           xorb (str_in n (primitive cd)) (str_in n (ref cd)) = true).
Proof.
  intros Hview Hcls. eexists. split.
  - apply dissect_schema_view. exact Hview.
  - intros cn tps Hin. exists (class_entry tps). split; [|split].
    + now apply lookup_fold_add_class.
    + intros n t Hnt. exact (class_entry_member tps n t Hnt).
    + intros Hnd n Hn. apply in_map_iff in Hn as ([n' t] & E & Hnt).
      cbn [fst] in E. subst n'.
      pose proof (class_entry_member tps n t Hnt) as Hm.
      pose proof (class_entry_exclusive tps n Hnd) as Hx.
      destruct (str_in n (primitive (class_entry tps))) eqn:Hp;
        destruct (str_in n (ref (class_entry tps))) eqn:Hr; try reflexivity.
      * exfalso. now apply Hx.
      * destruct (primitive_tag t); congruence.
Qed.

Lemma dissect_schema_partitions_witness :
  exists sd,
    dissect_schema schema_doc_example = Ok sd /\
    forall cn tps, In (cn, tps) schema_view_example ->
      exists cd,
        pydict_lookup sd (JStr cn) = Some cd /\
        (forall n t, In (n, t) tps ->
           str_in n (if existsb (String.eqb t) primitive_tags
                     then primitive cd else ref cd) = true) /\
        (List.NoDup (map fst tps) ->
         forall n, In n (map fst tps) ->
           xorb (str_in n (primitive cd)) (str_in n (ref cd)) = true).
Proof.
  apply (dissect_schema_partitions schema_doc_example schema_view_example).
  - reflexivity.
  - repeat constructor; simpl; tauto.
Defined.

(** C1 fails as stated: a class with two properties of one name, one
    primitive and one not, has that name in both lists. *)
Lemma dissect_schema_duplicate_property :
  dissect_schema duplicate_property_doc =
    Ok [(JStr "Doc", {| primitive := [JStr "a"]; ref := [JStr "a"] |})] /\
  str_in "a" [JStr "a"] = true.
Proof. split; reflexivity. Qed.

Example dissect_schema_example :
  dissect_schema schema_doc_example =
    Ok [(JStr "Doc", {| primitive := [JStr "title"]; ref := [JStr "refs"] |})].
Proof. reflexivity. Qed.

(** C7 fails as stated: a class descriptor without a ['properties'] entry
    makes the derivation raise. *)
Lemma dissect_schema_raises_without_properties :
  dissect_schema (JObj [("classes", JArr [JObj [("class", JStr "Doc")]])])
    = Raise KeyError.
Proof. reflexivity. Qed.

Example dissect_schema_raises_on_null_properties :
  dissect_schema
    (JObj [("classes", JArr [JObj [("class", JStr "Doc"); ("properties", JNull)]])])
    = Raise TypeError.
Proof. reflexivity. Qed.

Example dissect_schema_raises_on_empty_dataType :
  dissect_schema
    (JObj [("classes", JArr [
       JObj [("class", JStr "Doc");
             ("properties", JArr [
                JObj [("name", JStr "title"); ("dataType", JArr [])]])]])])
    = Raise IndexError.
Proof. reflexivity. Qed.

Example dissect_schema_without_classes :
  dissect_schema (JObj []) = Ok [].
Proof. reflexivity. Qed.

(** ** Splitting a beacon *)

Lemma split_nonempty sep s : split sep s <> [].
Proof.
  destruct s as [|c rest]; cbn [split]; [discriminate|].
  destruct (Ascii.eqb c sep); [discriminate|].
  destruct (split sep rest); discriminate.
Qed.

Lemma split_without_sep sep s : string_mem sep s = false -> split sep s = [s].
Proof.
  induction s as [|c rest IH]; cbn [split string_mem]; [reflexivity|].
  intros H. apply orb_false_elim in H as [Hc Hrest].
  rewrite Hc, (IH Hrest). reflexivity.
Qed.

Lemma split_with_sep sep s :
  string_mem sep s = true -> exists a b l, split sep s = a :: b :: l.
Proof.
  induction s as [|c rest IH]; cbn [split string_mem]; [discriminate|].
  destruct (Ascii.eqb c sep) eqn:Ec; cbn [orb].
  - intros _. destruct (split sep rest) as [|b l] eqn:E.
    + now apply split_nonempty in E.
    + eauto.
  - intros H. destruct (IH H) as (a & b & l & ->). eauto.
Qed.

Lemma last_split_no_sep sep s :
  string_mem sep (List.last (split sep s) EmptyString) = false.
Proof.
  induction s as [|c rest IH]; cbn [split]; [reflexivity|].
  destruct (Ascii.eqb c sep) eqn:Ec.
  - destruct (split sep rest) as [|b l] eqn:E; [now apply split_nonempty in E|].
    exact IH.
  - destruct (split sep rest) as [|b [|b' l]] eqn:E.
    + now apply split_nonempty in E.
    + cbn [List.last] in *. cbn [string_mem]. now rewrite Ec, IH.
    + exact IH.
Qed.

Lemma last_split_suffix sep s :
  string_mem sep s = true ->
  exists p, s = (p ++ String sep (List.last (split sep s) EmptyString))%string.
Proof.
  induction s as [|c rest IH]; cbn [split string_mem]; [discriminate|].
  destruct (Ascii.eqb c sep) eqn:Ec; cbn [orb].
  - intros _. apply Ascii.eqb_eq in Ec as ->.
    destruct (string_mem sep rest) eqn:Hrest.
    + destruct (IH eq_refl) as (p & Hp).
      destruct (split sep rest) as [|b l] eqn:E; [now apply split_nonempty in E|].
      exists (String sep p). cbn [String.append]. f_equal. exact Hp.
    + rewrite (split_without_sep _ _ Hrest). exists EmptyString. reflexivity.
  - intros H. destruct (IH H) as (p & Hp).
    destruct (split_with_sep _ _ H) as (a & b & l & E). rewrite E in *.
    exists (String c p). cbn [String.append]. f_equal. exact Hp.
Qed.

Lemma last_segment_whole b :
  string_mem "/" b = false -> last_segment b = b.
Proof. intros H. unfold last_segment. now rewrite split_without_sep. Qed.

(** ** Reference dissection on descriptors *)

Lemma py_last_split sep s :
  py_last (split sep s) = Ok (List.last (split sep s) EmptyString).
Proof.
  destruct (split sep s) as [|x l] eqn:E; [now apply split_nonempty in E|].
  cbn [py_last]. f_equal. clear E. revert x.
  induction l as [|y l IH]; intros x; [reflexivity|]. cbn [List.last].
  destruct l; [reflexivity|]. apply IH.
Qed.

Lemma dissect_reference_step_descriptor c i p acc r :
  is_descriptor r = true ->
  dissect_reference_step c i p acc r =
    Ok (acc ++ [reference_to c i p (last_segment (beacon_or_default r))]).
Proof.
  unfold is_descriptor, dissect_reference_step, beacon_or_default.
  destruct r as [| | | | |?|kvs]; try discriminate. cbn [py_get].
  destruct (dict_get kvs "beacon") as [[| | | |b| |]|]; try discriminate;
    intros _; unfold default; cbn [from_option id mbind outcome_bind py_split];
    rewrite py_last_split; reflexivity.
Qed.

Lemma dissect_reference_loop_descriptors c i p refs acc :
  forallb is_descriptor refs = true ->
  for_each (dissect_reference_step c i p) refs acc =
    Ok (acc ++ map (fun r => reference_to c i p (last_segment (beacon_or_default r)))
                   refs).
Proof.
  revert acc. induction refs as [|r refs IH]; intros acc; cbn [forallb for_each map].
  - intros _. now rewrite app_nil_r.
  - intros H. apply andb_prop in H as [Hr Hrefs].
    rewrite (dissect_reference_step_descriptor _ _ _ _ _ Hr).
    cbn [mbind outcome_bind]. rewrite (IH _ Hrefs), <- app_assoc. reflexivity.
Qed.

Lemma dissect_reference_descriptors c i p refs :
  forallb is_descriptor refs = true ->
  dissect_reference (JArr refs) c i p =
    Ok (map (fun r => reference_to c i p (last_segment (beacon_or_default r))) refs).
Proof.
  intros H. unfold dissect_reference. cbn [py_iter mbind outcome_bind].
  now rewrite dissect_reference_loop_descriptors.
Qed.

(** C4. Every descriptor with a beacon string yields a record whose source
    id, class and property are the enclosing object's and whose target is
    the last segment of the beacon split on '/': the part of the beacon after
    its last '/', or the whole beacon when it has none. *)
Theorem dissect_reference_targets (refs : list json) (beacons : list string)
    (from_class from_id : json) (from_prop : string) :
  Forall2 (fun r b => exists kvs, r = JObj kvs /\
                                  dict_get kvs "beacon" = Some (JStr b))
          refs beacons ->
  dissect_reference (JArr refs) from_class from_id from_prop =
    Ok (map (fun b => {| from_object_uuid := from_id;
                         from_object_class_name := from_class;
                         from_property_name := from_prop;
                         to_object_uuid := last_segment b |}) beacons) /\
  (forall b, In b beacons ->
     string_mem "/" (last_segment b) = false /\
     if string_mem "/" b
     then exists p, b = (p ++ String "/" (last_segment b))%string
     else last_segment b = b) /\
  last_segment "weaviate://localhost/SomeClass/abc-123" = "abc-123".
Proof.
  intros H. split; [|split; [|reflexivity]].
  - rewrite dissect_reference_descriptors.
    + f_equal. induction H as [|r b refs beacons (kvs & -> & Hb) _ IH];
        cbn [map]; [reflexivity|].
      rewrite IH. unfold beacon_or_default at 1. rewrite Hb. reflexivity.
    + induction H as [|r b refs beacons (kvs & -> & Hb) _ IH];
        cbn [forallb]; [reflexivity|].
      rewrite IH. cbn [is_descriptor]. now rewrite Hb.
  - intros b _. split; [apply last_split_no_sep|].
    destruct (string_mem "/" b) eqn:E.
    + now apply last_split_suffix.
    + now apply last_segment_whole.
Qed.

Lemma dissect_reference_targets_witness :
  dissect_reference
    (JArr [JObj [("beacon", JStr "weaviate://localhost/SomeClass/abc-123")];
           JObj [("beacon", JStr "abc")]])
    (JStr "Doc") (JStr "x1") "refs" =
    Ok [reference_to (JStr "Doc") (JStr "x1") "refs" "abc-123";
        reference_to (JStr "Doc") (JStr "x1") "refs" "abc"].
Proof.
  apply (dissect_reference_targets
           [JObj [("beacon", JStr "weaviate://localhost/SomeClass/abc-123")];
            JObj [("beacon", JStr "abc")]]
           ["weaviate://localhost/SomeClass/abc-123"; "abc"]).
  repeat constructor; eexists; split; reflexivity.
Defined.

(** ** The object validator *)

Import ValidateAndSplitData.

Lemma run_bind {A B} (m : M A) (f : A -> M B) w :
  (m ≫= f) w =
    match m w with
    | (Ok a, w') => f a w'
    | (Exit c, w') => (Exit c, w')
    | (Raise e, w') => (Raise e, w')
    end.
Proof. reflexivity. Qed.

Lemma run_for_each_app {A B} (body : B -> A -> M B) l1 l2 acc w :
  for_each body (l1 ++ l2) acc w =
    match for_each body l1 acc w with
    | (Ok acc', w') => for_each body l2 acc' w'
    | (Exit c, w') => (Exit c, w')
    | (Raise e, w') => (Raise e, w')
    end.
Proof.
  revert acc w. induction l1 as [|x l1 IH]; intros acc w; [reflexivity|].
  cbn [app for_each]. rewrite !run_bind.
  destruct (body acc x w) as [[a| |] w1]; auto.
Qed.

Lemma run_lift_bind {A B} (o : outcome A) (f : A -> M B) w :
  (lift o ≫= f) w =
    match o with
    | Ok a => f a w
    | Exit c => (Exit c, w)
    | Raise e => (Raise e, w)
    end.
Proof. rewrite run_bind. unfold lift. now destruct o. Qed.

Lemma validate_step_primitive cd c i param k v w :
  str_in k (primitive cd) = true ->
  _validate_obj_step cd c i param (k, v) w = (Ok (set_data_object param k v), w).
Proof. intros H. unfold _validate_obj_step. now rewrite H. Qed.

Lemma validate_step_reference cd c i param k v w :
  str_in k (primitive cd) = false -> str_in k (ref cd) = true ->
  _validate_obj_step cd c i param (k, v) w =
    match dissect_reference v c i k with
    | Ok refs => (Ok param, add_references w refs)
    | Exit x => (Exit x, w)
    | Raise e => (Raise e, w)
    end.
Proof.
  intros H1 H2. unfold _validate_obj_step. rewrite H1, H2.
  rewrite run_lift_bind. now destruct (dissect_reference v c i k).
Qed.

Lemma validate_step_unknown cd c i param k v w :
  str_in k (primitive cd) = false -> str_in k (ref cd) = false ->
  _validate_obj_step cd c i param (k, v) w =
    (Exit 1, log w (validation_failed (property_reason k c))).
Proof. intros H1 H2. unfold _validate_obj_step. now rewrite H1, H2. Qed.

Lemma dissect_reference_loop_length c i p l acc recs :
  for_each (dissect_reference_step c i p) l acc = Ok recs ->
  length recs = length acc + length l.
Proof.
  revert acc. induction l as [|r l IH]; intros acc; cbn [for_each].
  - intros [= <-]. cbn [length]. lia.
  - intros H. apply bind_Ok in H as (acc' & Hstep & H).
    apply IH in H. rewrite H. cbn [length].
    unfold dissect_reference_step in Hstep.
    apply bind_Ok in Hstep as (? & _ & Hstep).
    apply bind_Ok in Hstep as (? & _ & Hstep).
    apply bind_Ok in Hstep as (? & _ & [= <-]).
    rewrite length_app. cbn [length]. lia.
Qed.

Lemma dissect_reference_length v c i p recs :
  dissect_reference v c i p = Ok recs -> length recs = descriptor_count v.
Proof.
  unfold dissect_reference, descriptor_count. intros H.
  apply bind_Ok in H as (l & -> & H).
  now apply dissect_reference_loop_length in H.
Qed.

(** What a successful pass over the properties leaves behind. *)
Lemma validate_loop_Ok cd c i items param w param' w' :
  for_each (_validate_obj_step cd c i) items param w = (Ok param', w') ->
  trace w' = trace w /\ data_objects w' = data_objects w /\
  class_name param' = class_name param /\ uuid param' = uuid param /\
  vector param' = vector param /\
  data_object param' =
    fold_left (fun d kv => dict_set d (fst kv) (snd kv))
              (List.filter (known_primitive cd) items) (data_object param) /\
  exists refs,
    data_references w' = data_references w ++ refs /\
    length refs =
      list_sum (map (fun kv => descriptor_count (snd kv))
                    (List.filter (known_reference cd) items)).
Proof.
  revert param w. induction items as [|[k v] items IH]; intros param w.
  - intros [= <- <-]. repeat split; try reflexivity.
    exists []. now rewrite app_nil_r.
  - cbn [for_each List.filter]. rewrite run_bind.
    unfold known_primitive at 1, known_reference at 1. cbn [fst snd].
    destruct (str_in k (primitive cd)) eqn:Hp; cbn [negb andb].
    + rewrite validate_step_primitive by exact Hp. intros H.
      apply IH in H as (? & ? & ? & ? & ? & ? & ?). cbn [fold_left fst snd].
      repeat split; assumption.
    + destruct (str_in k (ref cd)) eqn:Hr.
      * rewrite validate_step_reference by assumption.
        destruct (dissect_reference v c i k) as [refs| |] eqn:Hd;
          try discriminate.
        intros H. apply IH in H as (Ht & Ho & ? & ? & ? & ? & refs' & Hrefs & Hlen).
        repeat split; try assumption.
        exists (refs ++ refs'). split.
        -- rewrite Hrefs. cbn [add_references data_references].
           now rewrite app_assoc.
        -- rewrite length_app, Hlen. cbn [map list_sum fst snd].
           now rewrite (dissect_reference_length _ _ _ _ _ Hd).
      * rewrite validate_step_unknown by assumption. discriminate.
Qed.

(** On properties whose reference values are lists of descriptors the pass
    either succeeds, every name being known, or exits at an unknown name. *)
Lemma validate_loop_cases cd c i items param w :
  forallb (property_ok cd) items = true ->
  (exists param' w',
     for_each (_validate_obj_step cd c i) items param w = (Ok param', w') /\
     Forall (fun kv => str_in (fst kv) (primitive cd) = true \/
                       str_in (fst kv) (ref cd) = true) items) \/
  (exists name v w',
     for_each (_validate_obj_step cd c i) items param w = (Exit 1, w') /\
     In (name, v) items /\
     str_in name (primitive cd) = false /\ str_in name (ref cd) = false /\
     trace w' = trace w ++ [validation_failed (property_reason name c)] /\
     data_objects w' = data_objects w).
Proof.
  revert param w. induction items as [|[k v] items IH]; intros param w Hok.
  - left. exists param, w. split; [reflexivity|constructor].
  - cbn [forallb] in Hok. apply andb_prop in Hok as [Hkv Hok].
    cbn [for_each]. rewrite run_bind.
    destruct (str_in k (primitive cd)) eqn:Hp.
    + rewrite validate_step_primitive by exact Hp.
      destruct (IH (set_data_object param k v) w Hok)
        as [(p' & w' & H & Hall)|(n & v' & w' & H & Hin & ?)].
      * left. exists p', w'. split; [exact H|]. constructor; [left; exact Hp|exact Hall].
      * right. exists n, v', w'. split; [exact H|]. split; [right; exact Hin|assumption].
    + destruct (str_in k (ref cd)) eqn:Hr.
      * rewrite validate_step_reference by assumption.
        unfold property_ok, known_reference in Hkv. cbn [fst snd] in Hkv.
        rewrite Hp, Hr in Hkv. cbn [negb andb implb] in Hkv.
        destruct v as [| | | | |refs|]; try discriminate. cbn [reference_value_ok] in Hkv.
        rewrite (dissect_reference_descriptors _ _ _ _ Hkv).
        match goal with |- context [add_references w ?l] =>
          destruct (IH param (add_references w l) Hok)
            as [(p' & w' & H & Hall)|(n & v' & w' & H & Hin & ? & ? & ? & ?)]
        end.
        -- left. exists p', w'. split; [exact H|]. constructor; [right; exact Hr|exact Hall].
        -- right. exists n, v', w'. split; [exact H|]. split; [right; exact Hin|].
           repeat split; assumption.
      * rewrite validate_step_unknown by assumption.
        right. exists k, v, (log w (validation_failed (property_reason k c))).
        split; [reflexivity|]. split; [left; reflexivity|].
        repeat split; assumption.
Qed.

Lemma dissect_reference_step_no_exit c i p acc r code :
  dissect_reference_step c i p acc r <> Exit code.
Proof.
  unfold dissect_reference_step.
  destruct r as [| | | | |?|kvs]; try discriminate. cbn [py_get mbind outcome_bind].
  destruct (default (JStr "e") (dict_get kvs "beacon")); try discriminate.
  cbn [py_split mbind outcome_bind]. rewrite py_last_split. discriminate.
Qed.

Lemma dissect_reference_loop_no_exit c i p l acc code :
  for_each (dissect_reference_step c i p) l acc <> Exit code.
Proof.
  revert acc. induction l as [|r l IH]; intros acc; cbn [for_each];
    [discriminate|].
  destruct (dissect_reference_step c i p acc r) as [acc'|x|e] eqn:E;
    cbn [mbind outcome_bind]; [apply IH| |discriminate].
  now apply dissect_reference_step_no_exit in E.
Qed.

Lemma dissect_reference_no_exit v c i p code :
  dissect_reference v c i p <> Exit code.
Proof.
  unfold dissect_reference.
  destruct v; try discriminate; cbn [py_iter mbind outcome_bind];
    apply dissect_reference_loop_no_exit.
Qed.

(** An exit from the pass over the properties comes from an unknown name. *)
Lemma validate_loop_Exit cd c i items param w code w' :
  for_each (_validate_obj_step cd c i) items param w = (Exit code, w') ->
  code = 1%Z /\
  exists name v,
    In (name, v) items /\
    str_in name (primitive cd) = false /\ str_in name (ref cd) = false /\
    trace w' = trace w ++ [validation_failed (property_reason name c)] /\
    data_objects w' = data_objects w.
Proof.
  revert param w. induction items as [|[k v] items IH]; intros param w;
    cbn [for_each]; [discriminate|].
  rewrite run_bind. destruct (str_in k (primitive cd)) eqn:Hp.
  - rewrite validate_step_primitive by exact Hp. intros H.
    apply IH in H as (-> & n & v' & Hin & ?). split; [reflexivity|].
    exists n, v'. split; [right; exact Hin|assumption].
  - destruct (str_in k (ref cd)) eqn:Hr.
    + rewrite validate_step_reference by assumption.
      destruct (dissect_reference v c i k) as [refs|x|e] eqn:Hd.
      * intros H. apply IH in H as (-> & n & v' & Hin & ? & ? & ? & ?).
        split; [reflexivity|]. exists n, v'. split; [right; exact Hin|].
        repeat split; assumption.
      * now apply dissect_reference_no_exit in Hd.
      * discriminate.
    + rewrite validate_step_unknown by assumption. intros [= <- <-].
      split; [reflexivity|]. exists k, v. split; [left; reflexivity|].
      repeat split; assumption.
Qed.

(** [_validate_obj] case by case. *)
Lemma validate_obj_eq sd obj w :
  _validate_obj sd obj w =
    match obj with
    | JObj kvs =>
        if hashable (obj_class obj) then
          match pydict_lookup sd (obj_class obj) with
          | None => (Exit 1, log w (validation_failed (class_reason (obj_class obj))))
          | Some cd =>
              match dict_get kvs "properties" with
              | None | Some (JObj _) =>
                  match validate_properties cd obj w with
                  | (Ok param, w') => (Ok tt, add_object w' param)
                  | (Exit c, w') => (Exit c, w')
                  | (Raise e, w') => (Raise e, w')
                  end
              | Some _ => (Raise AttributeError, w)
              end
          end
        else (Raise TypeError, w)
    | _ => (Raise AttributeError, w)
    end.
Proof.
  unfold _validate_obj.
  destruct obj as [| | | | |?|kvs]; try reflexivity.
  rewrite run_lift_bind. cbn [py_get].
  change (default JNull (dict_get kvs "class")) with (obj_class (JObj kvs)).
  rewrite run_lift_bind. unfold pydict_get.
  destruct (hashable (obj_class (JObj kvs))); [|reflexivity].
  rewrite run_lift_bind.
  change (default JNull (dict_get kvs "id")) with (obj_id (JObj kvs)).
  destruct (pydict_lookup sd (obj_class (JObj kvs))) as [cd|]; [|reflexivity].
  rewrite run_lift_bind.
  change (default JNull (dict_get kvs "vector")) with (obj_vector (JObj kvs)).
  rewrite run_lift_bind. unfold validate_properties, obj_properties.
  destruct (dict_get kvs "properties") as [[| | | | |?|props]|];
    cbn [default from_option id]; rewrite run_lift_bind; cbn [py_items];
    try reflexivity; rewrite run_bind; reflexivity.
Qed.

Lemma fold_dict_set_fresh (l d : list (string * json)) :
  List.NoDup (map fst (d ++ l)) ->
  fold_left (fun d kv => dict_set d (fst kv) (snd kv)) l d = d ++ l.
Proof.
  revert d. induction l as [|[k v] l IH]; intros d Hnd; cbn [fold_left fst snd].
  - now rewrite app_nil_r.
  - assert (Hset : dict_set d k v = d ++ [(k, v)]).
    { assert (Hk : ~ In k (map fst d)).
      { rewrite map_app in Hnd. cbn [map fst] in Hnd.
        apply NoDup_remove_2 in Hnd. intros H. apply Hnd.
        apply in_or_app. left. exact H. }
      clear -Hk. induction d as [|[k' v'] d IHd]; [reflexivity|].
      cbn [dict_set]. destruct (String.eqb k k') eqn:E.
      - apply String.eqb_eq in E as ->. exfalso. apply Hk. left. reflexivity.
      - cbn [app]. f_equal. apply IHd. intros H. apply Hk. right. exact H. }
    rewrite Hset, IH; rewrite <- app_assoc; [reflexivity|exact Hnd].
Qed.

Lemma NoDup_fst_filter {A B} (f : A * B -> bool) (l : list (A * B)) :
  List.NoDup (map fst l) -> List.NoDup (map fst (List.filter f l)).
Proof.
  induction l as [|x l IH]; cbn [map List.filter]; [auto|].
  intros H. apply NoDup_cons_iff in H as [Hx Hl].
  destruct (f x); [|auto]. cbn [map]. constructor; [|auto].
  intros Hin. apply Hx. apply in_map_iff in Hin as (y & E & Hy).
  apply filter_In in Hy as [Hy _]. apply in_map_iff. eauto.
Qed.

Lemma filter_reference_disjoint cd (items : list (string * json)) :
  (forall n, str_in n (primitive cd) = true -> str_in n (ref cd) = false) ->
  List.filter (known_reference cd) items = List.filter (in_reference_set cd) items.
Proof.
  intros Hdis. apply filter_ext. intros [k v].
  unfold known_reference, in_reference_set. cbn [fst].
  destruct (str_in k (primitive cd)) eqn:Hp; [|reflexivity].
  now rewrite (Hdis _ Hp).
Qed.

(** C3, as the code has it.  When validation of an object returns, the
    class is in the schema definition and exactly one record was appended to
    the object list; it carries the object's class, id and vector, and its
    data mapping holds exactly the properties whose name is in the primitive
    list, with their values as they were.  The reference list grew by as
    many records as the properties whose name is in the reference list and
    not in the primitive list hold descriptors; when no name of the class is
    in both lists, these are the properties in the reference list. *)
Theorem validate_obj_records (sd : schema_definition) (obj : json) (w w' : world) :
  List.NoDup (map fst (obj_properties obj)) ->
  _validate_obj sd obj w = (Ok tt, w') ->
  exists cd record refs,
    pydict_lookup sd (obj_class obj) = Some cd /\
    data_objects w' = data_objects w ++ [record] /\
    class_name record = obj_class obj /\
    uuid record = obj_id obj /\
    vector record = not_none (obj_vector obj) /\
    data_object record = List.filter (known_primitive cd) (obj_properties obj) /\
    data_references w' = data_references w ++ refs /\
    length refs =
      list_sum (map (fun kv => descriptor_count (snd kv))
                    (List.filter (known_reference cd) (obj_properties obj))) /\
    ((forall n, str_in n (primitive cd) = true -> str_in n (ref cd) = false) ->
     length refs =
       list_sum (map (fun kv => descriptor_count (snd kv))
                     (List.filter (in_reference_set cd) (obj_properties obj)))) /\
    trace w' = trace w.
Proof.
  intros Hnd. rewrite validate_obj_eq.
  destruct obj as [| | | | |?|kvs]; try discriminate.
  destruct (hashable _); [|discriminate].
  destruct (pydict_lookup sd _) as [cd|] eqn:Hcd; [|discriminate].
  assert (Hloop : forall p w1, validate_properties cd (JObj kvs) w = (Ok p, w1) ->
    (Ok tt, add_object w1 p) = (Ok tt, w') ->
    exists cd0 record refs,
      Some cd = Some cd0 /\
      data_objects w' = data_objects w ++ [record] /\
      class_name record = obj_class (JObj kvs) /\
      uuid record = obj_id (JObj kvs) /\
      vector record = not_none (obj_vector (JObj kvs)) /\
      data_object record =
        List.filter (known_primitive cd0) (obj_properties (JObj kvs)) /\
      data_references w' = data_references w ++ refs /\
      length refs =
        list_sum (map (fun kv => descriptor_count (snd kv))
                      (List.filter (known_reference cd0) (obj_properties (JObj kvs)))) /\
      ((forall n, str_in n (primitive cd0) = true -> str_in n (ref cd0) = false) ->
       length refs =
         list_sum (map (fun kv => descriptor_count (snd kv))
                       (List.filter (in_reference_set cd0)
                                    (obj_properties (JObj kvs))))) /\
      trace w' = trace w).
  { intros p w1 Hl [= <-]. unfold validate_properties in Hl.
    apply validate_loop_Ok in Hl
      as (Ht & Ho & Hc & Hu & Hv & Hd & refs & Hrefs & Hlen).
    exists cd, p, refs. cbn [add_object data_objects data_references trace].
    rewrite Ho, Hc, Hu, Hv, Hd, Hrefs, Ht.
    cbn [initial_parameter class_name uuid vector data_object].
    rewrite (fold_dict_set_fresh _ []) by (now apply NoDup_fst_filter).
    repeat split; try reflexivity; try exact Hlen.
    intros Hdis. now rewrite <- (filter_reference_disjoint cd _ Hdis). }
  destruct (dict_get kvs "properties") as [[| | | | |?|props]|];
    try discriminate;
    destruct (validate_properties cd (JObj kvs) w) as [[p| |] w1] eqn:Hl;
    try discriminate; now apply (Hloop p w1).
Qed.

Lemma validate_obj_records_witness :
  exists cd record refs,
    pydict_lookup schema_definition_example (obj_class raw_object_example) = Some cd /\
    data_objects (add_object (add_references initial_world [reference_record_example])
                             object_record_example) = [] ++ [record] /\
    class_name record = obj_class raw_object_example /\
    uuid record = obj_id raw_object_example /\
    vector record = not_none (obj_vector raw_object_example) /\
    data_object record =
      List.filter (known_primitive cd) (obj_properties raw_object_example) /\
    data_references (add_object (add_references initial_world [reference_record_example])
                                object_record_example) = [] ++ refs /\
    length refs =
      list_sum (map (fun kv => descriptor_count (snd kv))
                    (List.filter (known_reference cd)
                                 (obj_properties raw_object_example))) /\
    ((forall n, str_in n (primitive cd) = true -> str_in n (ref cd) = false) ->
     length refs =
       list_sum (map (fun kv => descriptor_count (snd kv))
                     (List.filter (in_reference_set cd)
                                  (obj_properties raw_object_example)))) /\
    trace (add_object (add_references initial_world [reference_record_example])
                      object_record_example) = [].
Proof.
  apply (validate_obj_records schema_definition_example raw_object_example
           initial_world).
  - repeat constructor; simpl; intuition discriminate.
  - reflexivity.
Defined.

(** C3 fails as stated: against the definition derived from a class that
    declares the name [a] twice, once primitive and once not, an object
    whose property [a] holds one descriptor validates; [a] is in the
    reference list and holds one descriptor, yet no reference record is
    produced: the value is copied as a primitive. *)
Lemma validate_obj_overlap_no_reference :
  dissect_schema duplicate_property_doc = Ok overlap_definition /\
  _validate_obj overlap_definition overlap_object initial_world =
    (Ok tt,
     {| trace := [];
        data_objects :=
          [{| class_name := JStr "Doc"; uuid := JStr "x1";
              data_object := [("a", JArr [JObj [("beacon", JStr "scheme://host/Doc/y1")]])];
              vector := None |}];
        data_references := [] |}) /\
  list_sum (map (fun kv => descriptor_count (snd kv))
                (List.filter (in_reference_set {| primitive := [JStr "a"];
                                                  ref := [JStr "a"] |})
                             (obj_properties overlap_object))) = 1.
Proof. repeat split; reflexivity. Qed.

(** C2. Validation of an object exits only with status 1, and only when the
    class is not in the schema definition or a property of the object is in
    neither list of its class; the line printed before the exit names that
    class or property, and for an unknown class nothing else changed: no
    record was produced.  On a raw object the converse holds too: validation
    exits exactly in those two cases and returns otherwise. *)
Theorem validate_obj_exit (sd : schema_definition) (obj : json) (w : world) :
  (forall code w',
     _validate_obj sd obj w = (Exit code, w') ->
     code = 1%Z /\
     ((unknown_class sd obj /\
       w' = log w (validation_failed (class_reason (obj_class obj)))) \/
      (exists name,
         unknown_property sd obj name /\
         trace w' =
           trace w ++ [validation_failed (property_reason name (obj_class obj))] /\
         data_objects w' = data_objects w))) /\
  (raw_object_ok sd obj = true ->
   exists o w',
     _validate_obj sd obj w = (o, w') /\
     ((unknown_class sd obj \/ exists name, unknown_property sd obj name)
        <-> o = Exit 1) /\
     (o <> Exit 1 -> o = Ok tt)).
Proof.
  split.
  - intros code w'. rewrite validate_obj_eq. unfold unknown_class, unknown_property.
    destruct obj as [| | | | |?|kvs]; try discriminate.
    destruct (hashable _); [|discriminate].
    destruct (pydict_lookup sd (obj_class (JObj kvs))) as [cd|] eqn:Hcd.
    + assert (Hloop : forall o0 w0,
        validate_properties cd (JObj kvs) w = (o0, w0) ->
        match o0 with
        | Ok param => (Ok tt, add_object w0 param)
        | Exit c => (Exit c, w0)
        | Raise e => (Raise e, w0)
        end = (Exit code, w') ->
        code = 1%Z /\
        ((Some cd = None /\
          w' = log w (validation_failed (class_reason (obj_class (JObj kvs))))) \/
         (exists name,
            (exists cd0 v,
               Some cd = Some cd0 /\ In (name, v) (obj_properties (JObj kvs)) /\
               str_in name (primitive cd0) = false /\
               str_in name (ref cd0) = false) /\
            trace w' = trace w ++
              [validation_failed (property_reason name (obj_class (JObj kvs)))] /\
            data_objects w' = data_objects w))).
      { intros o0 w0 Hl. destruct o0 as [p|c|e]; try discriminate.
        intros [= -> ->]. unfold validate_properties in Hl.
        apply validate_loop_Exit in Hl as (-> & n & v & Hin & Hp & Hr & Ht & Ho).
        split; [reflexivity|]. right. exists n. split; [|split; assumption].
        exists cd, v. auto. }
      destruct (validate_properties cd (JObj kvs) w) as [o0 w0] eqn:Hl.
      destruct (dict_get kvs "properties") as [[| | | | |?|props]|];
        try discriminate; intros H; destruct (Hloop _ _ eq_refl H) as [Hc Hcase];
        (split; [exact Hc|]);
        destruct Hcase as [[Hnone _]|Hprop]; try discriminate; right; exact Hprop.
    + intros [= <- <-]. split; [reflexivity|]. left. split; reflexivity.
  - intros Hraw. rewrite validate_obj_eq. unfold unknown_class, unknown_property.
    destruct obj as [| | | | |?|kvs]; try discriminate.
    cbn [raw_object_ok] in Hraw.
    apply andb_prop in Hraw as [Hraw Hprops].
    apply andb_prop in Hraw as [Hhash Hshape]. rewrite Hhash.
    destruct (pydict_lookup sd (obj_class (JObj kvs))) as [cd|] eqn:Hcd.
    + assert (Hloop : exists o w',
        (let (o0, w0) := validate_properties cd (JObj kvs) w in
         match o0 with
         | Ok param => (Ok tt, add_object w0 param)
         | Exit c => (Exit c, w0)
         | Raise e => (Raise e, w0)
         end) = (o, w') /\
        ((exists name v, In (name, v) (obj_properties (JObj kvs)) /\
                         str_in name (primitive cd) = false /\
                         str_in name (ref cd) = false) /\ o = Exit 1 \/
         Forall (fun kv => str_in (fst kv) (primitive cd) = true \/
                           str_in (fst kv) (ref cd) = true)
                (obj_properties (JObj kvs)) /\ o = Ok tt)).
      { unfold validate_properties.
        destruct (validate_loop_cases cd (obj_class (JObj kvs)) (obj_id (JObj kvs))
                    (obj_properties (JObj kvs)) (initial_parameter (JObj kvs)) w Hprops)
          as [(p & w' & -> & Hall)|(n & v & w' & -> & Hin & Hp & Hr & _)].
        - exists (Ok tt), (add_object w' p). split; [reflexivity|]. right. auto.
        - exists (Exit 1), w'. split; [reflexivity|]. left. split; [|reflexivity].
          exists n, v. auto. }
      destruct Hloop as (o & w' & Hrun & Hcases). exists o, w'. split.
      { destruct (dict_get kvs "properties") as [[| | | | |?|props]|];
          try discriminate; exact Hrun. }
      destruct Hcases as [[(n & v & Hin & Hp & Hr) ->]|[Hall ->]].
      * split; [|intros H; now contradiction H].
        split; [reflexivity|]. intros _. right. exists n, cd, v. auto.
      * split; [|reflexivity]. split; [|discriminate].
        intros [H|(n & cd' & v & [= <-] & Hin & Hp & Hr)]; [discriminate|].
        rewrite List.Forall_forall in Hall. destruct (Hall _ Hin) as [H|H];
          cbn [fst] in H; congruence.
    + exists (Exit 1), (log w (validation_failed (class_reason (obj_class (JObj kvs))))).
      split; [reflexivity|]. split; [|intros H; now contradiction H].
      split; [reflexivity|]. intros _. left. reflexivity.
Qed.

Lemma validate_obj_exit_witness :
  exists o w',
    _validate_obj schema_definition_example unknown_class_object_example
                  initial_world = (o, w') /\
    ((unknown_class schema_definition_example unknown_class_object_example \/
      exists name,
        unknown_property schema_definition_example unknown_class_object_example name)
       <-> o = Exit 1) /\
    (o <> Exit 1 -> o = Ok tt).
Proof.
  apply (proj2 (validate_obj_exit schema_definition_example
                  unknown_class_object_example initial_world)).
  reflexivity.
Defined.

Example validate_unknown_class :
  _validate_obj schema_definition_example unknown_class_object_example initial_world =
    (Exit 1,
     {| trace := [EvPrint [[Lit "Error validation failed:"];
                           [Lit "Class "; Str (JStr "Nope"); Lit " not in schema!"]]];
        data_objects := []; data_references := [] |}).
Proof. reflexivity. Qed.

Example validate_unknown_property :
  _validate_obj schema_definition_example
    (JObj [("class", JStr "Doc");
           ("properties", JObj [("title", JStr "hi"); ("colour", JStr "red")])])
    initial_world =
    (Exit 1,
     {| trace := [EvPrint [[Lit "Error validation failed:"];
                           [Lit "Property "; Str (JStr "colour"); Lit " of class ";
                            Str (JStr "Doc"); Lit " not in schema!"]]];
        data_objects := []; data_references := [] |}).
Proof. reflexivity. Qed.

Example validate_end_to_end :
  _validate_obj schema_definition_example raw_object_example initial_world =
    (Ok tt,
     {| trace := []; data_objects := [object_record_example];
        data_references := [reference_record_example] |}).
Proof. reflexivity. Qed.

(** C10. In a reference-valued property holding a list of descriptors, the
    validator does not fail on a descriptor without a ['beacon'] entry: the
    pass over the property returns, one record is added per descriptor, and
    the record of a descriptor without ['beacon'] has the target ["e"]. *)
Theorem missing_beacon_targets_e (cd : class_definition) (c i : json)
    (param : import_object_parameter) (name : string) (refs : list json)
    (w : world) :
  str_in name (primitive cd) = false ->
  str_in name (ref cd) = true ->
  forallb is_descriptor refs = true ->
  exists recs,
    dissect_reference (JArr refs) c i name = Ok recs /\
    _validate_obj_step cd c i param (name, JArr refs) w =
      (Ok param, add_references w recs) /\
    length recs = length refs /\
    forall n kvs,
      nth_error refs n = Some (JObj kvs) ->
      dict_get kvs "beacon" = None ->
      nth_error recs n =
        Some {| from_object_uuid := i; from_object_class_name := c;
                from_property_name := name; to_object_uuid := "e" |}.
Proof.
  intros Hp Hr Hrefs. eexists. split; [|split; [|split]].
  - apply dissect_reference_descriptors. exact Hrefs.
  - rewrite validate_step_reference by assumption.
    now rewrite dissect_reference_descriptors.
  - apply length_map.
  - intros n kvs Hn Hb. rewrite nth_error_map, Hn. cbn [option_map].
    unfold beacon_or_default. rewrite Hb. reflexivity.
Qed.

Lemma missing_beacon_targets_e_witness :
  exists recs,
    dissect_reference (JArr [JObj [("href", JStr "x")]]) (JStr "Doc") (JStr "x1") "refs"
      = Ok recs /\
    _validate_obj_step {| primitive := [JStr "title"]; ref := [JStr "refs"] |}
        (JStr "Doc") (JStr "x1") object_record_example
        ("refs", JArr [JObj [("href", JStr "x")]]) initial_world =
      (Ok object_record_example, add_references initial_world recs) /\
    length recs = length [JObj [("href", JStr "x")]] /\
    forall n kvs,
      nth_error [JObj [("href", JStr "x")]] n = Some (JObj kvs) ->
      dict_get kvs "beacon" = None ->
      nth_error recs n =
        Some {| from_object_uuid := JStr "x1"; from_object_class_name := JStr "Doc";
                from_property_name := "refs"; to_object_uuid := "e" |}.
Proof.
  apply (missing_beacon_targets_e
           {| primitive := [JStr "title"]; ref := [JStr "refs"] |}
           (JStr "Doc") (JStr "x1") object_record_example "refs"
           [JObj [("href", JStr "x")]] initial_world); reflexivity.
Defined.

Example missing_beacon_example :
  dissect_reference (JArr [JObj [("href", JStr "x")]]) (JStr "Doc") (JStr "x1") "refs"
    = Ok [reference_to (JStr "Doc") (JStr "x1") "refs" "e"].
Proof. reflexivity. Qed.

Example null_beacon_raises :
  dissect_reference (JArr [JObj [("beacon", JNull)]]) (JStr "Doc") (JStr "x1") "refs"
    = Raise AttributeError.
Proof. reflexivity. Qed.

(** ** The error-inspection callback *)

Import DataFileImporter.

Lemma log_all_nil w : log_all w [] = w.
Proof. destruct w. unfold log_all. cbn. now rewrite app_nil_r. Qed.

Lemma log_all_log w ev evs : log_all (log w ev) evs = log_all w (ev :: evs).
Proof. unfold log_all, log. cbn. now rewrite <- app_assoc. Qed.

Lemma log_all_app w evs1 evs2 :
  log_all (log_all w evs1) evs2 = log_all w (evs1 ++ evs2).
Proof. unfold log_all. cbn. now rewrite <- app_assoc. Qed.

Lemma exit_on_error_step_eq fail entry e w :
  entry_error entry = Some e ->
  _exit_on_error_step fail tt entry w =
    if is_null e then (Ok tt, w)
    else if fail then (Exit 1, log w (report e))
    else (Ok tt, log w (report e)).
Proof.
  unfold entry_error, _exit_on_error_step.
  destruct entry as [| | | | |?|kvs]; try discriminate.
  rewrite run_lift_bind. cbn [py_get].
  destruct (dict_get kvs "result") as [[| | | | |?|result]|]; try discriminate;
    intros [= <-]; cbn [default from_option id]; rewrite run_lift_bind; cbn [py_get].
  - destruct (default JNull (dict_get result "errors")); destruct fail; reflexivity.
  - reflexivity.
Qed.

Lemma exit_on_error_loop_continue entries w :
  forallb entry_ok entries = true ->
  for_each (_exit_on_error_step false) entries tt w =
    (Ok tt, log_all w (map report (reported_errors entries))).
Proof.
  revert w. induction entries as [|entry entries IH]; intros w; cbn [forallb for_each].
  - intros _. now rewrite log_all_nil.
  - intros H. apply andb_prop in H as [He Hrest]. unfold entry_ok in He.
    destruct (entry_error entry) as [e|] eqn:Ee; [|discriminate].
    rewrite run_bind, (exit_on_error_step_eq _ _ _ _ Ee).
    unfold reported_errors in *. cbn [map List.filter]. rewrite Ee.
    cbn [default from_option id].
    destruct (is_null e); cbn [negb map]; rewrite IH by exact Hrest;
      [reflexivity|now rewrite log_all_log].
Qed.

Lemma exit_on_error_loop_clean fail entries w :
  forallb entry_ok entries = true -> reported_errors entries = [] ->
  for_each (_exit_on_error_step fail) entries tt w = (Ok tt, w).
Proof.
  revert w. induction entries as [|entry entries IH]; intros w; cbn [forallb for_each].
  - reflexivity.
  - intros H. apply andb_prop in H as [He Hrest]. unfold entry_ok in He.
    destruct (entry_error entry) as [e|] eqn:Ee; [|discriminate].
    unfold reported_errors in *. cbn [map List.filter]. rewrite Ee.
    cbn [default from_option id].
    rewrite run_bind, (exit_on_error_step_eq _ _ _ _ Ee).
    destruct (is_null e); cbn [negb]; [|discriminate].
    intros Hnone. now apply IH.
Qed.

Lemma exit_on_error_loop_fail pre entry e post w :
  forallb entry_ok pre = true -> reported_errors pre = [] ->
  entry_error entry = Some e -> is_null e = false ->
  for_each (_exit_on_error_step true) (pre ++ entry :: post) tt w =
    (Exit 1, log w (report e)).
Proof.
  intros Hpre Hclean He Hnull.
  rewrite run_for_each_app, (exit_on_error_loop_clean _ _ _ Hpre Hclean).
  cbn [for_each]. rewrite run_bind, (exit_on_error_step_eq _ _ _ _ He), Hnull.
  reflexivity.
Qed.

Lemma exit_on_error_entries fail entries w :
  _exit_on_error fail (JArr entries) w =
    for_each (_exit_on_error_step fail) entries tt w.
Proof. unfold _exit_on_error. now rewrite run_lift_bind. Qed.

Lemma run_callbacks_continue batches w :
  forallb batch_ok batches = true ->
  run_callbacks false batches w =
    (Ok tt, log_all w (map report (flat_map batch_errors batches))).
Proof.
  unfold run_callbacks. revert w.
  induction batches as [|b batches IH]; intros w; cbn [forallb for_each flat_map].
  - intros _. now rewrite log_all_nil.
  - intros H. apply andb_prop in H as [Hb Hrest].
    destruct b as [| | | | |entries|]; try discriminate. cbn [batch_ok] in Hb.
    rewrite run_bind, exit_on_error_entries, (exit_on_error_loop_continue _ _ Hb).
    rewrite IH by exact Hrest. cbn [batch_errors].
    now rewrite log_all_app, map_app.
Qed.

Lemma run_callbacks_clean fail batches w :
  Forall (fun b => batch_ok b = true /\ batch_errors b = []) batches ->
  run_callbacks fail batches w = (Ok tt, w).
Proof.
  unfold run_callbacks. intros H. revert w.
  induction H as [|b batches [Hb Hclean] _ IH]; intros w; cbn [for_each];
    [reflexivity|].
  destruct b as [| | | | |entries|]; try discriminate.
  rewrite run_bind, exit_on_error_entries.
  rewrite (exit_on_error_loop_clean _ _ _ Hb Hclean). apply IH.
Qed.

Lemma is_null_false e : e <> JNull -> is_null e = false.
Proof. destruct e; intros H; try reflexivity. now contradiction H. Qed.

(** C5. The callback prints the errors field of every entry that has one.
    With fail-on-error off every entry of every batch is inspected, each
    non-null errors field is printed in order, and the callback returns.
    With fail-on-error on the process exits with status 1 at the first such
    entry, having printed only its error: whatever follows in the batch, and
    every later batch, is not looked at. *)
Theorem exit_on_error_inspection :
  (forall entries w,
     forallb entry_ok entries = true ->
     _exit_on_error false (JArr entries) w =
       (Ok tt, log_all w (map report (reported_errors entries)))) /\
  (forall entries w,
     forallb entry_ok entries = true -> reported_errors entries = [] ->
     _exit_on_error true (JArr entries) w = (Ok tt, w)) /\
  (forall pre entry e post w,
     forallb entry_ok pre = true -> reported_errors pre = [] ->
     entry_error entry = Some e -> e <> JNull ->
     _exit_on_error true (JArr (pre ++ entry :: post)) w =
       (Exit 1, log w (report e))) /\
  (forall before pre entry e post later w,
     Forall (fun b => batch_ok b = true /\ batch_errors b = []) before ->
     forallb entry_ok pre = true -> reported_errors pre = [] ->
     entry_error entry = Some e -> e <> JNull ->
     run_callbacks true (before ++ JArr (pre ++ entry :: post) :: later) w =
       (Exit 1, log w (report e))) /\
  (forall batches w,
     forallb batch_ok batches = true ->
     run_callbacks false batches w =
       (Ok tt, log_all w (map report (flat_map batch_errors batches)))).
Proof.
  split; [|split; [|split; [|split]]].
  - intros entries w H. rewrite exit_on_error_entries.
    now apply exit_on_error_loop_continue.
  - intros entries w H Hclean. rewrite exit_on_error_entries.
    now apply exit_on_error_loop_clean.
  - intros pre entry e post w Hpre Hclean He Hnull. rewrite exit_on_error_entries.
    apply exit_on_error_loop_fail; auto using is_null_false.
  - intros before pre entry e post later w Hbefore Hpre Hclean He Hnull.
    unfold run_callbacks. rewrite run_for_each_app.
    pose proof (run_callbacks_clean true before w Hbefore) as Hb.
    unfold run_callbacks in Hb. rewrite Hb. cbn [for_each].
    rewrite run_bind, exit_on_error_entries.
    rewrite (exit_on_error_loop_fail pre entry e post w); auto using is_null_false.
  - exact run_callbacks_continue.
Qed.

Lemma exit_on_error_inspection_witness :
  run_callbacks true
    ([JArr [entry_success_example]] ++
     JArr ([entry_success_example] ++ entry_failure_example :: [JNull]) ::
     [JNull]) initial_world =
    (Exit 1, log initial_world (report entry_failure_error)) /\
  _exit_on_error false
    (JArr [entry_success_example; entry_failure_example; entry_failure_example])
    initial_world =
    (Ok tt, log_all initial_world [report entry_failure_error;
                                   report entry_failure_error]).
Proof.
  split.
  - apply (proj1 (proj2 (proj2 (proj2 exit_on_error_inspection)))).
    + repeat constructor.
    + reflexivity.
    + reflexivity.
    + reflexivity.
    + discriminate.
  - apply (proj1 exit_on_error_inspection
             [entry_success_example; entry_failure_example; entry_failure_example]).
    reflexivity.
Defined.

(** ** The import run *)

Lemma quiet_same_trace {A} (m : M A) :
  (forall w o w', m w = (o, w') -> trace w' = trace w) -> quiet m.
Proof.
  intros H w o w' E. exists []. rewrite app_nil_r. split; [eauto|constructor].
Qed.

Lemma quiet_ret {A} (a : A) : quiet (mret a).
Proof. apply quiet_same_trace. now intros w o w' [= <- <-]. Qed.

Lemma quiet_lift {A} (o : outcome A) : quiet (lift o).
Proof. apply quiet_same_trace. now intros w o' w' [= <- <-]. Qed.

Lemma quiet_sys_exit {A} c : quiet (sys_exit (A:=A) c).
Proof. apply quiet_same_trace. now intros w o' w' [= <- <-]. Qed.

Lemma quiet_emit ev : is_write ev = false -> quiet (emit ev).
Proof.
  intros Hev w o w' [= <- <-]. exists [ev]. split; [reflexivity|].
  constructor; [exact Hev|constructor].
Qed.

Lemma quiet_bind {A B} (m : M A) (f : A -> M B) :
  quiet m -> (forall a, quiet (f a)) -> quiet (m ≫= f).
Proof.
  intros Hm Hf w o w' E. rewrite run_bind in E.
  destruct (m w) as [[a| |] w1] eqn:Em;
    destruct (Hm _ _ _ Em) as (t1 & Ht1 & Hq1).
  - destruct (Hf a _ _ _ E) as (t2 & Ht2 & Hq2).
    exists (t1 ++ t2). rewrite Ht2, Ht1, app_assoc. split; [reflexivity|].
    apply Forall_app. auto.
  - injection E as <- <-. eauto.
  - injection E as <- <-. eauto.
Qed.

Lemma quiet_for_each {A B} (body : B -> A -> M B) l acc :
  (forall b a, quiet (body b a)) -> quiet (for_each body l acc).
Proof.
  intros Hbody. revert acc. induction l as [|x l IH]; intros acc; cbn [for_each].
  - apply quiet_ret.
  - apply quiet_bind; auto.
Qed.

Create HintDb quiet.
#[local] Hint Resolve quiet_ret quiet_lift quiet_sys_exit quiet_bind
  quiet_for_each : quiet.

Lemma quiet_print args : quiet (print args).
Proof. now apply quiet_emit. Qed.

Lemma quiet_exit_validation_failed {A} reason :
  quiet (_exit_validation_failed (A:=A) reason).
Proof.
  unfold _exit_validation_failed. apply quiet_bind; [apply quiet_print|].
  intros _. apply quiet_sys_exit.
Qed.

Lemma quiet_extend_data_references l : quiet (extend_data_references l).
Proof. apply quiet_same_trace. now intros w o w' [= <- <-]. Qed.

Lemma quiet_append_data_object o : quiet (append_data_object o).
Proof. apply quiet_same_trace. now intros w o' w' [= <- <-]. Qed.

Lemma quiet_reset_lists : quiet reset_lists.
Proof. apply quiet_same_trace. now intros w o' w' [= <- <-]. Qed.

Lemma quiet_get_world : quiet get_world.
Proof. apply quiet_same_trace. now intros w o' w' [= <- <-]. Qed.

#[local] Hint Resolve quiet_print quiet_exit_validation_failed
  quiet_extend_data_references quiet_append_data_object quiet_reset_lists
  quiet_get_world : quiet.

Lemma quiet_validate_obj_step cd c i param item :
  quiet (_validate_obj_step cd c i param item).
Proof.
  unfold _validate_obj_step. destruct item as [k v].
  destruct (str_in k (primitive cd)); [auto with quiet|].
  destruct (str_in k (ref cd)); [|auto with quiet].
  apply quiet_bind; [auto with quiet|]. intros refs.
  apply quiet_bind; auto with quiet.
Qed.

Lemma quiet_validate_obj sd obj : quiet (_validate_obj sd obj).
Proof.
  unfold _validate_obj.
  apply quiet_bind; [auto with quiet|]. intros c.
  apply quiet_bind; [auto with quiet|]. intros [cd|];
    (apply quiet_bind; [auto with quiet|]); intros i; [|auto with quiet].
  apply quiet_bind; [auto with quiet|]. intros v.
  apply quiet_bind; [auto with quiet|]. intros props.
  apply quiet_bind; [auto with quiet|]. intros items.
  apply quiet_bind; [|auto with quiet].
  apply quiet_for_each. intros. apply quiet_validate_obj_step.
Qed.

Lemma quiet_validate_and_split data sd : quiet (validate_and_split data sd).
Proof.
  unfold validate_and_split.
  apply quiet_bind; [auto with quiet|]. intros classes.
  apply quiet_bind; [auto with quiet|]. intros objs.
  apply quiet_for_each. intros. apply quiet_validate_obj.
Qed.

Lemma quiet_validation_phase client file : quiet (validation_phase client file).
Proof.
  unfold validation_phase.
  apply quiet_bind.
  { unfold __init__. apply quiet_bind; [now apply quiet_emit|].
    intros _. destruct file; auto with quiet. }
  intros data. apply quiet_bind; [now apply quiet_emit|]. intros _.
  apply quiet_bind; [auto with quiet|]. intros schema.
  apply quiet_bind; [auto with quiet|]. intros _.
  apply quiet_bind.
  { unfold ValidateAndSplitData.__init__.
    apply quiet_bind; [auto with quiet|]. intros sd.
    apply quiet_bind; auto with quiet. }
  intros sd. apply quiet_validate_and_split.
Qed.

Lemma quiet_exit_on_error fail batch_results :
  quiet (_exit_on_error fail batch_results).
Proof.
  unfold _exit_on_error. apply quiet_bind; [auto with quiet|]. intros entries.
  apply quiet_for_each. intros [] entry. unfold _exit_on_error_step.
  apply quiet_bind; [auto with quiet|]. intros result.
  apply quiet_bind; [auto with quiet|]. intros error.
  destruct error; auto with quiet;
    (apply quiet_bind; [auto with quiet|]); intros _; destruct fail;
    auto with quiet.
Qed.

Lemma quiet_run_callbacks fail batches : quiet (run_callbacks fail batches).
Proof.
  unfold run_callbacks. apply quiet_for_each. intros. apply quiet_exit_on_error.
Qed.

Lemma filter_no_write t :
  Forall (fun ev => is_write ev = false) t -> List.filter is_write t = [].
Proof.
  induction 1 as [|ev t Hev _ IH]; cbn [List.filter]; [reflexivity|].
  now rewrite Hev.
Qed.

Lemma batcher_call_trace client fail ev w o w' :
  batcher_call client fail ev w = (o, w') ->
  exists t, trace w' = trace w ++ ev :: t /\
            Forall (fun e => is_write e = false) t.
Proof.
  unfold batcher_call. rewrite run_bind. cbn [emit]. rewrite run_bind.
  cbn [get_world]. intros H.
  apply quiet_run_callbacks in H as (t & Ht & Hq).
  exists t. split; [|exact Hq]. rewrite Ht. cbn [log trace].
  now rewrite <- app_assoc.
Qed.

(** A loop of batcher calls makes the calls of a prefix of its list, all of
    them when it returns. *)
Lemma upload_loop_trace {A} (mk : A -> event) client fail l w o w' :
  (forall x, is_write (mk x) = true) ->
  for_each (fun _ x => batcher_call client fail (mk x)) l tt w = (o, w') ->
  exists t rest,
    trace w' = trace w ++ t /\
    map mk l = List.filter is_write t ++ rest /\
    (o = Ok tt -> rest = []).
Proof.
  intros Hmk. revert w. induction l as [|x l IH]; intros w; cbn [for_each].
  - intros [= <- <-]. exists [], []. rewrite app_nil_r. auto.
  - rewrite run_bind.
    destruct (batcher_call client fail (mk x) w) as [[[]| |] w1] eqn:Ecall;
      destruct (batcher_call_trace _ _ _ _ _ _ Ecall) as (t1 & Ht1 & Hq1).
    + intros H. destruct (IH _ H) as (t2 & rest & Ht2 & Hmap & Hrest).
      exists (mk x :: t1 ++ t2), rest. split; [|split; [|exact Hrest]].
      * rewrite Ht2, Ht1, <- app_assoc. reflexivity.
      * cbn [List.filter map]. rewrite Hmk, List.filter_app, (filter_no_write _ Hq1).
        cbn [app]. now rewrite Hmap.
    + intros [= <- <-]. exists (mk x :: t1), (map mk l).
      split; [exact Ht1|]. split; [|discriminate].
      cbn [List.filter map]. now rewrite Hmk, (filter_no_write _ Hq1).
    + intros [= <- <-]. exists (mk x :: t1), (map mk l).
      split; [exact Ht1|]. split; [|discriminate].
      cbn [List.filter map]. now rewrite Hmk, (filter_no_write _ Hq1).
Qed.

Lemma upload_phase_trace client fail wv o w :
  upload_phase client fail wv = (o, w) ->
  exists uploads rest,
    trace w = trace wv ++ EvPrint [[Lit "Importing data"]] :: uploads /\
    expected_writes wv = List.filter is_write uploads ++ rest /\
    (o = Ok tt -> rest = []).
Proof.
  unfold upload_phase, expected_writes. rewrite run_bind. cbn [print emit].
  rewrite run_bind. cbn [get_world]. rewrite run_bind.
  set (w0 := log wv (EvPrint [[Lit "Importing data"]])).
  change (data_objects w0) with (data_objects wv).
  change (data_references w0) with (data_references wv).
  assert (Hw0 : trace w0 = trace wv ++ [EvPrint [[Lit "Importing data"]]])
    by reflexivity.
  destruct (for_each (M:=M) _ (data_objects wv) tt w0) as [o1 w1] eqn:E1.
  destruct (upload_loop_trace EvAddDataObject _ _ _ _ _ _ (fun _ => eq_refl) E1)
    as (t1 & r1 & Ht1 & Hm1 & Hr1).
  destruct o1 as [[]| |].
  2,3: intros [= <- <-]; exists t1; eexists; split;
    [rewrite Ht1, Hw0, <- app_assoc; reflexivity|];
    split; [rewrite Hm1, <- app_assoc; reflexivity|discriminate].
  rewrite (Hr1 eq_refl), app_nil_r in Hm1. rewrite run_bind.
  destruct (for_each (M:=M) _ (data_references wv) tt w1) as [o2 w2] eqn:E2.
  destruct (upload_loop_trace EvAddReference _ _ _ _ _ _ (fun _ => eq_refl) E2)
    as (t2 & r2 & Ht2 & Hm2 & Hr2).
  destruct o2 as [[]| |].
  2,3: intros [= <- <-]; exists (t1 ++ t2); eexists; split;
    [rewrite Ht2, Ht1, Hw0, <- !app_assoc; reflexivity|];
    split; [rewrite Hm1, Hm2, List.filter_app, <- !app_assoc; reflexivity|discriminate].
  rewrite (Hr2 eq_refl), app_nil_r in Hm2.
  intros H. destruct (batcher_call_trace _ _ _ _ _ _ H) as (t3 & Ht3 & Hq3).
  exists (t1 ++ t2 ++ EvFlush :: t3), []. split; [|split; [|reflexivity]].
  - rewrite Ht3, Ht2, Ht1, Hw0, <- !app_assoc. reflexivity.
  - rewrite Hm1, Hm2, !List.filter_app. cbn [List.filter is_write].
    rewrite (filter_no_write _ Hq3), app_nil_r. reflexivity.
Qed.

Lemma import_data_from_file_phases client file fail w :
  import_data_from_file client file fail w =
    match validation_phase client file w with
    | (Ok _, wv) => upload_phase client fail wv
    | (Exit c, wv) => (Exit c, wv)
    | (Raise e, wv) => (Raise e, wv)
    end.
Proof.
  unfold import_data_from_file, validation_phase, load, upload_phase.
  rewrite !run_bind. destruct (__init__ file w) as [[data| |] w1]; try reflexivity.
  rewrite !run_bind. destruct (emit EvSchemaGet w1) as [[[]| |] w2]; try reflexivity.
  rewrite !run_bind. destruct (lift (schema_get client) w2) as [[schema| |] w3];
    try reflexivity.
  rewrite !run_bind. destruct (print _ w3) as [[[]| |] w4]; try reflexivity.
  rewrite !run_bind.
  destruct (ValidateAndSplitData.__init__ schema w4) as [[sd| |] w5]; reflexivity.
Qed.

Example import_end_to_end :
  import_data_from_file quiet_client (Json data_doc_example) false initial_world =
    (Ok tt,
     {| trace := validation_start ++
                 [EvPrint [[Lit "Importing data"]];
                  EvAddDataObject object_record_example;
                  EvAddReference reference_record_example;
                  EvFlush];
        data_objects := [object_record_example];
        data_references := [reference_record_example] |}).
Proof. reflexivity. Qed.

Example import_unknown_class_writes_nothing :
  import_data_from_file quiet_client
    (Json (JObj [("classes", JArr [raw_object_example; unknown_class_object_example])]))
    false initial_world =
    (Exit 1,
     {| trace := validation_start ++
                 [validation_failed (class_reason (JStr "Nope"))];
        data_objects := [object_record_example];
        data_references := [reference_record_example] |}).
Proof. reflexivity. Qed.

(** ** Loading the input file *)

Lemma validation_phase_json client doc w ov wv :
  validation_phase client (Json doc) w = (ov, wv) ->
  exists t, trace wv = trace w ++ EvBatchConfigure 512 :: EvSchemaGet :: t.
Proof.
  assert (Hq : quiet (schema ← lift (schema_get client);
                      print [[Lit "Validating data"]];;
                      vasd_schema ← ValidateAndSplitData.__init__ schema;
                      validate_and_split doc vasd_schema)).
  { apply quiet_bind; [auto with quiet|]. intros schema.
    apply quiet_bind; [auto with quiet|]. intros _.
    apply quiet_bind; [|intros; apply quiet_validate_and_split].
    unfold ValidateAndSplitData.__init__.
    apply quiet_bind; [auto with quiet|]. intros sd.
    apply quiet_bind; auto with quiet. }
  intros H.
  apply (Hq (log (log w (EvBatchConfigure 512)) EvSchemaGet)) in H as (t & Ht & _).
  exists t. rewrite Ht. cbn [log trace]. now rewrite <- !app_assoc.
Qed.

(** C8, as the code has it.  A file that does not parse as JSON, or cannot
    be read, makes the run raise while the importer is built: the schema has
    not been fetched, nothing was written, and the process ends with status
    1.  A file that parses is never rejected at that point, whatever its
    structure: the schema is fetched first. *)
Theorem import_rejects_unparsable (client : weaviate_client) (fail_on_error : bool) :
  import_data_from_file client NotJson fail_on_error initial_world =
    (Raise JSONDecodeError, log initial_world (EvBatchConfigure 512)) /\
  import_data_from_file client Unreadable fail_on_error initial_world =
    (Raise OSError, log initial_world (EvBatchConfigure 512)) /\
  exit_status (Raise (A:=unit) JSONDecodeError) = 1%Z /\
  forall doc, exists o w t,
    import_data_from_file client (Json doc) fail_on_error initial_world = (o, w) /\
    trace w = EvBatchConfigure 512 :: EvSchemaGet :: t.
Proof.
  split; [reflexivity|]. split; [reflexivity|]. split; [reflexivity|].
  intros doc.
  destruct (import_data_from_file client (Json doc) fail_on_error initial_world)
    as [o w] eqn:Ei.
  rewrite import_data_from_file_phases in Ei.
  destruct (validation_phase client (Json doc) initial_world) as [ov wv] eqn:Ev.
  destruct (validation_phase_json _ _ _ _ _ Ev) as (t & Ht). cbn [initial_world trace app] in Ht.
  destruct ov as [[]| |].
  - apply upload_phase_trace in Ei as (uploads & rest & Hw & _).
    exists o, w. eexists. split; [reflexivity|]. rewrite Hw, Ht. reflexivity.
  - injection Ei as <- <-. eauto.
  - injection Ei as <- <-. eauto.
Qed.

(** C8 fails as stated: a document that is a JSON array, not the expected
    mapping, is rejected only after the schema has been fetched. *)
Lemma import_fetches_schema_before_rejecting :
  import_data_from_file quiet_client (Json (JArr [])) false initial_world =
    (Raise AttributeError,
     log_all initial_world
       [EvBatchConfigure 512; EvSchemaGet; EvPrint [[Lit "Validating data"]]]) /\
  In EvSchemaGet
     (trace (snd (import_data_from_file quiet_client (Json (JArr [])) false
                                        initial_world))).
Proof. split; [reflexivity|]. right. left. reflexivity. Qed.

Example import_accepts_mapping_for_classes :
  import_data_from_file quiet_client (Json (JObj [("classes", JObj [])])) false
                        initial_world =
    (Ok tt,
     log_all initial_world
       (validation_start ++ [EvPrint [[Lit "Importing data"]]; EvFlush])).
Proof. reflexivity. Qed.

(** ** Bulk delete *)

(** C9. Without the force flag and without a yes to the prompt, the process
    exits with status 0 and the only thing it did was to ask.  With the
    flag, or after a yes, and a service that answers, it fetches the schema,
    deletes all classes and recreates the schema it fetched, in that order,
    and ends with status 0; with the flag the user is not asked. *)
Theorem delete_all_data_gated (client : weaviate_client)
    (answer : string -> bool) (force : bool) :
  (force || answer delete_question = false ->
   delete_all_data client answer force initial_world =
     (Exit 0, log initial_world (EvPrompt delete_question)) /\
   List.filter is_schema_call (trace (log initial_world (EvPrompt delete_question))) = []) /\
  (force || answer delete_question = true ->
   forall s,
     schema_get client = Ok s ->
     schema_delete_all client = Ok tt ->
     schema_create client s = Ok tt ->
     exists o w,
       delete_all_data client answer force initial_world = (o, w) /\
       exit_status o = 0%Z /\
       trace w = (if force then [] else [EvPrompt delete_question]) ++
                 [EvSchemaGet; EvSchemaDeleteAll; EvSchemaCreate s] /\
       List.filter is_schema_call (trace w) =
         [EvSchemaGet; EvSchemaDeleteAll; EvSchemaCreate s]).
Proof.
  unfold delete_question. split.
  - intros H. apply orb_false_elim in H as [-> Ha]. split; [|reflexivity].
    unfold delete_all_data, is_question_answer_yes.
    unfold mbind, M_bind, mret, M_ret, emit, sys_exit.
    rewrite Ha. reflexivity.
  - intros H s Hget Hdel Hcreate.
    assert (Hall : forall w, _delete_all client w =
      (Ok tt, log_all w [EvSchemaGet; EvSchemaDeleteAll; EvSchemaCreate s])).
    { intros w. unfold _delete_all.
      unfold mbind, M_bind, mret, M_ret, emit, lift.
      rewrite Hget. cbv beta iota. rewrite Hdel. cbv beta iota. rewrite Hcreate.
      unfold log_all, log. cbn. now rewrite <- !app_assoc. }
    unfold delete_all_data. destruct force.
    + rewrite run_bind, Hall. eexists _, _. split; [reflexivity|].
      split; [reflexivity|]. split; reflexivity.
    + cbn [orb] in H. unfold is_question_answer_yes.
      rewrite run_bind.
      unfold mbind at 1, M_bind at 1, mret, M_ret, emit.
      rewrite H. cbn [negb]. rewrite Hall.
      eexists _, _. split; [reflexivity|]. split; [reflexivity|].
      split; reflexivity.
Qed.

Lemma delete_all_data_gated_witness :
  (delete_all_data quiet_client (fun _ => false) false initial_world =
     (Exit 0, log initial_world (EvPrompt delete_question))) /\
  exists o w,
    delete_all_data quiet_client (fun _ => true) false initial_world = (o, w) /\
    exit_status o = 0%Z /\
    trace w = [EvPrompt delete_question] ++
              [EvSchemaGet; EvSchemaDeleteAll; EvSchemaCreate schema_doc_example] /\
    List.filter is_schema_call (trace w) =
      [EvSchemaGet; EvSchemaDeleteAll; EvSchemaCreate schema_doc_example].
Proof.
  split.
  - apply (proj1 (delete_all_data_gated quiet_client (fun _ => false) false)).
    reflexivity.
  - apply (proj2 (delete_all_data_gated quiet_client (fun _ => true) false)
             eq_refl schema_doc_example); reflexivity.
Defined.

(** * Further properties of the schema index *)

Lemma dict_get_app_some {V} (l1 l2 : list (string * V)) k v :
  dict_get l1 k = Some v -> dict_get (l1 ++ l2) k = Some v.
Proof.
  induction l1 as [|[k' v'] l1 IH]; cbn [dict_get app]; [discriminate|].
  destruct (String.eqb k k'); auto.
Qed.

Lemma dict_get_app_none {V} (l1 l2 : list (string * V)) k :
  dict_get l1 k = None -> dict_get (l1 ++ l2) k = dict_get l2 k.
Proof.
  induction l1 as [|[k' v'] l1 IH]; cbn [dict_get app]; [reflexivity|].
  destruct (String.eqb k k'); [discriminate|auto].
Qed.

Lemma lookup_fold_add_class_last tcs d cn :
  pydict_lookup (fold_left add_class tcs d) (JStr cn) =
    match last_class tcs cn with
    | Some tps => Some (class_entry tps)
    | None => pydict_lookup d (JStr cn)
    end.
Proof.
  unfold last_class. revert d.
  induction tcs as [|[c tps] tcs IH]; intros d; [reflexivity|].
  cbn [fold_left rev]. rewrite IH.
  destruct (dict_get (rev tcs) cn) as [tps'|] eqn:E.
  - now rewrite (dict_get_app_some _ _ _ _ E).
  - rewrite (dict_get_app_none _ _ _ E). cbn [dict_get].
    unfold add_class. cbn [fst snd]. rewrite pydict_lookup_set_str.
    destruct (String.eqb cn c); reflexivity.
Qed.

(** X1. On a schema document of the expected shape, looking a class name up
    in the derived definition gives the lists of the last class descriptor
    with that name, and nothing when no descriptor has it: a repeated class
    name overwrites, a missing one is a lookup miss. *)
Theorem dissect_schema_lookup (doc : json) (tcs : list class_view) :
  view_schema doc = Some tcs ->
  exists sd,
    dissect_schema doc = Ok sd /\
    forall cn,
      pydict_lookup sd (JStr cn) = option_map class_entry (last_class tcs cn).
Proof.
  intros Hview. eexists. split; [exact (dissect_schema_view _ _ Hview)|].
  intros cn. rewrite lookup_fold_add_class_last.
  destruct (last_class tcs cn); reflexivity.
Qed.

Lemma dissect_schema_lookup_witness :
  exists sd,
    dissect_schema duplicate_class_doc = Ok sd /\
    forall cn,
      pydict_lookup sd (JStr cn) =
        option_map class_entry
          (last_class [("Doc", [("title", "text")]); ("Doc", [("refs", "Doc")])] cn).
Proof.
  apply (dissect_schema_lookup duplicate_class_doc
           [("Doc", [("title", "text")]); ("Doc", [("refs", "Doc")])]).
  reflexivity.
Defined.

(** X2. On a list of property descriptors of the expected shape, the two
    lists of [_get_schema_properties] are the names of the properties with a
    primitive tag and the names of the others, each in document order, and
    no property is lost. *)
Theorem get_schema_properties_in_order (ps : list json)
    (tps : list property_view) :
  mapM view_property ps = Some tps ->
  exists prim refs,
    _get_schema_properties (JArr ps) = Ok (prim, refs) /\
    prim = map (fun p => JStr (fst p))
               (List.filter (fun p => existsb (String.eqb (snd p)) primitive_tags) tps) /\
    refs = map (fun p => JStr (fst p))
               (List.filter (fun p => negb (existsb (String.eqb (snd p)) primitive_tags))
                            tps) /\
    length prim + length refs = length ps.
Proof.
  intros Hview. exists (primitive_names tps), (reference_names tps).
  split; [|split; [reflexivity|split; [reflexivity|]]].
  - unfold _get_schema_properties. cbn [py_iter mbind outcome_bind].
    now rewrite (get_schema_properties_view _ _ [] [] Hview).
  - apply mapM_Some_1, Forall2_length in Hview. rewrite Hview.
    unfold primitive_names, reference_names. rewrite !length_map.
    clear. induction tps as [|p tps IH]; [reflexivity|].
    cbn [List.filter length]. destruct (primitive_tag (snd p)); cbn [negb length]; lia.
Qed.

Lemma get_schema_properties_in_order_witness :
  exists prim refs,
    _get_schema_properties
      (JArr [JObj [("name", JStr "title"); ("dataType", JArr [JStr "text"])];
             JObj [("name", JStr "refs"); ("dataType", JArr [JStr "Doc"])];
             JObj [("name", JStr "count"); ("dataType", JArr [JStr "int"])]])
      = Ok (prim, refs) /\
    prim = [JStr "title"; JStr "count"] /\
    refs = [JStr "refs"] /\
    length prim + length refs = 3.
Proof.
  apply (get_schema_properties_in_order
           [JObj [("name", JStr "title"); ("dataType", JArr [JStr "text"])];
            JObj [("name", JStr "refs"); ("dataType", JArr [JStr "Doc"])];
            JObj [("name", JStr "count"); ("dataType", JArr [JStr "int"])]]
           [("title", "text"); ("refs", "Doc"); ("count", "int")]).
  reflexivity.
Defined.

(** X3. A class descriptor without a ['properties'] entry makes the
    derivation raise [KeyError] wherever it stands after descriptors of the
    expected shape, whatever follows it: no definition is returned, not even
    for the classes before it. *)
Theorem dissect_schema_stops_at_bad_class (kvs ckvs : list (string * json))
    (before after : list json) (tcs : list class_view) :
  dict_get kvs "classes" = Some (JArr (before ++ JObj ckvs :: after)) ->
  mapM view_class before = Some tcs ->
  dict_get ckvs "properties" = None ->
  dissect_schema (JObj kvs) = Raise KeyError.
Proof.
  intros Hc Hbefore Hmiss. unfold dissect_schema. cbn [py_get].
  rewrite Hc. cbn [default from_option id mbind outcome_bind py_iter].
  assert (Hstep : forall d, dissect_schema_step d (JObj ckvs) = Raise KeyError).
  { intros d. unfold dissect_schema_step. cbn [py_getitem]. now rewrite Hmiss. }
  rewrite for_each_app, (dissect_classes_view _ _ _ Hbefore).
  cbn [mbind outcome_bind for_each]. now rewrite Hstep.
Qed.

Lemma dissect_schema_stops_at_bad_class_witness :
  dissect_schema
    (JObj [("classes",
            JArr ([JObj [("class", JStr "Doc"); ("properties", JArr [])]] ++
                  JObj [("class", JStr "Bare")] :: [JNull]))])
    = Raise KeyError.
Proof.
  apply (dissect_schema_stops_at_bad_class _ [("class", JStr "Bare")]
           [JObj [("class", JStr "Doc"); ("properties", JArr [])]] [JNull]
           [("Doc", [])]); reflexivity.
Defined.

Lemma utf8_chars_head s g gs :
  utf8_chars s = g :: gs ->
  exists a r, g = String a r /\ all_continuation r = true.
Proof.
  revert g gs. induction s as [|c rest IH]; intros g gs; cbn [utf8_chars];
    [discriminate|].
  destruct (utf8_chars rest) as [|g' gs'] eqn:E.
  - intros [= <- <-]. exists c, EmptyString. auto.
  - destruct (opens_with_continuation g') eqn:Ho.
    + intros [= <- <-]. exists c, g'. split; [reflexivity|].
      destruct (IH _ _ eq_refl) as (a & r & -> & Hr).
      cbn [opens_with_continuation] in Ho. cbn [all_continuation].
      now rewrite Ho, Hr.
    + intros [= <- <-]. exists c, EmptyString. auto.
Qed.

Lemma utf8_chars_nonempty s : s <> EmptyString -> utf8_chars s <> [].
Proof.
  destruct s as [|c rest]; [congruence|]. intros _. cbn [utf8_chars].
  destruct (utf8_chars rest) as [|g gs]; [discriminate|].
  destruct (opens_with_continuation g); discriminate.
Qed.

Lemma one_character_not_primitive a r :
  all_continuation r = true -> is_primitive_prop (JStr (String a r)) = false.
Proof.
  intros Hr. unfold is_primitive_prop, primitive_tags.
  destruct r as [|b r'].
  - cbn [existsb String.eqb].
    repeat match goal with
           | |- context [Ascii.eqb a ?y] => destruct (Ascii.eqb a y)
           end; reflexivity.
  - cbn [all_continuation] in Hr. apply andb_prop in Hr as [Hb _].
    cbn [existsb String.eqb].
    assert (Hne : forall y, is_continuation y = false -> Ascii.eqb b y = false).
    { intros y Hy. destruct (Ascii.eqb b y) eqn:E; [|reflexivity].
      apply Ascii.eqb_eq in E. congruence. }
    rewrite !Hne by reflexivity.
    repeat match goal with
           | |- context [Ascii.eqb a ?y] => destruct (Ascii.eqb a y)
           end; reflexivity.
Qed.

(** X4. A property whose ['dataType'] is a bare string instead of a list is
    classified by the first character of that string, which is never one of
    the primitive tags: its name goes to the reference list, even for
    ["text"]; an empty string raises [IndexError]. *)
Theorem bare_string_tag_is_reference (kvs : list (string * json))
    (tag : string) (name : json) (prim refs : list json) :
  dict_get kvs "dataType" = Some (JStr tag) ->
  dict_get kvs "name" = Some name ->
  _get_schema_properties_step (prim, refs) (JObj kvs) =
    match tag with
    | EmptyString => Raise IndexError
    | String _ _ => Ok (prim, refs ++ [name])
    end.
Proof.
  intros Ht Hn. unfold _get_schema_properties_step. cbn [py_getitem].
  rewrite Ht. cbn [mbind outcome_bind py_getitem0].
  destruct tag as [|c rest]; [reflexivity|].
  destruct (utf8_chars (String c rest)) as [|g gs] eqn:E.
  - now apply utf8_chars_nonempty in E.
  - destruct (utf8_chars_head _ _ _ E) as (a & r & -> & Hr).
    cbn [mbind outcome_bind]. rewrite (one_character_not_primitive _ _ Hr).
    rewrite Hn. reflexivity.
Qed.

Lemma bare_string_tag_is_reference_witness :
  _get_schema_properties_step ([], [])
      (JObj [("name", JStr "title"); ("dataType", JStr "text")]) =
    Ok ([], [] ++ [JStr "title"]).
Proof.
  apply (bare_string_tag_is_reference
           [("name", JStr "title"); ("dataType", JStr "text")] "text"
           (JStr "title") [] []); reflexivity.
Defined.

(** * Further properties of reference dissection *)

Lemma dissect_reference_step_Ok c i p acc r x :
  dissect_reference_step c i p acc r = Ok x -> is_descriptor r = true.
Proof.
  unfold dissect_reference_step, is_descriptor.
  destruct r as [| | | | |?|kvs]; try discriminate. cbn [py_get].
  destruct (dict_get kvs "beacon") as [[| | | |b| |]|];
    cbn [default from_option id mbind outcome_bind py_split];
    try discriminate; reflexivity.
Qed.

Lemma dissect_reference_loop_Ok c i p l acc recs :
  for_each (dissect_reference_step c i p) l acc = Ok recs ->
  forallb is_descriptor l = true.
Proof.
  revert acc. induction l as [|r l IH]; intros acc; cbn [for_each forallb];
    [reflexivity|].
  intros H. apply bind_Ok in H as (acc' & Hstep & H).
  rewrite (dissect_reference_step_Ok _ _ _ _ _ _ Hstep). exact (IH _ H).
Qed.

(** X5. Reference dissection returns exactly when its argument can be
    iterated and every element is a dict whose ['beacon'], if present, is a
    string (so an empty string or an empty dict passes as no references);
    it then yields one record per element, in order. *)
Theorem dissect_reference_succeeds_iff (v from_class from_id : json)
    (from_prop : string) (recs : list reference_parameters) :
  dissect_reference v from_class from_id from_prop = Ok recs <->
  exists l,
    py_iter v = Ok l /\
    forallb is_descriptor l = true /\
    recs = map (fun r => reference_to from_class from_id from_prop
                           (last_segment (beacon_or_default r))) l.
Proof.
  unfold dissect_reference. split.
  - intros H. apply bind_Ok in H as (l & Hl & H). exists l.
    split; [exact Hl|].
    pose proof (dissect_reference_loop_Ok _ _ _ _ _ _ H) as Hd.
    split; [exact Hd|].
    rewrite (dissect_reference_loop_descriptors _ _ _ _ _ Hd) in H.
    now injection H as <-.
  - intros (l & -> & Hd & ->). cbn [mbind outcome_bind].
    now rewrite (dissect_reference_loop_descriptors _ _ _ _ _ Hd).
Qed.

Lemma dissect_reference_succeeds_iff_witness :
  dissect_reference (JStr "") (JStr "Doc") (JStr "x1") "refs" = Ok [].
Proof.
  apply (dissect_reference_succeeds_iff (JStr "") (JStr "Doc") (JStr "x1") "refs" []).
  exists []. repeat split; reflexivity.
Defined.

Lemma split_app_sep sep a b :
  split sep (a ++ String sep b)%string = split sep a ++ split sep b.
Proof.
  induction a as [|c a IH]; cbn [String.append split].
  - now rewrite Ascii.eqb_refl.
  - rewrite IH. destruct (Ascii.eqb c sep); [reflexivity|].
    destruct (split sep a) as [|seg segs] eqn:E; [now apply split_nonempty in E|].
    reflexivity.
Qed.

Lemma last_app_nonempty {A} (l1 l2 : list A) d :
  l2 <> [] -> List.last (l1 ++ l2) d = List.last l2 d.
Proof.
  intros H. induction l1 as [|x l1 IH]; [reflexivity|].
  cbn [app List.last]. destruct (l1 ++ l2) eqn:E; [|exact IH].
  apply app_eq_nil in E as [_ E]. congruence.
Qed.

(** X6. The target of a beacon depends only on what follows its last
    slash: scheme, host and class of the beacon are ignored, so two beacons
    that end in the same segment give the same target. *)
Theorem last_segment_ignores_prefix (a b : string) :
  last_segment (a ++ String "/" b)%string = last_segment b.
Proof.
  unfold last_segment. rewrite split_app_sep.
  apply last_app_nonempty, split_nonempty.
Qed.

(** * Further properties of the validator *)

Lemma validate_obj_Ok sd obj w w' :
  _validate_obj sd obj w = (Ok tt, w') ->
  exists record,
    data_objects w' = data_objects w ++ [record] /\
    class_name record = obj_class obj /\
    uuid record = obj_id obj /\
    vector record = not_none (obj_vector obj) /\
    trace w' = trace w.
Proof.
  rewrite validate_obj_eq.
  destruct obj as [| | | | |?|kvs]; try discriminate.
  destruct (hashable _); [|discriminate].
  destruct (pydict_lookup sd _) as [cd|]; [|discriminate].
  destruct (validate_properties cd (JObj kvs) w) as [[p| |] w1] eqn:Hl;
    destruct (dict_get kvs "properties") as [[| | | | |?|props]|];
    try discriminate; intros [= <-]; unfold validate_properties in Hl;
    apply validate_loop_Ok in Hl as (Ht & Ho & Hc & Hu & Hv & _);
    exists p; cbn [add_object data_objects trace];
    rewrite Ho, Hc, Hu, Hv, Ht; repeat split; reflexivity.
Qed.

Lemma validate_objects_Ok sd objs w w' :
  for_each (fun _ obj => _validate_obj sd obj) objs tt w = (Ok tt, w') ->
  exists records,
    data_objects w' = data_objects w ++ records /\
    map class_name records = map obj_class objs /\
    map uuid records = map obj_id objs /\
    map vector records = map (fun obj => not_none (obj_vector obj)) objs /\
    trace w' = trace w.
Proof.
  revert w. induction objs as [|obj objs IH]; intros w; cbn [for_each].
  - intros [= <-]. exists []. rewrite app_nil_r. repeat split; reflexivity.
  - rewrite run_bind.
    destruct (_validate_obj sd obj w) as [[[]| |] w1] eqn:E; try discriminate.
    intros H. apply validate_obj_Ok in E as (r & Ho & Hc & Hu & Hv & Ht).
    apply IH in H as (rs & Hos & Hcs & Hus & Hvs & Hts).
    exists (r :: rs). cbn [map]. rewrite Hos, Ho, <- app_assoc, Hcs, Hus, Hvs, Hc, Hu, Hv.
    rewrite Hts, Ht. repeat split; reflexivity.
Qed.

Lemma validate_and_split_objects data sd w o w' :
  validate_and_split data sd w = (o, w') ->
  (exists u, o = Ok u) ->
  for_each (fun _ obj => _validate_obj sd obj) (document_objects data) tt w = (o, w').
Proof.
  unfold validate_and_split, document_objects. rewrite run_lift_bind.
  destruct (py_get data "classes" (JArr [])) as [classes| |];
    try (intros [= <- <-] [u Hu]; discriminate).
  rewrite run_lift_bind. cbn [mbind outcome_bind].
  destruct (py_iter classes) as [objs| |];
    try (intros [= <- <-] [u Hu]; discriminate).
  auto.
Qed.

(** X7. When validation of a document returns, it has appended exactly one
    object record per object of the document, in file order: the classes,
    ids and vectors of the new records are those of the objects, one by
    one. *)
Theorem validate_and_split_in_file_order (data : json)
    (sd : schema_definition) (w w' : world) :
  validate_and_split data sd w = (Ok tt, w') ->
  exists records,
    data_objects w' = data_objects w ++ records /\
    map class_name records = map obj_class (document_objects data) /\
    map uuid records = map obj_id (document_objects data) /\
    map vector records =
      map (fun obj => not_none (obj_vector obj)) (document_objects data) /\
    trace w' = trace w.
Proof.
  intros H. apply validate_and_split_objects in H; [|eauto].
  exact (validate_objects_Ok _ _ _ _ H).
Qed.

Lemma validate_and_split_in_file_order_witness :
  exists records,
    data_objects (add_object (add_references initial_world [reference_record_example])
                             object_record_example) =
      data_objects initial_world ++ records /\
    map class_name records = map obj_class (document_objects data_doc_example) /\
    map uuid records = map obj_id (document_objects data_doc_example) /\
    map vector records =
      map (fun obj => not_none (obj_vector obj)) (document_objects data_doc_example) /\
    trace (add_object (add_references initial_world [reference_record_example])
                      object_record_example) = trace initial_world.
Proof.
  apply (validate_and_split_in_file_order data_doc_example schema_definition_example
           initial_world).
  reflexivity.
Defined.

Lemma validate_and_split_document objs sd w :
  validate_and_split (document_of objs) sd w =
    for_each (fun _ obj => _validate_obj sd obj) objs tt w.
Proof. reflexivity. Qed.

(** X8. Validation stops at the first object whose class is unknown: the
    records of the objects before it have been accumulated, the process
    exits with status 1 after naming the class, and the objects after it are
    never looked at, whatever they are. *)
Theorem validate_and_split_stops_at_unknown_class (sd : schema_definition)
    (before after : list json) (kvs : list (string * json)) (w w1 : world) :
  validate_and_split (document_of before) sd w = (Ok tt, w1) ->
  hashable (obj_class (JObj kvs)) = true ->
  pydict_lookup sd (obj_class (JObj kvs)) = None ->
  validate_and_split (document_of (before ++ JObj kvs :: after)) sd w =
    (Exit 1, log w1 (validation_failed (class_reason (obj_class (JObj kvs))))).
Proof.
  rewrite !validate_and_split_document. intros Hbefore Hhash Hmiss.
  rewrite run_for_each_app, Hbefore. cbn [for_each].
  rewrite run_bind, validate_obj_eq, Hhash, Hmiss. reflexivity.
Qed.

Lemma validate_and_split_stops_at_unknown_class_witness :
  validate_and_split
    (document_of ([raw_object_example] ++
                  JObj [("class", JStr "Nope"); ("id", JStr "x2")] :: [JNull]))
    schema_definition_example initial_world =
    (Exit 1,
     log (add_object (add_references initial_world [reference_record_example])
                     object_record_example)
         (validation_failed (class_reason (JStr "Nope")))).
Proof.
  apply (validate_and_split_stops_at_unknown_class schema_definition_example
           [raw_object_example] [JNull] [("class", JStr "Nope"); ("id", JStr "x2")]
           initial_world); reflexivity.
Defined.

(** * Further properties of the import run *)

Lemma validation_phase_eq client doc schema sd w :
  schema_get client = Ok schema ->
  dissect_schema schema = Ok sd ->
  validation_phase client (Json doc) w =
    validate_and_split doc sd
      {| trace := trace w ++ validation_start; data_objects := [];
         data_references := [] |}.
Proof.
  intros Hs Hsd.
  unfold validation_phase, DataFileImporter.__init__, ValidateAndSplitData.__init__.
  unfold mbind, M_bind, mret, M_ret, lift, print, emit, reset_lists.
  rewrite Hs. cbv beta iota. rewrite Hsd. cbv beta iota.
  unfold log, validation_start. cbn [trace data_objects data_references].
  now rewrite <- !app_assoc.
Qed.

(** X9. For a document without a ['classes'] entry, or with an empty list
    there, the import run validates nothing, adds nothing, and its only
    write call is the final flush. *)
Theorem import_of_empty_document (client : weaviate_client)
    (kvs : list (string * json)) (fail_on_error : bool) (schema : json)
    (sd : schema_definition) :
  default (JArr []) (dict_get kvs "classes") = JArr [] ->
  schema_get client = Ok schema ->
  dissect_schema schema = Ok sd ->
  exists o w t,
    import_data_from_file client (Json (JObj kvs)) fail_on_error initial_world
      = (o, w) /\
    trace w = validation_start ++
              EvPrint [[Lit "Importing data"]] :: EvFlush :: t /\
    Forall (fun ev => is_write ev = false) t.
Proof.
  intros Hc Hs Hsd.
  destruct (import_data_from_file client (Json (JObj kvs)) fail_on_error initial_world)
    as [o w] eqn:Ei.
  rewrite import_data_from_file_phases, (validation_phase_eq _ _ _ _ _ Hs Hsd) in Ei.
  unfold validate_and_split in Ei. rewrite run_lift_bind in Ei.
  cbn [py_get] in Ei. rewrite Hc in Ei. rewrite run_lift_bind in Ei.
  cbn [py_iter for_each mret M_ret] in Ei.
  unfold upload_phase in Ei. rewrite run_bind in Ei. cbn [print emit] in Ei.
  rewrite run_bind in Ei. cbn [get_world] in Ei.
  cbn [log data_objects data_references for_each] in Ei.
  rewrite run_bind in Ei. cbn [mret M_ret] in Ei.
  rewrite run_bind in Ei. cbn [mret M_ret] in Ei.
  unfold batcher_call in Ei. rewrite run_bind in Ei. cbn [emit] in Ei.
  rewrite run_bind in Ei. cbn [get_world] in Ei.
  pose proof Ei as Hq. apply quiet_run_callbacks in Hq as (t & Ht & Hq).
  exists o, w, t. split; [reflexivity|]. split; [|exact Hq].
  rewrite Ht. cbn [log trace initial_world app]. now rewrite <- !app_assoc.
Qed.

Lemma import_of_empty_document_witness :
  exists o w t,
    import_data_from_file quiet_client (Json (JObj [])) true initial_world = (o, w) /\
    trace w = validation_start ++
              EvPrint [[Lit "Importing data"]] :: EvFlush :: t /\
    Forall (fun ev => is_write ev = false) t.
Proof.
  apply (import_of_empty_document quiet_client [] true schema_doc_example
           schema_definition_example); reflexivity.
Defined.

(** X11. A result entry that is not a dict, or whose ['result'] is not one
    (a null result, say), makes the callback raise [AttributeError] in
    either mode, after the errors of the entries before it have been
    printed; with fail-on-error on this needs the entries before it to be
    free of errors. *)
Theorem exit_on_error_malformed_entry (fail_on_error : bool)
    (before after : list json) (entry : json) (w : world) :
  forallb entry_ok before = true ->
  (fail_on_error = true -> reported_errors before = []) ->
  entry_error entry = None ->
  _exit_on_error fail_on_error (JArr (before ++ entry :: after)) w =
    (Raise AttributeError, log_all w (map report (reported_errors before))).
Proof.
  intros Hbefore Hclean Hbad. rewrite exit_on_error_entries, run_for_each_app.
  assert (Hstep : forall w1,
    for_each (_exit_on_error_step fail_on_error) (entry :: after) tt w1 =
      (Raise AttributeError, w1)).
  { intros w1. cbn [for_each]. rewrite run_bind.
    unfold _exit_on_error_step. rewrite run_lift_bind.
    unfold entry_error in Hbad.
    destruct entry as [| | | | |?|kvs]; try reflexivity. cbn [py_get].
    destruct (dict_get kvs "result") as [[| | | | |?|r]|]; try discriminate;
      cbn [default from_option id]; rewrite run_lift_bind; reflexivity. }
  destruct fail_on_error.
  - rewrite (exit_on_error_loop_clean _ _ _ Hbefore (Hclean eq_refl)), Hstep.
    rewrite (Hclean eq_refl). cbn [map]. now rewrite log_all_nil.
  - rewrite (exit_on_error_loop_continue _ _ Hbefore). apply Hstep.
Qed.

Lemma exit_on_error_malformed_entry_witness :
  _exit_on_error false
    (JArr ([entry_failure_example] ++ JObj [("result", JNull)] :: [entry_success_example]))
    initial_world =
    (Raise AttributeError,
     log_all initial_world (map report (reported_errors [entry_failure_example]))).
Proof.
  apply (exit_on_error_malformed_entry false [entry_failure_example]
           [entry_success_example] (JObj [("result", JNull)]) initial_world).
  - reflexivity.
  - discriminate.
  - reflexivity.
Defined.

(** X12. When the schema cannot be fetched the import run raises what the
    client raised, before "Validating data" is printed; when the fetched
    schema cannot be dissected it raises right after that line.  In both
    cases no object of the document has been looked at and nothing was
    written. *)
Theorem import_schema_failure (client : weaviate_client) (doc : json)
    (fail_on_error : bool) (e : exn) :
  (schema_get client = Raise e ->
   import_data_from_file client (Json doc) fail_on_error initial_world =
     (Raise e, log_all initial_world [EvBatchConfigure 512; EvSchemaGet])) /\
  (forall schema,
     schema_get client = Ok schema ->
     dissect_schema schema = Raise e ->
     import_data_from_file client (Json doc) fail_on_error initial_world =
       (Raise e, log_all initial_world validation_start)).
Proof.
  split.
  - intros Hs. unfold import_data_from_file, load, DataFileImporter.__init__.
    unfold mbind, M_bind, mret, M_ret, lift, print, emit.
    rewrite Hs. reflexivity.
  - intros schema Hs Hd.
    unfold import_data_from_file, load, DataFileImporter.__init__,
      ValidateAndSplitData.__init__.
    unfold mbind, M_bind, mret, M_ret, lift, print, emit.
    rewrite Hs. cbv beta iota. rewrite Hd. reflexivity.
Qed.

Lemma import_schema_failure_witness :
  import_data_from_file
    {| schema_get := Raise ClientError; schema_delete_all := Ok tt;
       schema_create := fun _ => Ok tt; batch_callbacks := fun _ => [] |}
    (Json data_doc_example) true initial_world =
    (Raise ClientError, log_all initial_world [EvBatchConfigure 512; EvSchemaGet]).
Proof.
  apply (proj1 (import_schema_failure _ data_doc_example true ClientError)).
  reflexivity.
Defined.

(** * Further properties of bulk delete *)

Lemma delete_all_trace client w o w' :
  _delete_all client w = (o, w') ->
  exists t, trace w' = trace w ++ t /\ Forall (fun ev => is_prompt ev = false) t.
Proof.
  unfold _delete_all. unfold mbind, M_bind, mret, M_ret, emit, lift.
  destruct (schema_get client) as [s| |]; cbv beta iota.
  2,3: intros [= <- <-]; exists [EvSchemaGet]; split; [reflexivity|];
       repeat constructor.
  destruct (schema_delete_all client) as [[]| |]; cbv beta iota.
  2,3: intros [= <- <-]; exists [EvSchemaGet; EvSchemaDeleteAll];
       split; [cbn; now rewrite <- !app_assoc|]; repeat constructor.
  intros H.
  exists [EvSchemaGet; EvSchemaDeleteAll; EvSchemaCreate s].
  split; [|repeat constructor].
  destruct (schema_create client s); injection H as <- <-; cbn;
    now rewrite <- !app_assoc.
Qed.

(** X13. With the force flag the user is never asked, whatever the service
    does; without it the question is asked first, and only once. *)
Theorem delete_prompts_only_without_force (client : weaviate_client)
    (answer : string -> bool) (force : bool) (o : outcome unit) (w : world) :
  delete_all_data client answer force initial_world = (o, w) ->
  if force
  then Forall (fun ev => is_prompt ev = false) (trace w)
  else exists t, trace w = EvPrompt delete_question :: t /\
                 Forall (fun ev => is_prompt ev = false) t.
Proof.
  unfold delete_all_data. destruct force.
  - rewrite run_bind.
    destruct (_delete_all client initial_world) as [o1 w1] eqn:E.
    apply delete_all_trace in E as (t & Ht & Hq). cbn [initial_world trace app] in Ht.
    destruct o1 as [[]| |]; intros [= <- <-]; now rewrite Ht.
  - unfold is_question_answer_yes. rewrite run_bind.
    unfold mbind at 1, M_bind at 1, mret, M_ret, emit.
    destruct (answer _); cbn [negb].
    + intros H. apply delete_all_trace in H as (t & Ht & Hq).
      exists t. split; [exact Ht|exact Hq].
    + intros [= <- <-]. exists []. split; [reflexivity|constructor].
Qed.

Lemma delete_prompts_only_without_force_witness :
  Forall (fun ev => is_prompt ev = false)
         [EvSchemaGet; EvSchemaDeleteAll; EvSchemaCreate schema_doc_example].
Proof.
  apply (delete_prompts_only_without_force quiet_client (fun _ => false) true
           (Exit 0)
           {| trace := [EvSchemaGet; EvSchemaDeleteAll;
                        EvSchemaCreate schema_doc_example];
              data_objects := []; data_references := [] |}).
  reflexivity.
Defined.

(** X14. When the delete goes ahead and fetching the schema raises, nothing
    is deleted: the fetch is the only schema call, and the process ends with
    that exception.  When the fetch returns and [delete_all] raises, the
    schema is not recreated. *)
Theorem delete_stops_at_failing_call (client : weaviate_client)
    (answer : string -> bool) (force : bool) (e : exn) :
  force || answer delete_question = true ->
  (schema_get client = Raise e ->
   exists w,
     delete_all_data client answer force initial_world = (Raise e, w) /\
     List.filter is_schema_call (trace w) = [EvSchemaGet]) /\
  (forall s,
     schema_get client = Ok s ->
     schema_delete_all client = Raise e ->
     exists w,
       delete_all_data client answer force initial_world = (Raise e, w) /\
       List.filter is_schema_call (trace w) = [EvSchemaGet; EvSchemaDeleteAll]).
Proof.
  unfold delete_question. intros H. split.
  - intros Hs. unfold delete_all_data, is_question_answer_yes, _delete_all.
    unfold mbind, M_bind, mret, M_ret, emit, lift, sys_exit.
    destruct force.
    + rewrite Hs. eexists. split; reflexivity.
    + cbn [orb] in H. rewrite H. cbv beta iota. cbn [negb]. rewrite Hs.
      eexists. split; reflexivity.
  - intros s Hs Hd. unfold delete_all_data, is_question_answer_yes, _delete_all.
    unfold mbind, M_bind, mret, M_ret, emit, lift, sys_exit.
    destruct force.
    + rewrite Hs. cbv beta iota. rewrite Hd. eexists. split; reflexivity.
    + cbn [orb] in H. rewrite H. cbv beta iota. cbn [negb]. rewrite Hs.
      cbv beta iota. rewrite Hd. eexists. split; reflexivity.
Qed.

Lemma delete_stops_at_failing_call_witness :
  exists w,
    delete_all_data
      {| schema_get := Raise ClientError; schema_delete_all := Ok tt;
         schema_create := fun _ => Ok tt; batch_callbacks := fun _ => [] |}
      (fun _ => false) true initial_world = (Raise ClientError, w) /\
    List.filter is_schema_call (trace w) = [EvSchemaGet].
Proof.
  apply (proj1 (delete_stops_at_failing_call _ (fun _ => false) true ClientError
                  eq_refl)).
  reflexivity.
Defined.

(** X15. When all classes have been deleted and recreating the schema
    raises, the process ends with that exception and status 1, also under
    the force flag, whose [sys.exit(0)] is not reached; [create] was called
    once, there is no second attempt, and the remote schema stays deleted. *)
Theorem delete_loses_schema_when_create_fails (client : weaviate_client)
    (answer : string -> bool) (force : bool) (s : json) (e : exn) :
  force || answer delete_question = true ->
  schema_get client = Ok s ->
  schema_delete_all client = Ok tt ->
  schema_create client s = Raise e ->
  exists w,
    delete_all_data client answer force initial_world = (Raise e, w) /\
    exit_status (Raise (A:=unit) e) = 1%Z /\
    List.filter is_schema_call (trace w) =
      [EvSchemaGet; EvSchemaDeleteAll; EvSchemaCreate s].
Proof.
  unfold delete_question. intros H Hs Hd Hc.
  unfold delete_all_data, is_question_answer_yes, _delete_all.
  unfold mbind, M_bind, mret, M_ret, emit, lift, sys_exit.
  destruct force.
  - rewrite Hs. cbv beta iota. rewrite Hd. cbv beta iota. rewrite Hc.
    eexists. split; [reflexivity|]. split; reflexivity.
  - cbn [orb] in H. rewrite H. cbv beta iota. cbn [negb].
    rewrite Hs. cbv beta iota. rewrite Hd. cbv beta iota. rewrite Hc.
    eexists. split; [reflexivity|]. split; reflexivity.
Qed.

Lemma delete_loses_schema_when_create_fails_witness :
  exists w,
    delete_all_data
      {| schema_get := Ok schema_doc_example; schema_delete_all := Ok tt;
         schema_create := fun _ => Raise ClientError;
         batch_callbacks := fun _ => [] |}
      (fun _ => true) true initial_world = (Raise ClientError, w) /\
    exit_status (Raise (A:=unit) ClientError) = 1%Z /\
    List.filter is_schema_call (trace w) =
      [EvSchemaGet; EvSchemaDeleteAll; EvSchemaCreate schema_doc_example].
Proof.
  apply (delete_loses_schema_when_create_fails _ (fun _ => true) true
           schema_doc_example ClientError); reflexivity.
Defined.

(** * Export *)

Lemma format_page_app cn props iv es1 es2 results :
  format_page cn props iv (es1 ++ es2) results =
    format_page cn props iv es1 results ≫= format_page cn props iv es2.
Proof. unfold format_page. apply for_each_app. Qed.

Lemma format_page_results cn props iv es results :
  format_page cn props iv es results =
    match format_page cn props iv es [] with
    | Ok formatted => Ok (results ++ formatted)
    | Exit c => Exit c
    | Raise e => Raise e
    end.
Proof.
  unfold format_page. revert results.
  induction es as [|e es IH]; intros results; cbn [for_each].
  - cbn [mret outcome_ret]. now rewrite app_nil_r.
  - destruct (format_entity cn props iv e) as [fe| |]; cbn [mbind outcome_bind];
      try reflexivity.
    rewrite (IH (results ++ [fe])), (IH ([] ++ [fe])).
    destruct (for_each _ es []); try reflexivity.
    cbn [app]. now rewrite <- app_assoc.
Qed.

Lemma export_turn_end client cn props bs iv cursor results response :
  query_do client (batch_request cn props bs iv cursor) = Ok response ->
  page_of response cn = Ok (JArr []) ->
  export_turn client cn props bs iv cursor results = Ok (inl results).
Proof.
  intros Hq Hp. unfold export_turn, _get_batch_with_cursor.
  rewrite Hq. cbn [mbind outcome_bind]. rewrite Hp. reflexivity.
Qed.

Lemma export_turn_more client cn props bs iv cursor results response entities
    results' next :
  query_do client (batch_request cn props bs iv cursor) = Ok response ->
  page_of response cn = Ok (JArr entities) ->
  entities <> [] ->
  format_page cn props iv entities results = Ok results' ->
  last_id (JArr entities) = Ok next ->
  export_turn client cn props bs iv cursor results = Ok (inr (next, results')).
Proof.
  intros Hq Hp Hne Hf Hl. unfold export_turn, _get_batch_with_cursor.
  rewrite Hq. cbn [mbind outcome_bind]. rewrite Hp.
  cbn [mbind outcome_bind py_len py_iter].
  destruct entities as [|e es]; [congruence|]. cbn [length Nat.eqb].
  rewrite Hf. cbn [mbind outcome_bind]. rewrite Hl. reflexivity.
Qed.

Lemma export_loop_pages client cn props bs iv pages :
  forall cursor results calls fuel formatted,
    paged client (batch_request cn props bs iv) cn cursor pages ->
    format_page cn props iv (concat pages) results = Ok formatted ->
    length pages < fuel ->
    export_loop client cn props bs iv fuel cursor results calls =
      Some (Ok formatted,
            calls ++ map (fun c => CallQuery (batch_request cn props bs iv c))
                         (page_cursors cursor pages)).
Proof.
  induction pages as [|entities pages IH];
    intros cursor results calls fuel formatted Hpaged Hfmt Hfuel;
    (destruct fuel as [|fuel]; [cbn [length] in Hfuel; lia|]);
    cbn [export_loop paged page_cursors concat map] in *.
  - destruct Hpaged as (response & Hq & Hp).
    rewrite (export_turn_end _ _ _ _ _ _ _ _ Hq Hp).
    cbn [format_page for_each mret outcome_ret] in Hfmt. now injection Hfmt as <-.
  - destruct Hpaged as (Hne & response & next & Hq & Hp & Hl & Hrest).
    rewrite format_page_app in Hfmt. apply bind_Ok in Hfmt as (results' & Hf1 & Hf2).
    rewrite (export_turn_more _ _ _ _ _ _ _ _ _ _ _ Hq Hp Hne Hf1 Hl).
    cbn [length] in Hfuel.
    rewrite Hl. rewrite (IH next results' _ fuel formatted Hrest Hf2) by lia.
    now rewrite <- app_assoc.
Qed.

(** X16. When the service answers the request without cursor with a first
    page, each request carrying the id of the last entity of a page with the
    next page, and the last one with an empty page, [export_class] returns
    the formatted entities of all pages in order.  It fetched the class
    schema once, first, and made one query per page and one more, each with
    the id of the last entity of the previous page as cursor. *)
Theorem export_class_follows_cursor (client : query_client) (class_name : string)
    (batch_size : Z) (include_vectors fail_on_error : bool) (schema : json)
    (props : list json) (pages : list (list json))
    (formatted : list exported_entity) (fuel : nat) :
  class_schema_get client class_name = Ok schema ->
  class_property_names schema = Ok props ->
  paged client (batch_request class_name props batch_size include_vectors)
        class_name JNull pages ->
  format_page class_name props include_vectors (concat pages) [] = Ok formatted ->
  length pages < fuel ->
  export_class client class_name batch_size include_vectors fail_on_error fuel =
    Some (Ok formatted,
          CallSchemaGet class_name ::
          map (fun c => CallQuery (batch_request class_name props batch_size
                                                 include_vectors c))
              (page_cursors JNull pages)).
Proof.
  intros Hs Hp Hpaged Hfmt Hfuel. unfold export_class.
  rewrite Hs. cbn [mbind outcome_bind]. rewrite Hp.
  now rewrite (export_loop_pages _ _ _ _ _ pages JNull [] _ fuel formatted).
Qed.

Lemma export_class_follows_cursor_witness :
  export_class two_page_client "WebPage" 150 false true 3 =
    Some (Ok [{| ex_class := "WebPage"; ex_id := JStr "id1";
                 ex_properties := [(JStr "url", JStr "u1"); (JStr "title", JStr "t1")];
                 ex_vector := None |};
              {| ex_class := "WebPage"; ex_id := JStr "id2";
                 ex_properties := [(JStr "url", JStr "u2"); (JStr "title", JStr "t2")];
                 ex_vector := None |}],
          CallSchemaGet "WebPage" ::
          map (fun c => CallQuery (batch_request "WebPage" [JStr "url"; JStr "title"]
                                                 150 false c))
              [JNull; JStr "id1"; JStr "id2"]).
Proof.
  apply (export_class_follows_cursor two_page_client "WebPage" 150 false true
           web_page_schema [JStr "url"; JStr "title"]
           [[web_page_entity "id1" "u1" "t1"]; [web_page_entity "id2" "u2" "t2"]]).
  - reflexivity.
  - reflexivity.
  - cbn [paged]. split; [discriminate|]. eexists _, _.
    split; [reflexivity|]. split; [reflexivity|]. split; [reflexivity|].
    split; [discriminate|]. eexists _, _.
    split; [reflexivity|]. split; [reflexivity|]. split; [reflexivity|].
    eexists. split; reflexivity.
  - reflexivity.
  - cbn [length]. lia.
Defined.

Lemma export_loop_never_returns client cn props bs iv :
  (forall request,
     exists response entities formatted next,
       query_do client request = Ok response /\
       page_of response cn = Ok (JArr entities) /\
       entities <> [] /\
       format_page cn props iv entities [] = Ok formatted /\
       last_id (JArr entities) = Ok next) ->
  forall fuel cursor results calls,
    export_loop client cn props bs iv fuel cursor results calls = None.
Proof.
  intros Hserve. induction fuel as [|fuel IH]; intros cursor results calls;
    cbn [export_loop]; [reflexivity|].
  destruct (Hserve (batch_request cn props bs iv cursor))
    as (response & entities & formatted & next & Hq & Hp & Hne & Hf & Hl).
  assert (Hf' : format_page cn props iv entities results = Ok (results ++ formatted))
    by (now rewrite format_page_results, Hf).
  rewrite (export_turn_more _ _ _ _ _ _ _ _ _ _ _ Hq Hp Hne Hf' Hl). apply IH.
Qed.

(** X17. The loop of [export_class] ends only on an empty page: against a
    service that answers every request with a non-empty page of well-formed
    entities (one that ignores the cursor, say), the export never returns,
    however many turns it is given. *)
Theorem export_class_never_returns (client : query_client) (class_name : string)
    (batch_size : Z) (include_vectors fail_on_error : bool) (schema : json)
    (props : list json) (fuel : nat) :
  class_schema_get client class_name = Ok schema ->
  class_property_names schema = Ok props ->
  (forall request,
     exists response entities formatted next,
       query_do client request = Ok response /\
       page_of response class_name = Ok (JArr entities) /\
       entities <> [] /\
       format_page class_name props include_vectors entities [] = Ok formatted /\
       last_id (JArr entities) = Ok next) ->
  export_class client class_name batch_size include_vectors fail_on_error fuel = None.
Proof.
  intros Hs Hp Hserve. unfold export_class.
  rewrite Hs. cbn [mbind outcome_bind]. rewrite Hp.
  now apply export_loop_never_returns.
Qed.

Lemma export_class_never_returns_witness :
  export_class repeating_client "WebPage" 150 true true 1000 = None.
Proof.
  apply (export_class_never_returns repeating_client "WebPage" 150 true true
           web_page_schema [JStr "url"; JStr "title"] 1000).
  - reflexivity.
  - reflexivity.
  - intros request. eexists _, _, _, _.
    split; [reflexivity|]. split; [reflexivity|]. split; [discriminate|].
    split; reflexivity.
Defined.

(** X18. When fetching the class schema raises, [export_class] raises the
    same; when the class schema has no ['properties'] entry it raises
    [TypeError].  In both cases no query has been made. *)
Theorem export_class_schema_failures (client : query_client) (class_name : string)
    (batch_size : Z) (include_vectors fail_on_error : bool) (fuel : nat) :
  (forall e,
     class_schema_get client class_name = Raise e ->
     export_class client class_name batch_size include_vectors fail_on_error fuel =
       Some (Raise e, [CallSchemaGet class_name])) /\
  (forall kvs,
     class_schema_get client class_name = Ok (JObj kvs) ->
     dict_get kvs "properties" = None ->
     export_class client class_name batch_size include_vectors fail_on_error fuel =
       Some (Raise TypeError, [CallSchemaGet class_name])).
Proof.
  split.
  - intros e Hs. unfold export_class. now rewrite Hs.
  - intros kvs Hs Hp. unfold export_class, class_property_names.
    rewrite Hs. cbn [mbind outcome_bind py_get]. now rewrite Hp.
Qed.

Lemma export_class_schema_failures_witness :
  export_class
    {| class_schema_get := fun _ => Ok (JObj [("class", JStr "WebPage")]);
       query_do := fun _ => Ok JNull |}
    "WebPage" 150 true true 0 =
    Some (Raise TypeError, [CallSchemaGet "WebPage"]).
Proof.
  apply (proj2 (export_class_schema_failures _ "WebPage" 150 true true 0)
           [("class", JStr "WebPage")]); reflexivity.
Defined.

Lemma pydict_lookup_app {V} (d1 d2 : pydict V) k :
  pydict_lookup (d1 ++ d2) k =
    match pydict_lookup d1 k with
    | Some x => Some x
    | None => pydict_lookup d2 k
    end.
Proof.
  induction d1 as [|[k' v'] d1 IH]; cbn [app pydict_lookup]; [reflexivity|].
  destruct (key_eqb k k'); auto.
Qed.

Lemma pydict_set_fresh {V} (d : pydict V) n v :
  pydict_lookup d (JStr n) = None -> pydict_set d (JStr n) v = d ++ [(JStr n, v)].
Proof.
  induction d as [|[k' v'] d IH]; cbn [pydict_lookup pydict_set app];
    [reflexivity|].
  destruct (key_eqb (JStr n) k'); [discriminate|].
  intros H. now rewrite IH.
Qed.

Lemma entity_properties_loop kvs names values :
  Forall2 (fun n v => dict_get kvs n = Some v) names values ->
  List.NoDup names ->
  forall d,
    (forall n, In n names -> pydict_lookup d (JStr n) = None) ->
    for_each (fun d prop => value ← py_getitem_key (JObj kvs) prop;
                            pydict_setitem d prop value)
             (map JStr names) d =
      Ok (d ++ combine (map JStr names) values).
Proof.
  induction 1 as [|n v names values Hn _ IH]; intros Hnd d Hfresh;
    cbn [map for_each combine].
  - cbn [mret outcome_ret]. now rewrite app_nil_r.
  - apply NoDup_cons_iff in Hnd as [Hnot Hnd].
    cbn [py_getitem_key]. rewrite Hn. cbn [mbind outcome_bind].
    unfold pydict_setitem. cbn [hashable mbind outcome_bind].
    rewrite pydict_set_fresh by (apply Hfresh; left; reflexivity).
    rewrite IH; [now rewrite <- app_assoc|exact Hnd|].
    intros n' Hin. rewrite pydict_lookup_app, (Hfresh n') by (right; exact Hin).
    cbn [pydict_lookup key_eqb].
    destruct (String.eqb n' n) eqn:E; [|reflexivity].
    apply String.eqb_eq in E as ->. contradiction.
Qed.

(** X19. For an entity that carries an id under ['_additional'] and a value
    for every property name of the class (the names being distinct), the
    exported record holds the class name, that id and exactly those
    properties with their values, in schema order.  It holds the entity's
    vector when vectors are included, a missing vector then being a
    [KeyError], and no vector entry otherwise. *)
Theorem format_entity_copies_properties (class_name : string)
    (names : list string) (values : list json) (include_vectors : bool)
    (kvs akvs : list (string * json)) (id : json) :
  dict_get kvs "_additional" = Some (JObj akvs) ->
  dict_get akvs "id" = Some id ->
  List.NoDup names ->
  mapM (dict_get kvs) names = Some values ->
  format_entity class_name (map JStr names) include_vectors (JObj kvs) =
    if include_vectors then
      match dict_get akvs "vector" with
      | Some v =>
          Ok {| ex_class := class_name; ex_id := id;
                ex_properties := combine (map JStr names) values;
                ex_vector := Some v |}
      | None => Raise KeyError
      end
    else
      Ok {| ex_class := class_name; ex_id := id;
            ex_properties := combine (map JStr names) values;
            ex_vector := None |}.
Proof.
  intros Ha Hid Hnd Hvals. apply mapM_Some_1 in Hvals.
  unfold format_entity, entity_properties. cbn [py_getitem].
  rewrite Ha. cbn [mbind outcome_bind py_getitem]. rewrite Hid.
  cbn [mbind outcome_bind].
  rewrite (entity_properties_loop _ _ _ Hvals Hnd []) by reflexivity.
  cbn [mbind outcome_bind app]. destruct include_vectors; [|reflexivity].
  destruct (dict_get akvs "vector"); reflexivity.
Qed.

Lemma format_entity_copies_properties_witness :
  format_entity "WebPage" (map JStr ["url"; "title"]) true
                (web_page_entity "id1" "u1" "t1") =
    Ok {| ex_class := "WebPage"; ex_id := JStr "id1";
          ex_properties := combine (map JStr ["url"; "title"]) [JStr "u1"; JStr "t1"];
          ex_vector := Some (JArr [JInt 1; JInt 2]) |}.
Proof.
  apply (format_entity_copies_properties "WebPage" ["url"; "title"]
           [JStr "u1"; JStr "t1"] true _
           [("id", JStr "id1"); ("vector", JArr [JInt 1; JInt 2])] (JStr "id1")).
  - reflexivity.
  - reflexivity.
  - repeat constructor; simpl; intuition discriminate.
  - reflexivity.
Defined.

Lemma entity_properties_missing kvs props p :
  Forall (fun x => exists s, x = JStr s) props ->
  In (JStr p) props ->
  dict_get kvs p = None ->
  forall d,
    for_each (fun d prop => value ← py_getitem_key (JObj kvs) prop;
                            pydict_setitem d prop value) props d = Raise KeyError.
Proof.
  induction 1 as [|x props (s & ->) _ IH]; intros Hin Hmiss d; [destruct Hin|].
  cbn [for_each py_getitem_key].
  destruct (dict_get kvs s) as [v|] eqn:Es; [|reflexivity].
  cbn [mbind outcome_bind]. unfold pydict_setitem at 1.
  cbn [hashable mbind outcome_bind]. apply IH; [|exact Hmiss].
  destruct Hin as [[= ->]|Hin]; [congruence|exact Hin].
Qed.

(** X20. The export is all or nothing: when an entity of the first page
    lacks one of the class's properties, [export_class] raises [KeyError]
    after that single query, and the entities formatted before it are
    lost. *)
Theorem export_class_missing_property (client : query_client)
    (class_name : string) (batch_size : Z) (include_vectors fail_on_error : bool)
    (schema response : json) (props before after : list json)
    (kvs akvs : list (string * json)) (id : json) (p : string)
    (formatted : list exported_entity) (fuel : nat) :
  class_schema_get client class_name = Ok schema ->
  class_property_names schema = Ok props ->
  Forall (fun x => exists s, x = JStr s) props ->
  query_do client (batch_request class_name props batch_size include_vectors JNull)
    = Ok response ->
  page_of response class_name = Ok (JArr (before ++ JObj kvs :: after)) ->
  format_page class_name props include_vectors before [] = Ok formatted ->
  dict_get kvs "_additional" = Some (JObj akvs) ->
  dict_get akvs "id" = Some id ->
  In (JStr p) props ->
  dict_get kvs p = None ->
  export_class client class_name batch_size include_vectors fail_on_error (S fuel) =
    Some (Raise KeyError,
          [CallSchemaGet class_name;
           CallQuery (batch_request class_name props batch_size include_vectors
                                    JNull)]).
Proof.
  intros Hs Hp Hstr Hq Hpage Hbefore Ha Hid Hin Hmiss.
  unfold export_class. rewrite Hs. cbn [mbind outcome_bind]. rewrite Hp.
  cbn [export_loop].
  assert (Hturn : export_turn client class_name props batch_size include_vectors
                              JNull [] = Raise KeyError).
  { unfold export_turn, _get_batch_with_cursor. rewrite Hq.
    cbn [mbind outcome_bind]. rewrite Hpage. cbn [mbind outcome_bind py_len py_iter].
    rewrite length_app. cbn [length].
    replace (length before + S (length after)) with (S (length before + length after))
      by lia.
    cbn [Nat.eqb]. rewrite format_page_app, Hbefore. cbn [mbind outcome_bind].
    assert (Hfe : format_entity class_name props include_vectors (JObj kvs)
                  = Raise KeyError).
    { unfold format_entity. cbn [py_getitem]. rewrite Ha.
      cbn [mbind outcome_bind py_getitem]. rewrite Hid.
      cbn [mbind outcome_bind]. unfold entity_properties.
      now rewrite (entity_properties_missing _ _ _ Hstr Hin Hmiss). }
    unfold format_page. cbn [for_each]. now rewrite Hfe. }
  rewrite Hturn. reflexivity.
Qed.

Lemma export_class_missing_property_witness :
  export_class
    {| class_schema_get := fun _ => Ok web_page_schema;
       query_do := fun _ =>
         Ok (web_page_response
               ([web_page_entity "id1" "u1" "t1"] ++
                JObj [("_additional", JObj [("id", JStr "id2")]); ("url", JStr "u2")]
                :: [])) |}
    "WebPage" 150 false true 1 =
    Some (Raise KeyError,
          [CallSchemaGet "WebPage";
           CallQuery (batch_request "WebPage" [JStr "url"; JStr "title"] 150 false
                                    JNull)]).
Proof.
  eapply (export_class_missing_property _ "WebPage" 150 false true web_page_schema
            _ [JStr "url"; JStr "title"] [web_page_entity "id1" "u1" "t1"] []
            [("_additional", JObj [("id", JStr "id2")]); ("url", JStr "u2")]
            [("id", JStr "id2")] (JStr "id2") "title").
  - reflexivity.
  - reflexivity.
  - repeat constructor; eexists; reflexivity.
  - reflexivity.
  - reflexivity.
  - reflexivity.
  - reflexivity.
  - reflexivity.
  - right. left. reflexivity.
  - reflexivity.
Defined.

Lemma export_loop_calls client cn props bs iv fuel :
  forall cursor results calls o calls',
    export_loop client cn props bs iv fuel cursor results calls = Some (o, calls') ->
    exists cursors,
      calls' = calls ++ map (fun c => CallQuery (batch_request cn props bs iv c))
                            (cursor :: cursors).
Proof.
  induction fuel as [|fuel IH]; intros cursor results calls o calls';
    cbn [export_loop]; [discriminate|].
  destruct (export_turn client cn props bs iv cursor results)
    as [[r|[next r]]| |].
  - intros [= <- <-]. exists []. reflexivity.
  - intros H. apply IH in H as (cursors & ->). exists (next :: cursors).
    cbn [map]. now rewrite <- app_assoc.
  - intros [= <- <-]. exists []. reflexivity.
  - intros [= <- <-]. exists []. reflexivity.
Qed.

(** X21. Whatever the service answers, when [export_class] ends it has
    fetched the class schema exactly once, as its first call, and every call
    after that is a query for the same class with the batch size as limit
    and the additional fields ["id"] and ["vector"] (or ["id"] and the empty
    string when vectors are left out); the first query carries no cursor. *)
Theorem export_class_calls (client : query_client) (class_name : string)
    (batch_size : Z) (include_vectors fail_on_error : bool) (fuel : nat)
    (o : outcome (list exported_entity)) (calls : list export_call) :
  export_class client class_name batch_size include_vectors fail_on_error fuel
    = Some (o, calls) ->
  exists queries,
    calls = CallSchemaGet class_name :: map CallQuery queries /\
    Forall (fun r => q_class_name r = class_name /\
                     q_limit r = batch_size /\
                     q_additional r =
                       ["id"; if include_vectors then "vector" else ""]) queries /\
    (forall r rest, queries = r :: rest -> q_after r = None).
Proof.
  unfold export_class.
  destruct (class_schema_get client class_name ≫= class_property_names)
    as [props| |].
  - intros H. apply export_loop_calls in H as (cursors & ->).
    exists (map (batch_request class_name props batch_size include_vectors)
                (JNull :: cursors)).
    split; [cbn [app]; now rewrite map_map|]. split.
    + apply List.Forall_forall. intros r Hr. apply in_map_iff in Hr as (c & <- & _).
      repeat split; reflexivity.
    + intros r rest [= <- _]. reflexivity.
  - intros [= <- <-]. exists []. split; [reflexivity|]. split; [constructor|].
    discriminate.
  - intros [= <- <-]. exists []. split; [reflexivity|]. split; [constructor|].
    discriminate.
Qed.

Lemma export_class_calls_witness :
  exists queries,
    [CallSchemaGet "WebPage";
     CallQuery (batch_request "WebPage" [JStr "url"; JStr "title"] 150 false JNull);
     CallQuery (batch_request "WebPage" [JStr "url"; JStr "title"] 150 false (JStr "id1"));
     CallQuery (batch_request "WebPage" [JStr "url"; JStr "title"] 150 false (JStr "id2"))]
      = CallSchemaGet "WebPage" :: map CallQuery queries /\
    Forall (fun r => q_class_name r = "WebPage" /\
                     q_limit r = 150%Z /\
                     q_additional r = ["id"; ""]) queries /\
    (forall r rest, queries = r :: rest -> q_after r = None).
Proof.
  eapply (export_class_calls two_page_client "WebPage" 150 false true 3).
  reflexivity.
Defined.

(** * Fail-fast upload and ill-typed input *)

Lemma run_callbacks_fail before pre entry e post later w :
  Forall (fun b => batch_ok b = true /\ batch_errors b = []) before ->
  forallb entry_ok pre = true -> reported_errors pre = [] ->
  entry_error entry = Some e -> e <> JNull ->
  run_callbacks true (before ++ JArr (pre ++ entry :: post) :: later) w =
    (Exit 1, log w (report e)).
Proof.
  intros Hbefore Hpre Hclean He Hnull.
  unfold run_callbacks. rewrite run_for_each_app.
  pose proof (run_callbacks_clean true before w Hbefore) as Hb.
  unfold run_callbacks in Hb. rewrite Hb. cbn [for_each].
  rewrite run_bind, exit_on_error_entries.
  rewrite (exit_on_error_loop_fail pre entry e post w); auto using is_null_false.
Qed.

(** X22. With fail-on-error on, an error reported in the callbacks of the
    first [add_data_object] call ends the run there with status 1: the trace
    ends with that call and the printed error, so no other record is sent and
    there is no flush. *)
Theorem import_stops_at_first_reported_error (client : weaviate_client)
    (file : data_file) (wv : world) (obj : import_object_parameter)
    (rest : list import_object_parameter) (before pre post later : list json)
    (entry e : json) :
  validation_phase client file initial_world = (Ok tt, wv) ->
  data_objects wv = obj :: rest ->
  batch_callbacks client
    (trace wv ++ [EvPrint [[Lit "Importing data"]]; EvAddDataObject obj]) =
    before ++ JArr (pre ++ entry :: post) :: later ->
  Forall (fun b => batch_ok b = true /\ batch_errors b = []) before ->
  forallb entry_ok pre = true ->
  reported_errors pre = [] ->
  entry_error entry = Some e ->
  e <> JNull ->
  exists w,
    import_data_from_file client file true initial_world = (Exit 1, w) /\
    trace w = trace wv ++
              [EvPrint [[Lit "Importing data"]]; EvAddDataObject obj; report e].
Proof.
  intros Hv Hobjs Hcb Hbefore Hpre Hclean He Hnull.
  rewrite import_data_from_file_phases, Hv. unfold upload_phase.
  rewrite run_bind. cbn [print emit]. rewrite run_bind. cbn [get_world].
  rewrite run_bind. cbn [log data_objects]. rewrite Hobjs. cbn [for_each].
  rewrite run_bind. unfold batcher_call at 1. rewrite run_bind. cbn [emit].
  rewrite run_bind. cbn [get_world log trace].
  rewrite <- app_assoc. cbn [app]. rewrite Hcb.
  rewrite (run_callbacks_fail _ _ _ _ _ _ _ Hbefore Hpre Hclean He Hnull).
  eexists. split; [reflexivity|]. cbn [log trace].
  rewrite <- !app_assoc. reflexivity.
Qed.

Lemma import_stops_at_first_reported_error_witness :
  exists w,
    import_data_from_file failing_client (Json data_doc_example) true initial_world
      = (Exit 1, w) /\
    trace w = validation_start ++
              [EvPrint [[Lit "Importing data"]]; EvAddDataObject object_record_example;
               report entry_failure_error].
Proof.
  apply (import_stops_at_first_reported_error failing_client (Json data_doc_example)
           {| trace := validation_start; data_objects := [object_record_example];
              data_references := [reference_record_example] |}
           object_record_example [] [] [] [] [] entry_failure_example
           entry_failure_error).
  - reflexivity.
  - reflexivity.
  - reflexivity.
  - constructor.
  - reflexivity.
  - reflexivity.
  - reflexivity.
  - discriminate.
Defined.

(** X23. On ill-typed input the validator raises instead of reporting: an
    object that is not a dict, or whose ['properties'] is not one, gives
    [AttributeError], and a class name that is a list or a dict gives
    [TypeError], even when that class could not be in the schema.  Nothing
    is printed and no record is added. *)
Theorem validate_obj_ill_typed (sd : schema_definition) (obj : json) (w : world) :
  ((forall kvs, obj <> JObj kvs) ->
   _validate_obj sd obj w = (Raise AttributeError, w)) /\
  (forall kvs,
     obj = JObj kvs -> hashable (obj_class obj) = false ->
     _validate_obj sd obj w = (Raise TypeError, w)) /\
  (forall kvs cd v,
     obj = JObj kvs -> hashable (obj_class obj) = true ->
     pydict_lookup sd (obj_class obj) = Some cd ->
     dict_get kvs "properties" = Some v ->
     (forall props, v <> JObj props) ->
     _validate_obj sd obj w = (Raise AttributeError, w)).
Proof.
  rewrite validate_obj_eq. split; [|split].
  - intros H. destruct obj; try reflexivity. now contradiction (H kvs).
  - intros kvs -> Hh. now rewrite Hh.
  - intros kvs cd v -> Hh Hcd Hp Hv. rewrite Hh, Hcd, Hp.
    destruct v; try reflexivity. now contradiction (Hv kvs0).
Qed.

Lemma validate_obj_ill_typed_witness :
  _validate_obj schema_definition_example
    (JObj [("class", JArr [JStr "Doc"])]) initial_world =
    (Raise TypeError, initial_world).
Proof.
  apply (proj1 (proj2 (validate_obj_ill_typed schema_definition_example
                         (JObj [("class", JArr [JStr "Doc"])]) initial_world))
           [("class", JArr [JStr "Doc"])]); reflexivity.
Defined.

Lemma dissect_reference_step_cases c i p acc r :
  (is_descriptor r = true /\ exists x, dissect_reference_step c i p acc r = Ok x) \/
  (is_descriptor r = false /\
   dissect_reference_step c i p acc r = Raise AttributeError).
Proof.
  unfold dissect_reference_step, is_descriptor.
  destruct r as [| | | | |?|kvs]; try (right; split; reflexivity).
  cbn [py_get].
  destruct (dict_get kvs "beacon") as [[| | | |b| |]|];
    cbn [default from_option id mbind outcome_bind py_split];
    try (right; split; reflexivity);
    left; (split; [reflexivity|]); rewrite py_last_split; eauto.
Qed.

Lemma dissect_reference_loop_raise c i p l acc e :
  for_each (dissect_reference_step c i p) l acc = Raise e ->
  e = AttributeError /\ forallb is_descriptor l = false.
Proof.
  revert acc. induction l as [|r l IH]; intros acc; cbn [for_each forallb];
    [discriminate|].
  destruct (dissect_reference_step_cases c i p acc r) as [[Hd [x Hx]]|[Hd Hx]];
    rewrite Hx, Hd; cbn [mbind outcome_bind andb].
  - apply IH.
  - intros [= <-]. auto.
Qed.

(** X24. Reference dissection fails in two ways only, and never exits: a
    value that cannot be iterated (null, a boolean, a number) raises
    [TypeError], and an element that is not a dict, or whose ['beacon'] is
    not a string, raises [AttributeError]. *)
Theorem dissect_reference_failures (v from_class from_id : json)
    (from_prop : string) :
  (forall code, dissect_reference v from_class from_id from_prop <> Exit code) /\
  (forall e,
     dissect_reference v from_class from_id from_prop = Raise e ->
     (e = TypeError /\ py_iter v = Raise TypeError) \/
     (e = AttributeError /\
      exists l, py_iter v = Ok l /\ forallb is_descriptor l = false)).
Proof.
  split; [intros code; apply dissect_reference_no_exit|].
  intros e. unfold dissect_reference.
  destruct (py_iter v) as [l|x|e'] eqn:Ei; cbn [mbind outcome_bind].
  - intros H. apply dissect_reference_loop_raise in H as [-> Hd]. right. eauto.
  - discriminate.
  - intros [= <-]. left. destruct v; try discriminate;
      injection Ei as <-; auto.
Qed.

Lemma dissect_reference_failures_witness :
  (TypeError = TypeError /\ py_iter (JInt 5) = Raise TypeError) \/
  (TypeError = AttributeError /\
   exists l, py_iter (JInt 5) = Ok l /\ forallb is_descriptor l = false).
Proof.
  apply (proj2 (dissect_reference_failures (JInt 5) (JStr "Doc") (JStr "x1") "refs")).
  reflexivity.
Defined.

(** * The schema index, defect by defect *)

Lemma for_each_first_defect {A B} (body : B -> A -> outcome B)
    (defect : A -> option exn) :
  (forall b a e, defect a = Some e -> body b a = Raise e) ->
  (forall b a, defect a = None -> exists b', body b a = Ok b') ->
  forall l b,
    match first_defect defect l with
    | Some e => for_each body l b = Raise e
    | None => exists b', for_each body l b = Ok b'
    end.
Proof.
  intros Hbad Hgood. induction l as [|a l IH]; intros b; cbn [first_defect for_each].
  - eexists. reflexivity.
  - destruct (defect a) as [e|] eqn:E.
    + now rewrite (Hbad b a e E).
    + destruct (Hgood b a E) as (b' & ->). cbn [mbind outcome_bind]. apply IH.
Qed.

Lemma py_getitem0_defect data_type :
  match tag_defect data_type with
  | Some e => py_getitem0 data_type = Raise e
  | None => exists tag, py_getitem0 data_type = Ok tag
  end.
Proof.
  destruct data_type as [| | | |s|l|kvs]; cbn [tag_defect py_getitem0];
    try reflexivity.
  - destruct s as [|c rest]; [reflexivity|].
    destruct (utf8_chars (String c rest)) as [|g gs] eqn:E; [|eauto].
    now apply utf8_chars_nonempty in E.
  - destruct l; [reflexivity|eauto].
Qed.

Lemma property_step_defect acc p :
  match property_defect p with
  | Some e => _get_schema_properties_step acc p = Raise e
  | None => exists acc', _get_schema_properties_step acc p = Ok acc'
  end.
Proof.
  destruct acc as [prim refs]. unfold property_defect, _get_schema_properties_step.
  destruct p as [| | | | |?|kvs]; try reflexivity. cbn [py_getitem].
  destruct (dict_get kvs "dataType") as [data_type|]; [|reflexivity].
  cbn [mbind outcome_bind].
  pose proof (py_getitem0_defect data_type) as Ht.
  destruct (tag_defect data_type) as [e|].
  - now rewrite Ht.
  - destruct Ht as (tag & ->). cbn [mbind outcome_bind].
    destruct (dict_get kvs "name"); destruct (is_primitive_prop tag);
      cbn [mbind outcome_bind]; eauto.
Qed.

Lemma class_step_defect d c :
  match class_defect c with
  | Some e => dissect_schema_step d c = Raise e
  | None => exists d', dissect_schema_step d c = Ok d'
  end.
Proof.
  unfold class_defect, dissect_schema_step.
  destruct c as [| | | | |?|kvs]; try reflexivity. cbn [py_getitem].
  destruct (dict_get kvs "properties") as [properties|]; [|reflexivity].
  cbn [mbind outcome_bind]. unfold _get_schema_properties, elements.
  assert (Hloop : forall l,
    match first_defect property_defect l with
    | Some e => for_each _get_schema_properties_step l ([], []) = Raise e
    | None => exists r, for_each _get_schema_properties_step l ([], []) = Ok r
    end).
  { intros l. apply for_each_first_defect.
    - intros b a e H. pose proof (property_step_defect b a) as Hs.
      now rewrite H in Hs.
    - intros b a H. pose proof (property_step_defect b a) as Hs.
      now rewrite H in Hs. }
  destruct properties as [| | | |s|l|pkvs]; try reflexivity;
    cbn [py_iter mbind outcome_bind];
    match goal with
    | |- context [for_each _get_schema_properties_step ?l0 ([], [])] =>
        pose proof (Hloop l0) as Hl; destruct (first_defect property_defect l0) as [e|]
    end;
    try (now rewrite Hl);
    destruct Hl as ([prim refs] & ->); cbn [mbind outcome_bind];
    (destruct (dict_get kvs "class") as [name|]; [|reflexivity]);
    cbn [mbind outcome_bind]; unfold pydict_setitem;
    destruct (hashable name); eauto.
Qed.

Lemma classes_loop_defect l d :
  match first_defect class_defect l with
  | Some e => for_each dissect_schema_step l d = Raise e
  | None => exists d', for_each dissect_schema_step l d = Ok d'
  end.
Proof.
  apply for_each_first_defect.
  - intros b a e H. pose proof (class_step_defect b a) as Hs. now rewrite H in Hs.
  - intros b a H. pose proof (class_step_defect b a) as Hs. now rewrite H in Hs.
Qed.

(** C7, as the code has it.  The derivation is a function of the document:
    two runs on the same document end the same way.  It returns a
    definition exactly on the documents without defect, and on a document of
    the expected shape that definition is built from its classes in order.
    On a document with a defect it raises the exception of the first one: a
    schema that is not a dict, a ['classes'] or ['properties'] value that
    cannot be iterated, a class or property descriptor that is not a dict, a
    missing ['properties'], ['class'], ['dataType'] or ['name'], a
    ['dataType'] without first element, a class name that cannot be
    hashed. *)
Theorem dissect_schema_outcome (doc : json) :
  (forall tcs,
     view_schema doc = Some tcs ->
     dissect_schema doc = Ok (fold_left add_class tcs [])) /\
  (forall e, schema_defect doc = Some e -> dissect_schema doc = Raise e) /\
  (schema_defect doc = None -> exists sd, dissect_schema doc = Ok sd) /\
  (forall r1 r2, dissect_schema doc = r1 -> dissect_schema doc = r2 -> r1 = r2).
Proof.
  split; [exact (dissect_schema_view doc)|].
  assert (H : match schema_defect doc with
              | Some e => dissect_schema doc = Raise e
              | None => exists sd, dissect_schema doc = Ok sd
              end).
  { unfold schema_defect, dissect_schema, elements.
    destruct doc as [| | | | |?|kvs]; try reflexivity. cbn [py_get mbind outcome_bind].
    destruct (default (JArr []) (dict_get kvs "classes")) as [| | | |s|l|ckvs];
      try reflexivity; cbn [py_iter mbind outcome_bind]; apply classes_loop_defect. }
  split; [|split].
  - intros e He. now rewrite He in H.
  - intros He. now rewrite He in H.
  - congruence.
Qed.

Lemma dissect_schema_outcome_witness :
  dissect_schema schema_doc_example = Ok (fold_left add_class schema_view_example []) /\
  dissect_schema (JObj [("classes", JArr [
      JObj [("class", JStr "Doc");
            ("properties", JArr [JObj [("dataType", JArr [JStr "text"])]])]])])
    = Raise KeyError /\
  exists sd, dissect_schema (JObj [("classes", JArr [
      JObj [("class", JInt 7);
            ("properties", JArr [JObj [("name", JNull); ("dataType", JStr "text")]])]])])
    = Ok sd.
Proof.
  split; [|split].
  - apply (proj1 (dissect_schema_outcome schema_doc_example) schema_view_example).
    reflexivity.
  - apply (proj1 (proj2 (dissect_schema_outcome _)) KeyError). reflexivity.
  - apply (proj1 (proj2 (proj2 (dissect_schema_outcome _)))). reflexivity.
Defined.

(** * Validation before any write *)

Lemma validate_loop_known cd c i items param w param' w' :
  for_each (_validate_obj_step cd c i) items param w = (Ok param', w') ->
  Forall (fun kv => str_in (fst kv) (primitive cd) = true \/
                    str_in (fst kv) (ref cd) = true) items.
Proof.
  revert param w. induction items as [|[k v] items IH]; intros param w.
  - constructor.
  - cbn [for_each]. rewrite run_bind.
    destruct (str_in k (primitive cd)) eqn:Hp.
    + rewrite validate_step_primitive by exact Hp. intros H.
      constructor; [left; exact Hp|exact (IH _ _ H)].
    + destruct (str_in k (ref cd)) eqn:Hr.
      * rewrite validate_step_reference by assumption.
        destruct (dissect_reference v c i k); try discriminate.
        intros H. constructor; [right; exact Hr|exact (IH _ _ H)].
      * rewrite validate_step_unknown by assumption. discriminate.
Qed.

(** An object that validates has a known class and only known properties. *)
Lemma validate_obj_known sd obj w w' :
  _validate_obj sd obj w = (Ok tt, w') ->
  ~ unknown_class sd obj /\ forall name, ~ unknown_property sd obj name.
Proof.
  rewrite validate_obj_eq.
  destruct obj as [| | | | |?|kvs]; try discriminate.
  destruct (hashable _); [|discriminate].
  unfold unknown_class, unknown_property.
  destruct (pydict_lookup sd _) as [cd|] eqn:Hcd; [|discriminate].
  destruct (validate_properties cd (JObj kvs) w) as [[p| |] w1] eqn:Hl;
    destruct (dict_get kvs "properties") as [[| | | | |?|props]|] eqn:Hprops;
    try discriminate; intros _; (split; [discriminate|]);
    intros name (cd' & v & [= <-] & Hin & Hp & Hr);
    unfold validate_properties in Hl; apply validate_loop_known in Hl;
    rewrite List.Forall_forall in Hl; destruct (Hl _ Hin) as [H|H];
    cbn [fst] in H; congruence.
Qed.

Lemma validate_objects_known sd objs w w' :
  for_each (fun _ obj => _validate_obj sd obj) objs tt w = (Ok tt, w') ->
  Forall (fun obj => ~ unknown_class sd obj /\
                     forall name, ~ unknown_property sd obj name) objs.
Proof.
  revert w. induction objs as [|obj objs IH]; intros w; cbn [for_each].
  - constructor.
  - rewrite run_bind.
    destruct (_validate_obj sd obj w) as [[[]| |] w1] eqn:E; try discriminate.
    intros H. constructor; [exact (validate_obj_known _ _ _ _ E)|exact (IH _ H)].
Qed.

(** A well-formed object either validates or ends the process with
    status 1. *)
Lemma validate_obj_cases sd obj w :
  raw_object_ok sd obj = true ->
  (exists w', _validate_obj sd obj w = (Ok tt, w')) \/
  (exists w', _validate_obj sd obj w = (Exit 1, w')).
Proof.
  rewrite validate_obj_eq. unfold raw_object_ok.
  destruct obj as [| | | | |?|kvs]; try discriminate.
  destruct (hashable _); [|discriminate]. cbn [andb].
  destruct (pydict_lookup sd _) as [cd|]; [|intros _; right; eauto].
  intros H. apply andb_prop in H as [Hprops Hok]. unfold validate_properties.
  destruct (validate_loop_cases cd (obj_class (JObj kvs)) (obj_id (JObj kvs)) _
              (initial_parameter (JObj kvs)) w Hok)
    as [(p & w' & -> & _)|(n & v & w' & -> & _)];
    destruct (dict_get kvs "properties") as [[| | | | |?|props]|];
    try discriminate; eauto.
Qed.

Lemma validate_objects_cases sd objs w :
  forallb (raw_object_ok sd) objs = true ->
  (exists w', for_each (fun _ obj => _validate_obj sd obj) objs tt w = (Ok tt, w')) \/
  (exists w', for_each (fun _ obj => _validate_obj sd obj) objs tt w = (Exit 1, w')).
Proof.
  revert w. induction objs as [|obj objs IH]; intros w; cbn [forallb for_each].
  - left. eauto.
  - intros H. apply andb_prop in H as [Ho Hs]. rewrite run_bind.
    destruct (validate_obj_cases sd obj w Ho) as [(w1 & ->)|(w1 & ->)].
    + apply IH, Hs.
    + right. eauto.
Qed.

Lemma validate_and_split_nonempty data sd w :
  document_objects data <> [] ->
  validate_and_split data sd w =
    for_each (fun _ obj => _validate_obj sd obj) (document_objects data) tt w.
Proof.
  unfold validate_and_split, document_objects. rewrite run_lift_bind.
  destruct (py_get data "classes" (JArr [])) as [classes| |];
    cbn [mbind outcome_bind]; try congruence.
  rewrite run_lift_bind.
  destruct (py_iter classes) as [objs| |]; congruence.
Qed.

Lemma validation_phase_Ok client file w wv :
  validation_phase client file w = (Ok tt, wv) ->
  exists doc schema sd,
    file = Json doc /\ schema_get client = Ok schema /\ dissect_schema schema = Ok sd.
Proof.
  unfold validation_phase, DataFileImporter.__init__, ValidateAndSplitData.__init__.
  unfold mbind, M_bind, mret, M_ret, lift, print, emit, reset_lists.
  destruct file as [| |doc]; try discriminate.
  destruct (schema_get client) as [schema| |]; try discriminate.
  cbv beta iota.
  destruct (dissect_schema schema) as [sd| |] eqn:Hsd; try discriminate.
  intros _. exists doc, schema, sd. auto.
Qed.

(** C6. Every write call of an import run comes after the whole document
    has been validated.  The run up to the return of [validate_and_split]
    makes no write call, and a write call in the trace of the run means
    that it returned.  When it returned, the file held a document, the
    schema was fetched and dissected, every object of the document has a
    known class and only known properties, and the object records are those
    of the objects, one by one in file order.  A document with an object of
    unknown class or with an unknown property is never one of these: its
    run ends where validation ends, without a write call, and with exit
    status 1 when its objects are well formed.  When validation ends in an
    exit or an exception, so does the import run, in the same state; when it
    returns, the rest of the trace is the line "Importing data" followed by
    the uploads, whose write calls are, in order, a prefix of those for the
    records validation produced (all of them when the run returns). *)
Theorem writes_only_after_validation (client : weaviate_client)
    (file : data_file) (fail_on_error : bool) :
  exists ov wv o w,
    validation_phase client file initial_world = (ov, wv) /\
    import_data_from_file client file fail_on_error initial_world = (o, w) /\
    Forall (fun ev => is_write ev = false) (trace wv) /\
    (forall ev, In ev (trace w) -> is_write ev = true -> ov = Ok tt) /\
    (ov = Ok tt ->
     exists doc schema sd,
       file = Json doc /\ schema_get client = Ok schema /\
       dissect_schema schema = Ok sd /\
       Forall (fun obj => ~ unknown_class sd obj /\
                          forall name, ~ unknown_property sd obj name)
              (document_objects doc) /\
       map class_name (data_objects wv) = map obj_class (document_objects doc) /\
       map uuid (data_objects wv) = map obj_id (document_objects doc)) /\
    (forall doc schema sd,
       file = Json doc -> schema_get client = Ok schema ->
       dissect_schema schema = Ok sd ->
       validate_and_split doc sd (log_all initial_world validation_start) = (ov, wv) /\
       forall obj,
         In obj (document_objects doc) ->
         unknown_class sd obj \/ (exists name, unknown_property sd obj name) ->
         ov <> Ok tt /\ o = ov /\ w = wv /\
         List.filter is_write (trace w) = [] /\
         (forallb (raw_object_ok sd) (document_objects doc) = true -> o = Exit 1)) /\
    match ov with
    | Ok _ =>
        exists uploads rest,
          trace w = trace wv ++ EvPrint [[Lit "Importing data"]] :: uploads /\
          expected_writes wv = List.filter is_write uploads ++ rest /\
          (o = Ok tt -> rest = [])
    | Exit c => o = Exit c /\ w = wv
    | Raise e => o = Raise e /\ w = wv
    end.
Proof.
  destruct (validation_phase client file initial_world) as [ov wv] eqn:Ev.
  destruct (import_data_from_file client file fail_on_error initial_world)
    as [o w] eqn:Ei.
  exists ov, wv, o, w. split; [reflexivity|]. split; [reflexivity|].
  assert (Hq : Forall (fun ev => is_write ev = false) (trace wv)).
  { destruct (quiet_validation_phase _ _ _ _ _ Ev) as (t & Ht & Hq).
    rewrite Ht. exact Hq. }
  assert (Hm : match ov with
               | Ok _ =>
                   exists uploads rest,
                     trace w = trace wv ++ EvPrint [[Lit "Importing data"]] :: uploads /\
                     expected_writes wv = List.filter is_write uploads ++ rest /\
                     (o = Ok tt -> rest = [])
               | Exit c => o = Exit c /\ w = wv
               | Raise e => o = Raise e /\ w = wv
               end).
  { rewrite import_data_from_file_phases, Ev in Ei.
    destruct ov as [[]| |].
    - exact (upload_phase_trace _ _ _ _ _ Ei).
    - now injection Ei as <- <-.
    - now injection Ei as <- <-. }
  assert (Heq : forall doc schema sd,
            file = Json doc -> schema_get client = Ok schema ->
            dissect_schema schema = Ok sd ->
            validate_and_split doc sd (log_all initial_world validation_start)
              = (ov, wv)).
  { intros doc schema sd -> Hs Hsd. rewrite <- Ev.
    unfold validation_phase, DataFileImporter.__init__, ValidateAndSplitData.__init__.
    unfold mbind, M_bind, mret, M_ret, lift, print, emit, reset_lists.
    rewrite Hs. cbv beta iota. rewrite Hsd. reflexivity. }
  assert (Hfail : ov <> Ok tt -> o = ov /\ w = wv).
  { destruct ov as [[]| |]; [congruence| |]; intros _; exact Hm. }
  split; [exact Hq|]. split; [|split; [|split; [|exact Hm]]].
  - intros ev Hin Hw. destruct ov as [[]| |]; [reflexivity| |];
      destruct Hm as [_ ->]; rewrite List.Forall_forall in Hq;
      apply Hq in Hin; congruence.
  - intros ->.
    destruct (validation_phase_Ok _ _ _ _ Ev) as (doc & schema & sd & Hf & Hs & Hsd).
    exists doc, schema, sd. repeat (split; [assumption|]).
    pose proof (Heq doc schema sd Hf Hs Hsd) as Hv.
    apply validate_and_split_objects in Hv; [|eauto].
    split; [exact (validate_objects_known _ _ _ _ Hv)|].
    apply validate_objects_Ok in Hv as (records & Ho & Hc & Hu & _).
    cbn [log_all data_objects initial_world app] in Ho. rewrite Ho.
    split; assumption.
  - intros doc schema sd Hf Hs Hsd. pose proof (Heq doc schema sd Hf Hs Hsd) as Hv.
    split; [exact Hv|]. intros obj Hin Hbad.
    assert (Hne : document_objects doc <> []).
    { intros E. rewrite E in Hin. destruct Hin. }
    rewrite (validate_and_split_nonempty _ _ _ Hne) in Hv.
    assert (Hnot : ov <> Ok tt).
    { intros ->. apply validate_objects_known in Hv.
      rewrite List.Forall_forall in Hv. destruct (Hv _ Hin) as [Hc Hp].
      destruct Hbad as [Hb|[name Hb]]; [exact (Hc Hb)|exact (Hp name Hb)]. }
    split; [exact Hnot|]. destruct (Hfail Hnot) as [-> ->].
    split; [reflexivity|]. split; [reflexivity|].
    split; [exact (filter_no_write _ Hq)|].
    intros Hraw.
    destruct (validate_objects_cases sd _ (log_all initial_world validation_start) Hraw)
      as [(w' & H)|(w' & H)]; rewrite H in Hv; injection Hv as <- <-;
      [now destruct Hnot|reflexivity].
Qed.

Lemma writes_only_after_validation_witness :
  exists wv w,
    validation_phase quiet_client (Json doomed_doc_example) initial_world
      = (Exit 1, wv) /\
    import_data_from_file quiet_client (Json doomed_doc_example) true initial_world
      = (Exit 1, w) /\
    w = wv /\ List.filter is_write (trace w) = [].
Proof.
  destruct (writes_only_after_validation quiet_client (Json doomed_doc_example) true)
    as (ov & wv & o & w & Hv & Hi & _ & _ & _ & Hd & _).
  destruct (Hd doomed_doc_example schema_doc_example schema_definition_example
              eq_refl eq_refl eq_refl) as [_ Hdoomed].
  destruct (Hdoomed unknown_class_object_example
              (or_intror (or_introl eq_refl)) (or_introl eq_refl))
    as (_ & Ho & Hw & Hf & Hexit).
  exists wv, w. rewrite <- Ho, (Hexit eq_refl) in Hv.
  rewrite (Hexit eq_refl) in Hi. repeat split; assumption.
Defined.

(** * The end of a run without fail-on-error *)

Lemma never_exits_ret {A} (a : A) : never_exits (mret a).
Proof. intros w o w' [= <- <-] c. discriminate. Qed.

Lemma never_exits_lift {A} (o : outcome A) :
  (forall c, o <> Exit c) -> never_exits (lift o).
Proof. intros H w o' w' [= <- <-]. exact H. Qed.

Lemma never_exits_emit ev : never_exits (emit ev).
Proof. intros w o w' [= <- <-] c. discriminate. Qed.

Lemma never_exits_get_world : never_exits get_world.
Proof. intros w o w' [= <- <-] c. discriminate. Qed.

Lemma never_exits_bind {A B} (m : M A) (f : A -> M B) :
  never_exits m -> (forall a, never_exits (f a)) -> never_exits (m ≫= f).
Proof.
  intros Hm Hf w o w' E. rewrite run_bind in E.
  destruct (m w) as [[a|x|e] w1] eqn:Em.
  - exact (Hf a _ _ _ E).
  - now destruct (Hm _ _ _ Em x).
  - injection E as <- <-. discriminate.
Qed.

Lemma never_exits_for_each {A B} (body : B -> A -> M B) l acc :
  (forall b a, never_exits (body b a)) -> never_exits (for_each body l acc).
Proof.
  intros Hbody. revert acc. induction l as [|x l IH]; intros acc; cbn [for_each].
  - apply never_exits_ret.
  - apply never_exits_bind; auto.
Qed.

Lemma py_get_no_exit v k dflt c : py_get v k dflt <> Exit c.
Proof. destruct v; discriminate. Qed.

Lemma py_iter_no_exit v c : py_iter v <> Exit c.
Proof. destruct v; discriminate. Qed.

(** With fail-on-error off the callback never ends the process. *)
Lemma never_exits_exit_on_error batch_results :
  never_exits (_exit_on_error false batch_results).
Proof.
  unfold _exit_on_error.
  apply never_exits_bind; [apply never_exits_lift; intros c; apply py_iter_no_exit|].
  intros entries. apply never_exits_for_each. intros [] entry.
  unfold _exit_on_error_step.
  apply never_exits_bind; [apply never_exits_lift; intros c; apply py_get_no_exit|].
  intros result.
  apply never_exits_bind; [apply never_exits_lift; intros c; apply py_get_no_exit|].
  intros error.
  destruct error; try apply never_exits_ret;
    (apply never_exits_bind; [apply never_exits_emit|]); intros _;
    apply never_exits_ret.
Qed.

Lemma never_exits_batcher_call client call :
  never_exits (batcher_call client false call).
Proof.
  unfold batcher_call.
  apply never_exits_bind; [apply never_exits_emit|]. intros _.
  apply never_exits_bind; [apply never_exits_get_world|]. intros w.
  unfold run_callbacks. apply never_exits_for_each. intros [] batch_results.
  apply never_exits_exit_on_error.
Qed.

Lemma never_exits_upload_phase client : never_exits (upload_phase client false).
Proof.
  unfold upload_phase.
  apply never_exits_bind; [apply never_exits_emit|]. intros _.
  apply never_exits_bind; [apply never_exits_get_world|]. intros w.
  apply never_exits_bind.
  { apply never_exits_for_each. intros [] obj. apply never_exits_batcher_call. }
  intros _. apply never_exits_bind.
  { apply never_exits_for_each. intros [] r. apply never_exits_batcher_call. }
  intros _. apply never_exits_batcher_call.
Qed.

(** X10. With fail-on-error off, an import run ends in [sys.exit] only
    where validation did, with the exit status and in the state validation
    ended with: the upload never ends the process, whatever errors the
    callback is given to print. *)
Theorem import_exits_only_from_validation (client : weaviate_client)
    (file : data_file) (c : Z) (w : world) :
  import_data_from_file client file false initial_world = (Exit c, w) ->
  validation_phase client file initial_world = (Exit c, w).
Proof.
  rewrite import_data_from_file_phases.
  destruct (validation_phase client file initial_world) as [[[]| |] wv].
  - intros H. now destruct (never_exits_upload_phase client _ _ _ H c).
  - auto.
  - discriminate.
Qed.

Lemma import_exits_only_from_validation_witness :
  validation_phase failing_client (Json doomed_doc_example) initial_world =
    (Exit 1,
     {| trace := validation_start ++
                 [validation_failed (class_reason (JStr "Nope"))];
        data_objects := [object_record_example];
        data_references := [reference_record_example] |}).
Proof.
  apply (import_exits_only_from_validation failing_client (Json doomed_doc_example)).
  reflexivity.
Defined.
